(** * ASDD downloaders: a shallow embedding of the crawl-and-fetch scripts

    The development follows the two downloader scripts of the repository:
    - [download_asdd_data.py]     (class [ASDDDownloader], HTTP session);
    - [download_asdd_selenium.py] (class [ASDDSeleniumDownloader], browser
      driver and the resumable progress file).

    Python strings are sequences of Unicode code points; a method that
    mutates [self] becomes a function on an explicit state, an exception
    becomes a [Raise] result, and the remote site, the browser driver and the
    file system are parameters of the sections that embed the methods. *)

From Stdlib Require Import List NArith ZArith QArith Bool Lia String Ascii.
From Stdlib Require Import Permutation.
Import ListNotations.

Close Scope Q_scope.
Open Scope nat_scope.

Set Implicit Arguments.

(* ================================================================== *)
(** * Python strings *)

Module PyStr.
Local Open Scope N_scope.

(** A [str] is a sequence of code points. *)
Definition pystr := list N.

(** A literal of the source, written as a Rocq string. *)
Definition lit (s : string) : pystr :=
  List.map N_of_ascii (list_ascii_of_string s).

Definition eqb (s t : pystr) : bool :=
  if list_eq_dec N.eq_dec s t then true else false.

Definition mem (s : pystr) (l : list pystr) : bool :=
  existsb (eqb s) l.

(** [s.replace(old, new)] for one-character [old] and [new]. *)
Definition replace (old new : N) (s : pystr) : pystr :=
  List.map (fun c => if c =? old then new else c) s.

(** The code points [str.strip()] removes when it is called without an
    argument (CPython's [Py_UNICODE_ISSPACE]). *)
Definition isspace (c : N) : bool :=
  ((0x09 <=? c) && (c <=? 0x0D))
  || ((0x1C <=? c) && (c <=? 0x20))
  || (c =? 0x85) || (c =? 0xA0) || (c =? 0x1680)
  || ((0x2000 <=? c) && (c <=? 0x200A))
  || (c =? 0x2028) || (c =? 0x2029) || (c =? 0x202F)
  || (c =? 0x205F) || (c =? 0x3000).

Fixpoint lstrip (s : pystr) : pystr :=
  match s with
  | [] => []
  | c :: s' => if isspace c then lstrip s' else s
  end.

Definition rstrip (s : pystr) : pystr := rev (lstrip (rev s)).

Definition strip (s : pystr) : pystr := rstrip (lstrip s).

(** [s.endswith(suffix)]. *)
Definition endswith (s suffix : pystr) : bool :=
  eqb (skipn (List.length s - List.length suffix) s) suffix
  && (List.length suffix <=? List.length s)%nat.

End PyStr.

Import PyStr.

(* ================================================================== *)
(** * pathlib paths *)

Module PathLib.
Local Open Scope N_scope.

(** A [PurePosixPath], as its parts: the root when the path is absolute,
    then the components. *)
Definition path := list pystr.

(** What stands between two slashes is a component unless it is empty or a
    single dot. *)
Definition counts (c : pystr) : bool := negb (eqb c [] || eqb c [46]).

Fixpoint split_slash (current s : pystr) : list pystr :=
  match s with
  | [] => [current]
  | c :: s' =>
      if c =? 47 then current :: split_slash [] s'
      else split_slash (current ++ [c]) s'
  end.

(** The parts of a string: two slashes at its head, and no more, make a
    root of their own. *)
Definition parts (name : pystr) : path :=
  let components := filter counts (split_slash [] name) in
  match name with
  | 47 :: 47 :: 47 :: _ => [47] :: components
  | 47 :: 47 :: _ => [47; 47] :: components
  | 47 :: _ => [47] :: components
  | _ => components
  end.

(** [p / name]: an absolute [name] stands for itself. *)
Definition truediv (p : path) (name : pystr) : path :=
  match name with
  | 47 :: _ => parts name
  | _ => p ++ parts name
  end.

(** [p.parent]: the root is its own parent. *)
Definition parent (p : path) : path :=
  match p with
  | [47 :: root] => [47 :: root]
  | _ => removelast p
  end.

End PathLib.

(* ================================================================== *)
(** * Effects: state, exceptions, loops *)

Module Eff.

(** The exception classes the scripts meet.  All of them derive from
    Python's [Exception], so both [except Exception] and a bare [except]
    catch every one of them. *)
Inductive exn : Type :=
| RequestException      (* requests: connection error, timeout, ... *)
| HTTPError             (* response.raise_for_status() *)
| OSError               (* mkdir, open, write *)
| JSONDecodeError       (* json.load, response.json() *)
| AttributeError        (* attribute access on None *)
| KeyError              (* a dict without the key *)
| ValueError            (* urljoin on a malformed href *)
| WebDriverException.   (* selenium *)

Inductive res (A : Type) : Type :=
| Ok (a : A)
| Raise (e : exn).

Arguments Ok {A} a.
Arguments Raise {A} e.

(** A method of an object whose attributes and surroundings are [S]. *)
Definition M (S A : Type) : Type := S -> res A * S.

Definition ret {S A} (a : A) : M S A := fun s => (Ok a, s).

Definition raise {S A} (e : exn) : M S A := fun s => (Raise e, s).

Definition bind {S A B} (c : M S A) (k : A -> M S B) : M S B :=
  fun s =>
    match c s with
    | (Ok a, s') => k a s'
    | (Raise e, s') => (Raise e, s')
    end.

(** [try: c except Exception as e: h e] *)
Definition try_except {S A} (c : M S A) (h : exn -> M S A) : M S A :=
  fun s =>
    match c s with
    | (Ok a, s') => (Ok a, s')
    | (Raise e, s') => h e s'
    end.

(** [try: c finally: f] *)
Definition try_finally {S A} (c : M S A) (f : M S unit) : M S A :=
  fun s =>
    match c s with
    | (r, s') =>
        match f s' with
        | (Ok _, s'') => (r, s'')
        | (Raise e, s'') => (Raise e, s'')
        end
    end.

Definition get {S} : M S S := fun s => (Ok s, s).

Definition modify {S} (f : S -> S) : M S unit := fun s => (Ok tt, f s).

(** [for x in xs: body x]; an exception leaves the loop. *)
Fixpoint for_each {S A} (xs : list A) (body : A -> M S unit) : M S unit :=
  match xs with
  | [] => ret tt
  | x :: xs' => bind (body x) (fun _ => for_each xs' body)
  end.

Definition is_ok {A} (r : res A) : bool :=
  match r with Ok _ => true | Raise _ => false end.

(** Whatever its result, [c] takes a state to one that [R] relates to it. *)
Definition preserves {S A} (R : S -> S -> Prop) (c : M S A) : Prop :=
  forall s, R s (snd (c s)).

End Eff.

Import Eff.

Declare Scope eff_scope.
Delimit Scope eff_scope with eff.

Notation "x <- c ;; k" := (bind c (fun x => k))
  (at level 61, c at next level, right associativity) : eff_scope.
Notation "c ;;; k" := (bind c (fun _ => k))
  (at level 61, right associativity) : eff_scope.

Local Open Scope eff_scope.

(* ================================================================== *)
(** * The JSON codec behind the progress file

    [json.dump(obj, f, indent=2)] and [json.load(f)] of Python's standard
    library, on the text of the file. *)

Module Json.

Local Open Scope N_scope.

#[warnings="-register-all"]
Inductive value : Type :=
| Null
| Bool (b : bool)
| Num (lexeme : pystr)     (* a number, by its literal *)
| Str (s : pystr)
| Arr (items : list value)
| Obj (members : list (pystr * value)).

(** ** Encoding *)

Definition hexdigit (d : N) : N := if d <? 10 then 48 + d else 87 + d.

(** ['{0:04x}'.format(n)] for [n < 0x10000] *)
Definition hex4 (n : N) : pystr :=
  [ hexdigit (n / 4096 mod 16); hexdigit (n / 256 mod 16);
    hexdigit (n / 16 mod 16); hexdigit (n mod 16) ].

(** What [ensure_ascii] makes of one character: the short escapes, the
    printable ASCII characters as they are, [\uXXXX] for the rest of the
    basic plane and a surrogate pair above it. *)
Definition escape_char (c : N) : pystr :=
  if c =? 34 then [92; 34]
  else if c =? 92 then [92; 92]
  else if c =? 10 then [92; 110]
  else if c =? 13 then [92; 114]
  else if c =? 9 then [92; 116]
  else if c =? 8 then [92; 98]
  else if c =? 12 then [92; 102]
  else if (32 <=? c) && (c <=? 126) then [c]
  else if c <? 0x10000 then 92 :: 117 :: hex4 c
  else
    let n := c - 0x10000 in
    (92 :: 117 :: hex4 (0xD800 + n / 1024 mod 1024))
    ++ (92 :: 117 :: hex4 (0xDC00 + n mod 1024)).

Definition encode_string (s : pystr) : pystr :=
  34 :: flat_map escape_char s ++ [34].

(** A newline and the indentation of [level], two spaces a level. *)
Definition newline_indent (level : nat) : pystr :=
  10 :: repeat 32 (2 * level).

Fixpoint dump (level : nat) (v : value) {struct v} : pystr :=
  match v with
  | Null => lit "null"
  | Bool true => lit "true"
  | Bool false => lit "false"
  | Num lexeme => lexeme
  | Str s => encode_string s
  | Arr [] => lit "[]"
  | Arr (x :: xs) =>
      lit "[" ++ newline_indent (S level) ++ dump (S level) x
      ++ (fix more (l : list value) : pystr :=
            match l with
            | [] => []
            | y :: l' =>
                lit "," ++ newline_indent (S level) ++ dump (S level) y
                ++ more l'
            end) xs
      ++ newline_indent level ++ lit "]"
  | Obj [] => lit "{}"
  | Obj ((k, x) :: ms) =>
      lit "{" ++ newline_indent (S level)
      ++ encode_string k ++ lit ": " ++ dump (S level) x
      ++ (fix more (l : list (pystr * value)) : pystr :=
            match l with
            | [] => []
            | (k', y) :: l' =>
                lit "," ++ newline_indent (S level)
                ++ encode_string k' ++ lit ": " ++ dump (S level) y
                ++ more l'
            end) ms
      ++ newline_indent level ++ lit "}"
  end.

(** [json.dumps(v, indent=2)] *)
Definition dumps (v : value) : pystr := dump 0 v.

(** ** Decoding *)

Definition hexval (c : N) : option N :=
  if (48 <=? c) && (c <=? 57) then Some (c - 48)
  else if (97 <=? c) && (c <=? 102) then Some (c - 87)
  else if (65 <=? c) && (c <=? 70) then Some (c - 55)
  else None.

Definition decode4 (h3 h2 h1 h0 : N) : option N :=
  match hexval h3, hexval h2, hexval h1, hexval h0 with
  | Some a, Some b, Some c, Some d => Some (((a * 16 + b) * 16 + c) * 16 + d)
  | _, _, _, _ => None
  end.

(** The character after a backslash, other than [u]. *)
Definition unescape (e : N) : option N :=
  if e =? 34 then Some 34
  else if e =? 92 then Some 92
  else if e =? 47 then Some 47
  else if e =? 98 then Some 8
  else if e =? 102 then Some 12
  else if e =? 110 then Some 10
  else if e =? 114 then Some 13
  else if e =? 116 then Some 9
  else None.

Definition cons_char (c : N) (r : option (pystr * pystr))
  : option (pystr * pystr) :=
  match r with
  | Some (s, rest) => Some (c :: s, rest)
  | None => None
  end.

(** The scanner of a string, from after its opening quote: the string and
    the text after its closing quote.  A control character is refused, a
    [\uXXXX] escape for a high surrogate joins a low surrogate escape that
    follows it. *)
Fixpoint scanstring (s : pystr) : option (pystr * pystr) :=
  match s with
  | [] => None
  | c :: rest =>
      if c =? 34 then Some ([], rest)
      else if c =? 92 then
        match rest with
        | [] => None
        | e :: rest1 =>
            if e =? 117 then
              match rest1 with
              | h3 :: h2 :: h1 :: h0 :: rest2 =>
                  match decode4 h3 h2 h1 h0 with
                  | None => None
                  | Some uni =>
                      if (0xD800 <=? uni) && (uni <=? 0xDBFF) then
                        match rest2 with
                        | b :: u :: g3 :: g2 :: g1 :: g0 :: rest3 =>
                            if (b =? 92) && (u =? 117) then
                              match decode4 g3 g2 g1 g0 with
                              | None => None
                              | Some uni2 =>
                                  if (0xDC00 <=? uni2) && (uni2 <=? 0xDFFF)
                                  then
                                    cons_char
                                      (0x10000 + ((uni - 0xD800) * 1024
                                                  + (uni2 - 0xDC00)))
                                      (scanstring rest3)
                                  else cons_char uni (scanstring rest2)
                              end
                            else cons_char uni (scanstring rest2)
                        | _ => cons_char uni (scanstring rest2)
                        end
                      else cons_char uni (scanstring rest2)
                  end
              | _ => None
              end
            else
              match unescape e with
              | Some ch => cons_char ch (scanstring rest1)
              | None => None
              end
        end
      else if c <? 32 then None
      else cons_char c (scanstring rest)
  end.

Definition is_ws (c : N) : bool :=
  (c =? 32) || (c =? 9) || (c =? 10) || (c =? 13).

Fixpoint skip_ws (s : pystr) : pystr :=
  match s with
  | [] => []
  | c :: rest => if is_ws c then skip_ws rest else s
  end.

Definition is_digit (c : N) : bool := (48 <=? c) && (c <=? 57).

(** The longest run of digits at the head of [s], and what follows. *)
Fixpoint digits (s : pystr) : pystr * pystr :=
  match s with
  | [] => ([], [])
  | c :: rest =>
      if is_digit c
      then let (ds, r) := digits rest in (c :: ds, r)
      else ([], s)
  end.

(** The integer part of a number: [0], or digits that start with [1-9]. *)
Definition match_int (s : pystr) : option (pystr * pystr) :=
  match s with
  | [] => None
  | c :: rest =>
      if c =? 48 then Some ([c], rest)
      else if is_digit c then let (ds, r) := digits rest in Some (c :: ds, r)
      else None
  end.

(** [\.[0-9]+], when it is there. *)
Definition match_frac (s : pystr) : pystr * pystr :=
  match s with
  | c :: rest =>
      if c =? 46 then
        match digits rest with
        | ([], _) => ([], s)
        | (ds, r) => (c :: ds, r)
        end
      else ([], s)
  | [] => ([], s)
  end.

(** [[eE][-+]?[0-9]+], when it is there. *)
Definition match_exp (s : pystr) : pystr * pystr :=
  match s with
  | c :: rest =>
      if (c =? 101) || (c =? 69) then
        match rest with
        | sign :: rest' =>
            if (sign =? 45) || (sign =? 43) then
              match digits rest' with
              | ([], _) => ([], s)
              | (ds, r) => (c :: sign :: ds, r)
              end
            else
              match digits rest with
              | ([], _) => ([], s)
              | (ds, r) => (c :: ds, r)
              end
        | [] => ([], s)
        end
      else ([], s)
  | [] => ([], s)
  end.

(** The number at the head of [s]: its literal and what follows. *)
Definition match_number (s : pystr) : option (pystr * pystr) :=
  let (sign, s1) :=
    match s with
    | c :: rest => if c =? 45 then ([c], rest) else ([], s)
    | [] => ([], s)
    end in
  match match_int s1 with
  | None => None
  | Some (int, s2) =>
      let (frac, s3) := match_frac s2 in
      let (exp, s4) := match_exp s3 in
      Some (sign ++ int ++ frac ++ exp, s4)
  end.

(** [s] starts with the word [w]: what follows it. *)
Fixpoint after_word (w s : pystr) : option pystr :=
  match w, s with
  | [], _ => Some s
  | a :: w', c :: s' => if c =? a then after_word w' s' else None
  | _ :: _, [] => None
  end.

(** A value that is neither a string, an object nor an array. *)
Definition scan_atom (s : pystr) : option (value * pystr) :=
  match after_word (lit "null") s with
  | Some r => Some (Null, r)
  | None =>
  match after_word (lit "true") s with
  | Some r => Some (Bool true, r)
  | None =>
  match after_word (lit "false") s with
  | Some r => Some (Bool false, r)
  | None =>
  match match_number s with
  | Some (lexeme, r) => Some (Num lexeme, r)
  | None =>
  match after_word (lit "NaN") s with
  | Some r => Some (Num (lit "NaN"), r)
  | None =>
  match after_word (lit "Infinity") s with
  | Some r => Some (Num (lit "Infinity"), r)
  | None =>
  match after_word (lit "-Infinity") s with
  | Some r => Some (Num (lit "-Infinity"), r)
  | None => None
  end end end end end end end.

(** [d[key] = v] on the members of a dict: a key that is there keeps its
    place and takes the new value. *)
Fixpoint dict_set (key : pystr) (v : value) (d : list (pystr * value))
  : list (pystr * value) :=
  match d with
  | [] => [(key, v)]
  | (k, x) :: d' =>
      if PyStr.eqb k key then (k, v) :: d' else (k, x) :: dict_set key v d'
  end.

(** [dict(pairs)] *)
Definition dict_of_pairs (pairs : list (pystr * value))
  : list (pystr * value) :=
  fold_left (fun d kv => dict_set (fst kv) (snd kv) d) pairs [].

(** The scanner of a value, of the items of an array from its first item,
    and of the members of an object from the quote of its first key.  The
    recursion is on [fuel], which [loads] takes from the length of the
    text. *)
Fixpoint scan_once (fuel : nat) (s : pystr) {struct fuel}
  : option (value * pystr) :=
  match fuel with
  | O => None
  | S fuel' =>
      match s with
      | [] => None
      | c :: rest =>
          if c =? 34 then
            match scanstring rest with
            | Some (str, r) => Some (Str str, r)
            | None => None
            end
          else if c =? 123 then
            match skip_ws rest with
            | [] => None
            | c1 :: r1 =>
                if c1 =? 125 then Some (Obj [], r1)
                else
                  match scan_members fuel' (c1 :: r1) with
                  | Some (ms, r2) => Some (Obj (dict_of_pairs ms), r2)
                  | None => None
                  end
            end
          else if c =? 91 then
            match skip_ws rest with
            | [] => None
            | c1 :: r1 =>
                if c1 =? 93 then Some (Arr [], r1)
                else
                  match scan_items fuel' (c1 :: r1) with
                  | Some (vs, r2) => Some (Arr vs, r2)
                  | None => None
                  end
            end
          else scan_atom s
      end
  end

with scan_items (fuel : nat) (s : pystr) {struct fuel}
  : option (list value * pystr) :=
  match fuel with
  | O => None
  | S fuel' =>
      match scan_once fuel' s with
      | None => None
      | Some (v, r) =>
          match skip_ws r with
          | [] => None
          | c :: r1 =>
              if c =? 93 then Some ([v], r1)
              else if c =? 44 then
                match scan_items fuel' (skip_ws r1) with
                | Some (vs, r2) => Some (v :: vs, r2)
                | None => None
                end
              else None
          end
      end
  end

with scan_members (fuel : nat) (s : pystr) {struct fuel}
  : option (list (pystr * value) * pystr) :=
  match fuel with
  | O => None
  | S fuel' =>
      match s with
      | [] => None
      | q :: r0 =>
          if q =? 34 then
            match scanstring r0 with
            | None => None
            | Some (key, r1) =>
                match skip_ws r1 with
                | [] => None
                | colon :: r2 =>
                    if colon =? 58 then
                      match scan_once fuel' (skip_ws r2) with
                      | None => None
                      | Some (v, r3) =>
                          match skip_ws r3 with
                          | [] => None
                          | c :: r4 =>
                              if c =? 125 then Some ([(key, v)], r4)
                              else if c =? 44 then
                                match scan_members fuel' (skip_ws r4) with
                                | Some (ms, r5) => Some ((key, v) :: ms, r5)
                                | None => None
                                end
                              else None
                          end
                      end
                    else None
                end
            end
          else None
      end
  end.

(** [json.loads(text)]: one value with white space around it, and nothing
    else; [None] stands for [JSONDecodeError]. *)
Definition loads (text : pystr) : option value :=
  match scan_once (2 * List.length text + 2) (skip_ws text) with
  | Some (v, rest) =>
      match skip_ws rest with
      | [] => Some v
      | _ :: _ => None
      end
  | None => None
  end.

End Json.

(* ================================================================== *)
(** * download_asdd_data.py: class ASDDDownloader *)

Module ASDDDownloader.

(** A [pathlib.Path], as its parts. *)
Definition path := PathLib.path.

(** [p / name] *)
Definition joinpath (p : path) (name : pystr) : path := PathLib.truediv p name.

(** [p.parent] *)
Definition parent (p : path) : path := PathLib.parent p.

(** The [data] of a post: a dict the script builds, whose values are strings
    or what the site gave for a code. *)
Definition form := list (pystr * Json.value).

(** The value of [key] among the members of a JSON object. *)
Fixpoint lookup (key : pystr) (d : list (pystr * Json.value))
  : option Json.value :=
  match d with
  | [] => None
  | (k, v) :: d' => if PyStr.eqb k key then Some v else lookup key d'
  end.

(** A response: [response.json()] gives any JSON value, or raises. *)
Record Response : Type := {
  status_code : N;
  content : pystr;
  json : res Json.value
}.

(** [{'value': ..., 'name': ...}] *)
Record Opt : Type := { value : pystr; name : pystr }.

Record Stats : Type := {
  districts : nat;
  constituencies : nat;
  parts : nat;
  downloaded : nat;
  failed : nat
}.

(** What a run does to the outside, in order. *)
Inductive event : Type :=
| EvGet (url : pystr)
| EvPost (url : pystr) (data : form)
| EvSleep (seconds : Q)
| EvMkdir (p : path)
| EvWrite (p : path) (data : pystr).

(** The collaborators the class is written against: the [requests] session
    with the remote site behind it, the file system, and the library calls
    on page text. *)
Class World : Type := {
  Net : Type;
  FS : Type;
  session_get : pystr -> Net -> res Response * Net;
  session_post : pystr -> form -> Net -> res Response * Net;
  (** [p.mkdir(parents=.., exist_ok=True)] *)
  path_mkdir : path -> bool -> FS -> res unit * FS;
  (** [with open(p, mode) as f: f.write(data)] *)
  write_file : path -> pystr -> FS -> res unit * FS;
  (** the [(value, text)] pairs of the options of the district [select]
      of a page, when the page has one *)
  find_district_select : pystr -> option (list (pystr * pystr));
  (** [soup.prettify()] *)
  prettify : pystr -> pystr;
  (** the [(href, text)] pairs of the anchors of a page that have an href *)
  find_all_a : pystr -> list (pystr * pystr);
  (** [str.lower] *)
  lower : pystr -> pystr;
  (** [urllib.parse.urljoin], which raises [ValueError] on some hrefs *)
  urljoin : pystr -> pystr -> res pystr;
  basename : pystr -> pystr;
  (** [str(v)] for a number, a list or a dict *)
  repr : Json.value -> pystr
}.

Section Methods.

Context {W : World}.

(** The attributes of [self], with the surroundings. *)
Record St : Type := {
  base_url : pystr;
  asd_url : pystr;
  output_dir : path;
  stats : Stats;
  net : Net;
  fs : FS;
  trace : list event
}.

Definition set_stats (f : Stats -> Stats) (s : St) : St :=
  {| base_url := base_url s; asd_url := asd_url s;
     output_dir := output_dir s; stats := f (stats s);
     net := net s; fs := fs s; trace := trace s |}.

Definition emit (e : event) (s : St) : St :=
  {| base_url := base_url s; asd_url := asd_url s;
     output_dir := output_dir s; stats := stats s;
     net := net s; fs := fs s; trace := trace s ++ [e] |}.

Definition set_net (n : Net) (s : St) : St :=
  {| base_url := base_url s; asd_url := asd_url s;
     output_dir := output_dir s; stats := stats s;
     net := n; fs := fs s; trace := trace s |}.

Definition set_fs (f : FS) (s : St) : St :=
  {| base_url := base_url s; asd_url := asd_url s;
     output_dir := output_dir s; stats := stats s;
     net := net s; fs := f; trace := trace s |}.

(** [time.sleep(seconds)] *)
Definition sleep (seconds : Q) : M St unit := modify (emit (EvSleep seconds)).

(** [self.session.get(url, timeout=30)] *)
Definition do_get (url : pystr) : M St Response :=
  fun s =>
    let (r, n) := session_get url (net s) in
    (r, set_net n (emit (EvGet url) s)).

(** [self.session.post(endpoint, data=data, timeout=10)] *)
Definition do_post (url : pystr) (data : form) : M St Response :=
  fun s =>
    let (r, n) := session_post url data (net s) in
    (r, set_net n (emit (EvPost url data) s)).

Definition do_mkdir (p : path) (parents : bool) : M St unit :=
  fun s =>
    let (r, f) := path_mkdir p parents (fs s) in
    (r, set_fs f (emit (EvMkdir p) s)).

Definition do_write (p : path) (data : pystr) : M St unit :=
  fun s =>
    let (r, f) := write_file p data (fs s) in
    (r, set_fs f (emit (EvWrite p data) s)).

(** [response.raise_for_status()] *)
Definition raise_for_status (r : Response) : M St unit :=
  if ((400 <=? status_code r) && (status_code r <? 600))%N
  then raise HTTPError else ret tt.

(** The body of the [try] of [get_page]: one attempt. *)
Definition attempt_get (url : pystr) : M St Response :=
  response <- do_get url ;;
  raise_for_status response ;;;
  ret response.

(** The loop of [get_page], over what is left of [range(max_retries)].
    A successful attempt returns from the loop; a failed one sleeps and goes
    on with the next attempt, or re-raises when it was the last one; falling
    off the loop returns [None]. *)
Fixpoint get_page_loop (url : pystr) (max_retries : nat)
    (attempts : list nat) : M St (option Response) :=
  match attempts with
  | [] => ret None
  | attempt :: rest =>
      try_except
        (response <- attempt_get url ;; ret (Some response))
        (fun e =>
           if (Z.of_nat attempt <? Z.of_nat max_retries - 1)%Z
           then sleep (inject_Z (2 ^ Z.of_nat attempt)) ;;;
                get_page_loop url max_retries rest
           else raise e)
  end.

Definition get_page (url : pystr) (max_retries : nat)
  : M St (option Response) :=
  get_page_loop url max_retries (seq 0 max_retries).

(** The default of [max_retries]. *)
Definition default_max_retries : nat := 3.

(** [response.content] *)
Definition content_of (r : option Response) : M St pystr :=
  match r with
  | Some response => ret (content response)
  | None => raise AttributeError
  end.

Definition get_districts : M St (list Opt) :=
  try_except
    (s <- get ;;
     response <- get_page (asd_url s) default_max_retries ;;
     page <- content_of response ;;
     match find_district_select page with
     | Some options =>
         ret (flat_map
                (fun o =>
                   let value := strip (fst o) in
                   let text := strip (snd o) in
                   if negb (PyStr.eqb value [])
                      && negb (PyStr.eqb value (lit "0"))
                      && negb (PyStr.eqb (lower text) (lit "select"))
                   then [ {| value := value; name := text |} ]
                   else [])
                options)
     | None => ret []
     end)
    (fun _ => ret []).

(** The body of the inner [try] of [get_constituencies] and [get_parts]:
    one candidate endpoint; [Some data] stands for [return data]. *)
Definition attempt_post (endpoint : pystr) (data : form)
  : M St (option (list Json.value)) :=
  response <- do_post endpoint data ;;
  if (status_code response =? 200)%N
  then
    match json response with
    | Ok (Json.Arr (d :: ds)) => ret (Some (d :: ds))
    | Ok _ => ret None
    | Raise e => raise e
    end
  else ret None.

(** The loop over the candidate endpoints: the first endpoint that answers
    200 with a non-empty JSON list gives the result; an endpoint that raises
    is passed over ([except: continue]). *)
Fixpoint try_endpoints (endpoints : list pystr) (data : form)
  : M St (list Json.value) :=
  match endpoints with
  | [] => ret []
  | endpoint :: rest =>
      r <- try_except (attempt_post endpoint data) (fun _ => ret None) ;;
      match r with
      | Some found => ret found
      | None => try_endpoints rest data
      end
  end.

Definition constituency_endpoints (base : pystr) : list pystr :=
  [ base ++ lit "/api/getAC";
    base ++ lit "/api/getConstituencies";
    base ++ lit "/getAC.php";
    base ++ lit "/getConstituency.php" ].

Definition get_constituencies (district_code : pystr)
  : M St (list Json.value) :=
  try_except
    (s <- get ;;
     try_endpoints (constituency_endpoints (base_url s))
       [(lit "district", Json.Str district_code)])
    (fun _ => ret []).

Definition part_endpoints (base : pystr) : list pystr :=
  [ base ++ lit "/api/getParts";
    base ++ lit "/api/getPartNo";
    base ++ lit "/getPart.php" ].

Definition get_parts (district_code : pystr) (ac_code : Json.value)
  : M St (list Json.value) :=
  try_except
    (s <- get ;;
     try_endpoints (part_endpoints (base_url s))
       [(lit "district", Json.Str district_code); (lit "ac", ac_code)])
    (fun _ => ret []).

Definition download_file (url : pystr) (output_path : path) : M St bool :=
  try_except
    (response <- get_page url default_max_retries ;;
     do_mkdir (parent output_path) true ;;;
     data <- content_of response ;;
     do_write output_path data ;;;
     ret true)
    (fun _ => ret false).

(** The nine characters of [invalid_chars]; code point 34 is the double
    quote, which stands between the colon and the slash. *)
Definition invalid_chars : pystr := lit "<>:" ++ [34%N] ++ lit "/\|?*".

Definition sanitize_filename (filename : pystr) : pystr :=
  strip (fold_left (fun f char => replace char 95%N f) invalid_chars filename).

Definition count_download (ok : bool) (t : Stats) : Stats :=
  if ok
  then {| districts := districts t; constituencies := constituencies t;
          parts := parts t; downloaded := downloaded t + 1;
          failed := failed t |}
  else {| districts := districts t; constituencies := constituencies t;
          parts := parts t; downloaded := downloaded t;
          failed := failed t + 1 |}.

(** [s.startswith(prefix)] *)
Fixpoint startswith (s prefix : pystr) : bool :=
  match prefix, s with
  | [], _ => true
  | p :: prefix', c :: s' => (c =? p)%N && startswith s' prefix'
  | _ :: _, [] => false
  end.

(** [sub in s] *)
Fixpoint contains (s sub : pystr) : bool :=
  startswith s sub
  || match s with
     | [] => false
     | _ :: s' => contains s' sub
     end.

(** A library call that changes nothing of [self]. *)
Definition lift {A} (r : res A) : M St A := fun s => (r, s).

(** [item.get(key, default)] on an item of a list the site gave: only a
    dict has the method. *)
Definition py_get (item : Json.value) (key : pystr) (default : Json.value)
  : M St Json.value :=
  match item with
  | Json.Obj members =>
      ret (match lookup key members with Some v => v | None => default end)
  | _ => raise AttributeError
  end.

(** [str(v)], as an f-string takes it. *)
Definition py_str (v : Json.value) : pystr :=
  match v with
  | Json.Str s => s
  | Json.Null => lit "None"
  | Json.Bool true => lit "True"
  | Json.Bool false => lit "False"
  | _ => repr v
  end.

(** [self.sanitize_filename(v)] on a value the site gave: only a string has
    [replace]. *)
Definition sanitize_value (v : Json.value) : M St pystr :=
  match v with
  | Json.Str s => ret (sanitize_filename s)
  | _ => raise AttributeError
  end.

(** The body of the loop of [scrape_direct_links]. *)
Definition scrape_link (link : pystr * pystr) : M St unit :=
  s <- get ;;
  let href := fst link in
  let text := strip (snd link) in
  url <- (if startswith href (lit "http") then ret href
          else lift (urljoin (asd_url s) href)) ;;
  let filename :=
    sanitize_filename (match text with [] => basename href | _ => text end) in
  let filename :=
    if endswith filename (lit ".pdf") then filename
    else filename ++ lit ".pdf" in
  let output_file := joinpath (output_dir s) filename in
  ok <- download_file url output_file ;;
  modify (set_stats (count_download ok)) ;;;
  sleep (1 # 2).

Definition scrape_direct_links : M St unit :=
  try_except
    (s <- get ;;
     response <- get_page (asd_url s) default_max_retries ;;
     page <- content_of response ;;
     do_write (joinpath (output_dir s) (lit "page_source.html"))
       (prettify page) ;;;
     let links :=
       filter
         (fun l =>
            negb (PyStr.eqb (fst l) [])
            && (contains (lower (fst l)) (lit ".pdf")
                || contains (lower (fst l)) (lit "download")))
         (find_all_a page) in
     for_each links scrape_link)
    (fun _ => ret tt).

(** The body of the loop over the parts of a constituency. *)
Definition download_part (district_code : pystr) (ac_code : Json.value)
    (ac_dir : path) (part : Json.value) : M St unit :=
  s <- get ;;
  fallback <- py_get part (lit "value") (Json.Str []) ;;
  part_no <- py_get part (lit "part") fallback ;;
  let download_url :=
    base_url s ++ lit "/asd_download.php?district=" ++ district_code
    ++ lit "&ac=" ++ py_str ac_code ++ lit "&part=" ++ py_str part_no in
  let output_file :=
    joinpath ac_dir (lit "ASDD_Part_" ++ py_str part_no ++ lit ".pdf") in
  ok <- download_file download_url output_file ;;
  modify (set_stats (count_download ok)) ;;;
  sleep (1 # 2).

Definition add_parts (n : nat) (t : Stats) : Stats :=
  {| districts := districts t; constituencies := constituencies t;
     parts := parts t + n; downloaded := downloaded t; failed := failed t |}.

Definition add_constituencies (n : nat) (t : Stats) : Stats :=
  {| districts := districts t; constituencies := constituencies t + n;
     parts := parts t; downloaded := downloaded t; failed := failed t |}.

Definition set_districts (n : nat) (t : Stats) : Stats :=
  {| districts := n; constituencies := constituencies t;
     parts := parts t; downloaded := downloaded t; failed := failed t |}.

(** The body of the loop over the constituencies of a district. *)
Definition download_ac (district_code : pystr) (district_dir : path)
    (ac : Json.value) : M St unit :=
  text <- py_get ac (lit "text") (Json.Str (lit "Unknown")) ;;
  ac_name <- py_get ac (lit "name") text ;;
  code <- py_get ac (lit "code") (Json.Str []) ;;
  ac_code <- py_get ac (lit "value") code ;;
  name <- sanitize_value ac_name ;;
  let ac_dir := joinpath district_dir name in
  do_mkdir ac_dir false ;;;
  parts <- get_parts district_code ac_code ;;
  modify (set_stats (add_parts (List.length parts))) ;;;
  for_each parts (download_part district_code ac_code ac_dir).

(** The body of the loop over the districts. *)
Definition download_district (district : Opt) : M St unit :=
  s <- get ;;
  let district_name := name district in
  let district_code := value district in
  let district_dir := joinpath (output_dir s) (sanitize_filename district_name) in
  do_mkdir district_dir false ;;;
  constituencies <- get_constituencies district_code ;;
  modify (set_stats (add_constituencies (List.length constituencies))) ;;;
  for_each constituencies (download_ac district_code district_dir).

Definition download_all : M St unit :=
  districts <- get_districts ;;
  match districts with
  | [] => scrape_direct_links
  | _ =>
      modify (set_stats (set_districts (List.length districts))) ;;;
      for_each districts download_district
  end.

End Methods.

End ASDDDownloader.

(* ================================================================== *)
(** * download_asdd_selenium.py: class ASDDSeleniumDownloader *)

Module ASDDSeleniumDownloader.

Definition path := PathLib.path.

(** [p / name] *)
Definition joinpath (p : path) (name : pystr) : path := PathLib.truediv p name.

(** [{'value': ..., 'name': ...}] *)
Record Opt : Type := { value : pystr; name : pystr }.

Record Stats : Type := {
  districts : nat;
  constituencies : nat;
  parts : nat;
  downloaded : nat;
  failed : nat
}.

(** [self.progress], in the shape [load_progress] gives it when there is no
    file and every later step keeps: two lists of keys. *)
Record Progress : Type := {
  completed : list pystr;
  failed_keys : list pystr     (* progress['failed'] *)
}.

(** The dict a [Progress] stands for. *)
Definition to_json (p : Progress) : Json.value :=
  Json.Obj
    [ (lit "completed", Json.Arr (List.map Json.Str (completed p)));
      (lit "failed", Json.Arr (List.map Json.Str (failed_keys p))) ].

(** [d[key]] *)
Fixpoint lookup (key : pystr) (d : list (pystr * Json.value))
  : option Json.value :=
  match d with
  | [] => None
  | (k, v) :: d' => if PyStr.eqb k key then Some v else lookup key d'
  end.

Fixpoint strings (vs : list Json.value) : option (list pystr) :=
  match vs with
  | [] => Some []
  | Json.Str s :: vs' =>
      match strings vs' with
      | Some l => Some (s :: l)
      | None => None
      end
  | _ :: _ => None
  end.

(** The [Progress] a loaded document stands for, when it has the two lists
    of strings. *)
Definition of_json (v : Json.value) : option Progress :=
  match v with
  | Json.Obj d =>
      match lookup (lit "completed") d, lookup (lit "failed") d with
      | Some (Json.Arr cs), Some (Json.Arr fs) =>
          match strings cs, strings fs with
          | Some c, Some f => Some {| completed := c; failed_keys := f |}
          | _, _ => None
          end
      | _, _ => None
      end
  | _ => None
  end.

(** How far the browser got with one part in [download_part_data]. *)
Inductive click : Type :=
| NoPartDropdown       (* none of the three ids was found *)
| NoDownloadControl    (* none of the three strategies found a control *)
| Clicked.

(** What a run does, as far as the controller is concerned: the calls of
    [download_part_data], the line logged for a part that is skipped, the
    writes of the progress file, the sleeps, the directories made and the
    pages opened. *)
Inductive event : Type :=
| EvFetch (district_name ac_name part_value part_name : pystr)
| EvSkip (district_name ac_name part_name : pystr)
| EvSave (text : pystr)
| EvSleep (seconds : Q)
| EvMkdir (p : path)
| EvOpen (url : pystr).

(** What became of a write of the progress file, [open(..., 'w')] and
    then [json.dump] in the [with] block. *)
Inductive written : Type :=
| Written              (* the text is in the file *)
| NotOpened            (* [open] raised: the file is as it was *)
| CutShort (n : nat).  (* the file was emptied, and a write raised when [n]
                          characters were in it *)

(** The browser with the site behind it, and the directories of the file
    system.  The three readers give the [(value, text)] pairs of the options
    of a dropdown: [value] is [None] when the attribute is missing. *)
Class Browser : Type := {
  Env : Type;
  (** [webdriver.Chrome(...)], with what comes before it *)
  start_driver : Env -> res unit * Env;
  (** [self.driver.implicitly_wait(10)] *)
  implicitly_wait : Env -> res unit * Env;
  quit_driver : Env -> res unit * Env;
  read_districts : pystr -> Env -> res (list (option pystr * pystr)) * Env;
  read_constituencies :
    pystr -> Env -> res (list (option pystr * pystr)) * Env;
  (** [None]: no part dropdown on the page *)
  read_parts :
    pystr -> Env -> res (option (list (option pystr * pystr))) * Env;
  press_download : pystr -> Env -> res click * Env;
  open_page : pystr -> Env -> res unit * Env;
  make_dir : path -> Env -> res unit * Env;
  (** the write of a text to the progress file *)
  store_text : pystr -> Env -> written * Env;
  lower : pystr -> pystr
}.

(** [load_progress], on the text of the progress file when it exists. *)
Definition load_progress (file : option pystr) : res Json.value :=
  match file with
  | Some text =>
      match Json.loads text with
      | Some v => Ok v
      | None => Raise JSONDecodeError
      end
  | None => Ok (to_json {| completed := []; failed_keys := [] |})
  end.

Definition invalid_chars : pystr := lit "<>:" ++ [34%N] ++ lit "/\|?*".

Definition sanitize_filename (filename : pystr) : pystr :=
  strip (fold_left (fun f char => replace char 95%N f) invalid_chars filename).

(** [s.startswith(prefix)] *)
Fixpoint startswith (s prefix : pystr) : bool :=
  match prefix, s with
  | [], _ => true
  | p :: prefix', c :: s' => (c =? p)%N && startswith s' prefix'
  | _ :: _, [] => false
  end.

(** [sub in s] *)
Fixpoint contains (s sub : pystr) : bool :=
  startswith s sub
  || match s with
     | [] => false
     | _ :: s' => contains s' sub
     end.

Section Methods.

Context {B : Browser}.

(** The attributes of [self], the progress file and the surroundings. *)
Record St : Type := {
  output_dir : path;
  url : pystr;
  stats : Stats;
  progress : Progress;
  (** the text of [download_progress.json], when the file exists *)
  progress_file : option pystr;
  (** [self.driver] is set *)
  driver : bool;
  env : Env;
  trace : list event
}.

Definition set_stats (f : Stats -> Stats) (s : St) : St :=
  {| output_dir := output_dir s; url := url s; stats := f (stats s);
     progress := progress s; progress_file := progress_file s;
     driver := driver s; env := env s; trace := trace s |}.

Definition set_progress (f : Progress -> Progress) (s : St) : St :=
  {| output_dir := output_dir s; url := url s; stats := stats s;
     progress := f (progress s); progress_file := progress_file s;
     driver := driver s; env := env s; trace := trace s |}.

Definition set_progress_file (text : pystr) (s : St) : St :=
  {| output_dir := output_dir s; url := url s; stats := stats s;
     progress := progress s; progress_file := Some text;
     driver := driver s; env := env s; trace := trace s |}.

Definition set_env (e : Env) (s : St) : St :=
  {| output_dir := output_dir s; url := url s; stats := stats s;
     progress := progress s; progress_file := progress_file s;
     driver := driver s; env := e; trace := trace s |}.

Definition set_driver (d : bool) (s : St) : St :=
  {| output_dir := output_dir s; url := url s; stats := stats s;
     progress := progress s; progress_file := progress_file s;
     driver := d; env := env s; trace := trace s |}.

Definition emit (e : event) (s : St) : St :=
  {| output_dir := output_dir s; url := url s; stats := stats s;
     progress := progress s; progress_file := progress_file s;
     driver := driver s; env := env s; trace := trace s ++ [e] |}.

(** A call of the browser or of the file system. *)
Definition call {A} (f : Env -> res A * Env) : M St A :=
  fun s => let (r, e) := f (env s) in (r, set_env e s).

Definition sleep (seconds : Q) : M St unit := modify (emit (EvSleep seconds)).

Definition do_mkdir (p : path) : M St unit :=
  modify (emit (EvMkdir p)) ;;; call (make_dir p).

(** [save_progress]: the file is opened for writing, which empties it, and
    the progress is dumped to it; an [OSError] of [open] or of a write is
    not caught. *)
Definition save_progress : M St unit :=
  s <- get ;;
  let text := Json.dumps (to_json (progress s)) in
  modify (emit (EvSave text)) ;;;
  fun s1 =>
    let (outcome, e) := store_text text (env s1) in
    match outcome with
    | Written => (Ok tt, set_progress_file text (set_env e s1))
    | NotOpened => (Raise OSError, set_env e s1)
    | CutShort n =>
        (Raise OSError, set_progress_file (firstn n text) (set_env e s1))
    end.

(** The options a dropdown loop keeps: a value that is there and not empty,
    and a text that is not one of the prompts. *)
Definition keep_options (prompts : list pystr)
    (options : list (option pystr * pystr)) : list Opt :=
  flat_map
    (fun o =>
       let text := strip (snd o) in
       match fst o with
       | Some v =>
           if negb (PyStr.eqb v []) && negb (PyStr.mem (lower text) prompts)
           then [ {| value := v; name := text |} ]
           else []
       | None => []
       end)
    options.

Definition set_districts (n : nat) (t : Stats) : Stats :=
  {| districts := n; constituencies := constituencies t;
     parts := parts t; downloaded := downloaded t; failed := failed t |}.

Definition add_constituencies (n : nat) (t : Stats) : Stats :=
  {| districts := districts t; constituencies := constituencies t + n;
     parts := parts t; downloaded := downloaded t; failed := failed t |}.

Definition add_parts (n : nat) (t : Stats) : Stats :=
  {| districts := districts t; constituencies := constituencies t;
     parts := parts t + n; downloaded := downloaded t; failed := failed t |}.

Definition add_downloaded (t : Stats) : Stats :=
  {| districts := districts t; constituencies := constituencies t;
     parts := parts t; downloaded := downloaded t + 1; failed := failed t |}.

Definition add_failed (t : Stats) : Stats :=
  {| districts := districts t; constituencies := constituencies t;
     parts := parts t; downloaded := downloaded t; failed := failed t + 1 |}.

Definition get_districts : M St (list Opt) :=
  try_except
    (s <- get ;;
     options <- call (read_districts (url s)) ;;
     let districts :=
       keep_options
         [lit "select"; lit "select district"; lit "-- select district --"]
         options in
     modify (set_stats (set_districts (List.length districts))) ;;;
     ret districts)
    (fun _ => ret []).

Definition get_constituencies (district_value : pystr) : M St (list Opt) :=
  try_except
    (options <- call (read_constituencies district_value) ;;
     ret (keep_options
            [lit "select"; lit "select assembly"; lit "-- select ac --"]
            options))
    (fun _ => ret []).

Definition get_parts (ac_value : pystr) : M St (list Opt) :=
  try_except
    (found <- call (read_parts ac_value) ;;
     match found with
     | None => ret []
     | Some options =>
         ret (keep_options
                [lit "select"; lit "select part"; lit "-- select part --"]
                options)
     end)
    (fun _ => ret []).

Definition download_part_data (district_name ac_name part_value part_name
    : pystr) : M St bool :=
  modify (emit (EvFetch district_name ac_name part_value part_name)) ;;;
  try_except
    (outcome <- call (press_download part_value) ;;
     match outcome with
     | NoPartDropdown => modify (set_stats add_failed) ;;; ret false
     | NoDownloadControl => modify (set_stats add_failed) ;;; ret false
     | Clicked => modify (set_stats add_downloaded) ;;; ret true
     end)
    (fun _ => modify (set_stats add_failed) ;;; ret false).

(** [f"{district_name}|{ac_name}|{part_name}"] *)
Definition key_of (district_name ac_name part_name : pystr) : pystr :=
  district_name ++ lit "|" ++ ac_name ++ lit "|" ++ part_name.

Definition mark_completed (key : pystr) (p : Progress) : Progress :=
  {| completed := completed p ++ [key]; failed_keys := failed_keys p |}.

Definition mark_failed (key : pystr) (p : Progress) : Progress :=
  {| completed := completed p; failed_keys := failed_keys p ++ [key] |}.

(** The body of the loop over the parts of a constituency. *)
Definition download_part (district_name ac_name : pystr) (part : Opt)
  : M St unit :=
  let part_value := value part in
  let part_name := name part in
  let key := key_of district_name ac_name part_name in
  s <- get ;;
  if PyStr.mem key (completed (progress s))
  then modify (emit (EvSkip district_name ac_name part_name))  (* continue *)
  else
    success <-
      download_part_data district_name ac_name part_value part_name ;;
    modify (set_progress
              (if success : bool then mark_completed key
               else mark_failed key)) ;;;
    save_progress ;;;
    sleep 1%Q.

(** The body of the loop over the constituencies of a district. *)
Definition download_ac (district_name : pystr) (district_dir : path)
    (ac : Opt) : M St unit :=
  let ac_name := name ac in
  let ac_value := value ac in
  let ac_dir := joinpath district_dir (sanitize_filename ac_name) in
  do_mkdir ac_dir ;;;
  parts <- get_parts ac_value ;;
  modify (set_stats (add_parts (List.length parts))) ;;;
  for_each parts (download_part district_name ac_name) ;;;
  s <- get ;;
  modify (emit (EvOpen (url s))) ;;;
  call (open_page (url s)) ;;;
  sleep 2%Q.

(** The body of the loop over the districts. *)
Definition download_district (district : Opt) : M St unit :=
  let district_name := name district in
  let district_value := value district in
  s <- get ;;
  let district_dir :=
    joinpath (output_dir s) (sanitize_filename district_name) in
  do_mkdir district_dir ;;;
  constituencies <- get_constituencies district_value ;;
  modify (set_stats (add_constituencies (List.length constituencies))) ;;;
  for_each constituencies (download_ac district_name district_dir).

Definition setup_driver : M St unit :=
  call start_driver ;;;
  modify (set_driver true) ;;;
  call implicitly_wait.

Definition close_driver : M St unit :=
  s <- get ;;
  if driver s then call quit_driver else ret tt.

Definition download_all (test_district : option pystr) : M St unit :=
  try_finally
    (setup_driver ;;;
     districts <- get_districts ;;
     let districts :=
       match test_district with
       | Some (c :: t) =>
           filter
             (fun d => contains (lower (name d)) (lower (c :: t)))
             districts
       | _ => districts
       end in
     for_each districts download_district)
    close_driver.

(** [__init__]: the output directory, the counters at zero and the progress
    the file holds.  Python keeps a document of any shape and fails at its
    first use in [download_all]; the methods here are written for a progress
    of two lists of keys, so a document of another shape is refused at
    once. *)
Definition init (dir : path) (file : option pystr) (e : Env) : res St :=
  match make_dir dir e with
  | (Raise x, _) => Raise x
  | (Ok _, e') =>
      match load_progress file with
      | Raise x => Raise x
      | Ok v =>
          match of_json v with
          | None => Raise KeyError
          | Some p =>
              Ok {| output_dir := dir;
                    url := lit "https://ceowestbengal.wb.gov.in/asd_sir";
                    stats := {| districts := 0; constituencies := 0;
                                parts := 0; downloaded := 0; failed := 0 |};
                    progress := p;
                    progress_file := file;
                    driver := false;
                    env := e';
                    trace := [] |}
          end
      end
  end.

End Methods.

End ASDDSeleniumDownloader.

(* ================================================================== *)
(** * Vocabulary of the specification, and worlds to run the scripts in *)

Module Spec.

Import ASDDDownloader.

(** The nine replacements of [sanitize_filename] as the specification words
    them: every filesystem-unsafe character becomes the placeholder. *)
Definition placeholder (c : N) : N :=
  if existsb (N.eqb c) invalid_chars then 95%N else c.

(** The label of the specification's example: AC: 12/ and the word Test
    between double quotes. *)
Definition label_of_the_spec : pystr :=
  lit "AC: 12/" ++ [34%N] ++ lit "Test" ++ [34%N].

(** The remote calls among the events of a run, and its sleeps. *)
Definition is_call (e : event) : bool :=
  match e with
  | EvGet _ | EvPost _ _ => true
  | _ => false
  end.

Definition remote_calls (evs : list event) : nat :=
  List.length (filter is_call evs).

Definition sleeps (evs : list event) : list Q :=
  flat_map (fun e => match e with EvSleep q => [q] | _ => [] end) evs.

Definition touches_files (e : event) : bool :=
  match e with
  | EvMkdir _ | EvWrite _ _ => true
  | _ => false
  end.

(** The backoff schedule: 1, 2, 4, ... time units, [n] of them. *)
Definition backoff (n : nat) : list Q :=
  List.map (fun i => inject_Z (2 ^ Z.of_nat i)) (seq 0 n).

(** The retry policy of the specification, read on the events of one
    remote operation: at most [max_attempts] calls, and between them the
    backoff schedule. *)
Definition follows_retry_policy (max_attempts : nat) (evs : list event)
  : Prop :=
  remote_calls evs <= max_attempts
  /\ sleeps evs = backoff (remote_calls evs - 1).

(** The events of [get_page] when it makes [k] attempts, the first of them
    being attempt number [i]. *)
Fixpoint retry_trace (url : pystr) (i k : nat) : list event :=
  match k with
  | 0 => []
  | S k' =>
      EvGet url ::
      match k' with
      | 0 => []
      | S _ => EvSleep (inject_Z (2 ^ Z.of_nat i)) :: retry_trace url (S i) k'
      end
  end.

Section Since.

Context {W : World}.

(** The events a method added to the trace. *)
Definition events_since (s s' : St) : list event :=
  skipn (List.length (trace s)) (trace s').

(** [s'] is [s] after the events [evs]: the configuration of [self] is
    the same and the trace has grown by [evs]. *)
Definition extends (s s' : St) (evs : list event) : Prop :=
  base_url s' = base_url s /\ asd_url s' = asd_url s
  /\ output_dir s' = output_dir s /\ trace s' = trace s ++ evs.

(** One attempt of [get_page] fails on the session state [n]: the session
    raises, or answers with a status [raise_for_status] refuses. *)
Definition get_fails (url : pystr) (n : Net) : bool :=
  match fst (session_get url n) with
  | Ok r => ((400 <=? status_code r) && (status_code r <? 600))%N
  | Raise _ => true
  end.

(** What an endpoint gives, read on a post to it: the list, when the
    answer is a 200 whose JSON is a list that is not empty. *)
Definition answer (r : res Response) : option (list Json.value) :=
  match r with
  | Ok response =>
      if (status_code response =? 200)%N
      then
        match json response with
        | Ok (Json.Arr (d :: ds)) => Some (d :: ds)
        | _ => None
        end
      else None
  | Raise _ => None
  end.

(** The candidate endpoints in turn, from the session state [n]: how many
    of them are posted to, the list of the first one that answers (the
    empty list when none does), and the session state that is left. *)
Fixpoint first_answer (endpoints : list pystr) (data : form) (n : Net)
  : nat * list Json.value * Net :=
  match endpoints with
  | [] => (0, [], n)
  | endpoint :: rest =>
      match answer (fst (session_post endpoint data n)) with
      | Some found => (1, found, snd (session_post endpoint data n))
      | None =>
          let '(j, found, n') :=
            first_answer rest data (snd (session_post endpoint data n)) in
          (S j, found, n')
      end
  end.

(** Only the network was used between [s] and [s']. *)
Definition network_only (s s' : St) : Prop :=
  fs s' = fs s /\ stats s' = stats s.

End Since.

End Spec.

(** A world with scripted answers, to run [ASDDDownloader] in. *)
Module DataWorld.

Import ASDDDownloader.

Record site : Type := {
  (** the answers of the next calls of [session.get], in order *)
  get_queue : list (res Response);
  (** the answer of [session.get] once the queue is used up *)
  get_default : pystr -> res Response;
  post_handler : pystr -> form -> res Response
}.

Record disk : Type := {
  stored : list (path * pystr);
  writable : bool
}.

Definition answer_get (url : pystr) (n : site) : res Response * site :=
  match get_queue n with
  | a :: q =>
      (a, {| get_queue := q; get_default := get_default n;
             post_handler := post_handler n |})
  | [] => (get_default n url, n)
  end.

Definition answer_post (url : pystr) (data : form) (n : site)
  : res Response * site :=
  (post_handler n url data, n).

Definition make_dir (p : path) (parents : bool) (f : disk) : res unit * disk :=
  if writable f then (Ok tt, f) else (Raise OSError, f).

Definition store (p : path) (data : pystr) (f : disk) : res unit * disk :=
  if writable f
  then (Ok tt, {| stored := (p, data) :: stored f; writable := true |})
  else (Raise OSError, f).

(** A page whose district select has one option per character. *)
Definition select_of_page (page : pystr) : option (list (pystr * pystr)) :=
  match page with
  | [] => None
  | _ => Some (List.map (fun c => ([c], [c])) page)
  end.

#[export] Instance world : World := {|
  Net := site;
  FS := disk;
  session_get := answer_get;
  session_post := answer_post;
  path_mkdir := make_dir;
  write_file := store;
  find_district_select := select_of_page;
  prettify := fun page => page;
  find_all_a := fun _ => [];
  lower := fun s => s;
  urljoin := fun base href => Ok (base ++ href);
  basename := fun href => href;
  repr := fun v => match v with Json.Num lexeme => lexeme | _ => lit "..." end
|}.

Definition page (body : pystr) : Response :=
  {| status_code := 200; content := body; json := Raise JSONDecodeError |}.

Definition json_list (items : list Json.value) : Response :=
  {| status_code := 200; content := []; json := Ok (Json.Arr items) |}.

(** A site that is down: every call raises. *)
Definition down : site :=
  {| get_queue := [];
     get_default := fun _ => Raise RequestException;
     post_handler := fun _ _ => Raise RequestException |}.

(** A site whose first two answers to [session.get] are failures and which
    serves [body] afterwards. *)
Definition flaky (body : pystr) : site :=
  {| get_queue := [Raise RequestException; Raise RequestException];
     get_default := fun _ => Ok (page body);
     post_handler := fun _ _ => Raise RequestException |}.

Definition start (n : site) : St :=
  {| base_url := lit "https://ceowestbengal.wb.gov.in";
     asd_url := lit "https://ceowestbengal.wb.gov.in/asd_sir";
     output_dir := [lit "asdd_data"];
     stats := {| districts := 0; constituencies := 0; parts := 0;
                 downloaded := 0; failed := 0 |};
     net := n;
     fs := {| stored := []; writable := true |};
     trace := [] |}.

End DataWorld.

(** Vocabulary of the specification for the resumable controller. *)
Module LedgerSpec.

Import ASDDSeleniumDownloader.

(** The leaves a run visited, by ledger key, and the ones it fetched. *)
Definition leaves (evs : list event) : list pystr :=
  flat_map
    (fun e =>
       match e with
       | EvFetch d a _ p => [key_of d a p]
       | EvSkip d a p => [key_of d a p]
       | _ => []
       end)
    evs.

Definition fetches (evs : list event) : list pystr :=
  flat_map
    (fun e =>
       match e with
       | EvFetch d a _ p => [key_of d a p]
       | _ => []
       end)
    evs.

(** Every call of the fetcher is followed at once by a write of the progress
    file. *)
Fixpoint flushed (evs : list event) : bool :=
  match evs with
  | [] => true
  | EvFetch _ _ _ _ :: rest =>
      match rest with
      | EvSave _ :: rest' => flushed rest'
      | _ => false
      end
  | _ :: rest => flushed rest
  end.

(** No key is both completed and failed. *)
Definition partitioned (p : Progress) : Prop :=
  forall k, In k (completed p) -> ~ In k (failed_keys p).

(** A code point that stands for a character: below [0x110000] and not a
    surrogate. *)
Definition scalar (c : N) : bool :=
  ((c <? 0xD800) || (0xDFFF <? c))%N && (c <? 0x110000)%N.

(** A string of characters. *)
Definition text (s : pystr) : Prop := forallb scalar s = true.

Section Since.

Context {B : Browser}.

Definition events_since (s s' : St) : list event :=
  skipn (List.length (trace s)) (trace s').

(** The progress file holds the progress in memory. *)
Definition persisted (s : St) : Prop :=
  progress_file s = Some (Json.dumps (to_json (progress s))).

(** The fetcher succeeds on the part [p] from the state [s]: the browser
    gets as far as the click. *)
Definition fetch_succeeds (p : Opt) (s : St) : bool :=
  match fst (press_download (value p) (env s)) with
  | Ok Clicked => true
  | _ => false
  end.

(** The state of a leaf that is not completed yet, when its outcome is in
    the ledger and the write of the file begins: the call of the fetcher,
    the counter, the ledger, and the text to write. *)
Definition leaf_marked (d a : pystr) (p : Opt) (s : St) : St :=
  let key := key_of d a (name p) in
  let ok := fetch_succeeds p s in
  let s0 := emit (EvFetch d a (value p) (name p)) s in
  let s1 :=
    set_stats (if ok then add_downloaded else add_failed)
      (set_env (snd (press_download (value p) (env s))) s0) in
  let s2 :=
    set_progress (if ok then mark_completed key else mark_failed key) s1 in
  emit (EvSave (Json.dumps (to_json (progress s2)))) s2.

Definition leaf_text (d a : pystr) (p : Opt) (s : St) : pystr :=
  Json.dumps (to_json (progress (leaf_marked d a p s))).

(** What becomes of the write of the file for this leaf. *)
Definition leaf_write (d a : pystr) (p : Opt) (s : St) : written :=
  fst (store_text (leaf_text d a p s) (env (leaf_marked d a p s))).

(** The state the leaf leaves behind when the write completes: the file
    holds the text, and the sleep follows. *)
Definition leaf_outcome (d a : pystr) (p : Opt) (s : St) : St :=
  let s2 := leaf_marked d a p s in
  let text := leaf_text d a p s in
  emit (EvSleep 1%Q)
    (set_progress_file text (set_env (snd (store_text text (env s2))) s2)).

(** The state the leaf leaves behind when the write fails: the file is as
    it was, or cut short. *)
Definition leaf_unsaved (d a : pystr) (p : Opt) (s : St) : St :=
  let s2 := leaf_marked d a p s in
  let text := leaf_text d a p s in
  let s3 := set_env (snd (store_text text (env s2))) s2 in
  match leaf_write d a p s with
  | CutShort n => set_progress_file (firstn n text) s3
  | _ => s3
  end.

(** The state the leaf leaves behind, and what [download_part] returns. *)
Definition leaf_end (d a : pystr) (p : Opt) (s : St) : St :=
  match leaf_write d a p s with
  | Written => leaf_outcome d a p s
  | _ => leaf_unsaved d a p s
  end.

Definition leaf_result (d a : pystr) (p : Opt) (s : St) : res unit :=
  match leaf_write d a p s with
  | Written => Ok tt
  | _ => Raise OSError
  end.

(** The events of a leaf: the call of the fetcher, the write of the file
    and, when the write completed, the sleep. *)
Definition leaf_events (d a : pystr) (p : Opt) (s : St) : list event :=
  [EvFetch d a (value p) (name p); EvSave (leaf_text d a p s)]
  ++ match leaf_write d a p s with
     | Written => [EvSleep 1%Q]
     | _ => []
     end.

(** An event that is neither a leaf nor a write of the progress file. *)
Definition neutral (e : event) : bool :=
  match e with
  | EvFetch _ _ _ _ | EvSkip _ _ _ | EvSave _ => false
  | _ => true
  end.

(** From [s] to [s'] nothing happened to the ledger, to the progress file
    or to the counters of downloads and failures, and no leaf was met. *)
Definition quiet (s s' : St) : Prop :=
  exists evs,
    trace s' = trace s ++ evs
    /\ forallb neutral evs = true
    /\ progress s' = progress s
    /\ progress_file s' = progress_file s
    /\ downloaded (stats s') = downloaded (stats s)
    /\ failed (stats s') = failed (stats s).

(** Flush after each leaf: every call of the fetcher is followed at once by
    a write of the progress file, and the file holds the ledger as soon as
    the ledger or the file has changed. *)
Definition flush_rel (s s' : St) : Prop :=
  exists evs,
    trace s' = trace s ++ evs
    /\ flushed evs = true
    /\ ((progress s' = progress s /\ progress_file s' = progress_file s)
        \/ persisted s').

(** Resuming: when every leaf met was completed already, the fetcher was
    not called and neither the ledger nor the counters changed. *)
Definition resume_rel (s s' : St) : Prop :=
  exists evs,
    trace s' = trace s ++ evs
    /\ ((forall k, In k (leaves evs) -> In k (completed (progress s))) ->
        fetches evs = []
        /\ progress s' = progress s
        /\ downloaded (stats s') = downloaded (stats s)
        /\ failed (stats s') = failed (stats s)).

(** A run without a failure completes every leaf it meets. *)
Definition success_rel (s s' : St) : Prop :=
  exists evs,
    trace s' = trace s ++ evs
    /\ failed (stats s) <= failed (stats s')
    /\ incl (completed (progress s)) (completed (progress s'))
    /\ (failed (stats s') = failed (stats s) ->
        forall k, In k (leaves evs) -> In k (completed (progress s'))).

(** The ledger is append-only, a key is completed once, and a key that is
    completed is not marked failed afterwards. *)
Definition ledger_rel (s s' : St) : Prop :=
  (exists l, completed (progress s') = completed (progress s) ++ l)
  /\ (exists l,
        failed_keys (progress s') = failed_keys (progress s) ++ l
        /\ forall k, In k l -> ~ In k (completed (progress s)))
  /\ (NoDup (completed (progress s)) -> NoDup (completed (progress s'))).

End Since.

End LedgerSpec.

(** A site to run [ASDDSeleniumDownloader] on: a tree of districts,
    constituencies and parts, each with its name for value, and the parts
    whose download control is missing. *)
Module SeleniumWorld.

Import ASDDSeleniumDownloader.

Record site : Type := {
  tree : list (pystr * list (pystr * list pystr));
  broken : list pystr;          (* ledger keys *)
  district : pystr;             (* the selections of the two dropdowns *)
  ac : pystr
}.

Definition select_district (d : pystr) (e : site) : site :=
  {| tree := tree e; broken := broken e; district := d; ac := ac e |}.

Definition select_ac (a : pystr) (e : site) : site :=
  {| tree := tree e; broken := broken e; district := district e; ac := a |}.

(** The options of a dropdown: the prompt, then one option a name. *)
Definition options (names : list pystr) : list (option pystr * pystr) :=
  (Some [], lit "-- Select --") :: List.map (fun n => (Some n, n)) names.

Fixpoint children {A} (key : pystr) (l : list (pystr * list A)) : list A :=
  match l with
  | [] => []
  | (k, c) :: l' => if PyStr.eqb k key then c else children key l'
  end.

#[export] Instance browser : Browser := {|
  Env := site;
  start_driver := fun e => (Ok tt, e);
  implicitly_wait := fun e => (Ok tt, e);
  quit_driver := fun e => (Ok tt, e);
  read_districts := fun _ e => (Ok (options (List.map fst (tree e))), e);
  read_constituencies := fun d e =>
    (Ok (options (List.map fst (children d (tree e)))), select_district d e);
  read_parts := fun a e =>
    (Ok (Some (options (children a (children (district e) (tree e))))),
     select_ac a e);
  press_download := fun p e =>
    (Ok (if PyStr.mem (key_of (district e) (ac e) p) (broken e)
         then NoDownloadControl else Clicked), e);
  open_page := fun _ e => (Ok tt, e);
  make_dir := fun _ e => (Ok tt, e);
  store_text := fun _ e => (Written, e);
  lower := fun s => s
|}.

(** Two districts of two constituencies of two parts. *)
Definition two_by_two : list (pystr * list (pystr * list pystr)) :=
  let acs := [ (lit "C1", [lit "P1"; lit "P2"]);
               (lit "C2", [lit "P1"; lit "P2"]) ] in
  [ (lit "D1", acs); (lit "D2", acs) ].

Definition site_with (broken : list pystr) : site :=
  {| tree := two_by_two; broken := broken; district := []; ac := [] |}.

(** The downloader as [__init__] leaves it, on a progress file [file]. *)
Definition fresh (file : option pystr) (e : site) : res St :=
  init [lit "asdd_data"] file e.

Definition state_with (p : Progress) (e : site) : St :=
  {| output_dir := [lit "asdd_data"];
     url := lit "https://ceowestbengal.wb.gov.in/asd_sir";
     stats := {| districts := 0; constituencies := 0; parts := 0;
                 downloaded := 0; failed := 0 |};
     progress := p;
     progress_file := None;
     driver := true;
     env := e;
     trace := [] |}.

Definition no_progress : Progress := {| completed := []; failed_keys := [] |}.

(** A run of a new downloader on the progress file [file], on the site
    where the leaves [broken] fail. *)
Definition run (file : option pystr) (broken : list pystr) : res unit * St :=
  match fresh file (site_with broken) with
  | Ok s => download_all None s
  | Raise e => (Raise e, state_with no_progress (site_with broken))
  end.

(** The scenario of the specification: the leaf (D1, C2, P1) fails and the
    seven others succeed; then a second run on the progress file the first
    run left, on a site where every leaf succeeds. *)
Definition first_run : res unit * St := run None [lit "D1|C2|P1"].

Definition second_run : res unit * St :=
  run (progress_file (snd first_run)) [].

(** The first part of the first constituency of the first district, with
    the two dropdowns on it. *)
Definition part_P1 : Opt := {| value := lit "P1"; name := lit "P1" |}.

Definition on_D1_C1 (p : Progress) (broken : list pystr) : St :=
  state_with p
    {| tree := two_by_two; broken := broken;
       district := lit "D1"; ac := lit "C1" |}.

End SeleniumWorld.

(** Vocabulary for the invariants of the two downloaders. *)
Module Invariants.

(** The method [c] takes a state to one that [R] relates to it when it
    returns, and to one that [F] relates to it when it raises. *)
Definition keeps {S A : Type} (R F : S -> S -> Prop) (c : M S A) : Prop :=
  forall s,
    match fst (c s) with
    | Ok _ => R s (snd (c s))
    | Raise _ => F s (snd (c s))
    end.

(** The method [c] ends normally from every state: it raises nothing. *)
Definition returns {S A : Type} (c : M S A) : Prop :=
  forall s, is_ok (fst (c s)) = true.

(** A printable ASCII character, or the newline. *)
Definition plain (c : N) : Prop :=
  (c = 10 \/ (32 <= c /\ c <= 126))%N.

(** The items at the head of [l] that pass [f]: those a loop gets through
    when the first item that does not pass ends it. *)
Fixpoint leading {A : Type} (f : A -> bool) (l : list A) : list A :=
  match l with
  | [] => []
  | x :: l' => if f x then x :: leading f l' else []
  end.

Section Selenium.

Import ASDDSeleniumDownloader LedgerSpec.

Context {B : Browser}.

(** The last event is a write of the progress file, with no sleep after
    it: the write that failed. *)
Definition ends_with_save (evs : list event) : Prop :=
  exists pre text, evs = pre ++ [EvSave text].

(** Flush after each leaf, for a step that raised: every call of the
    fetcher is followed at once by a write of the progress file, and the
    file holds the ledger as soon as the ledger or the file has changed,
    unless the last thing that happened is a write of the file. *)
Definition flush_cut_rel (s s' : St) : Prop :=
  exists evs,
    trace s' = trace s ++ evs
    /\ flushed evs = true
    /\ ((progress s' = progress s /\ progress_file s' = progress_file s)
        \/ persisted s'
        \/ ends_with_save evs).

(** Nothing happened that the controller or the ledger can see. *)
Definition silent (s s' : St) : Prop :=
  trace s' = trace s
  /\ progress s' = progress s
  /\ progress_file s' = progress_file s
  /\ stats s' = stats s.

(** Every write of the progress file completes. *)
Definition writes_complete : Prop :=
  forall text e, fst (store_text text e) = Written.

(** The counters of downloads and failures go with the ledger: between [s]
    and [s'] the keys [dc] were put at the end of the completed list and the
    keys [df] at the end of the failed list, the two counters grew by the
    numbers of these keys, and the keys are those of the leaves that were
    fetched, each as many times as it was fetched. *)
Definition accounts_rel (s s' : St) : Prop :=
  exists evs dc df,
    trace s' = trace s ++ evs
    /\ completed (progress s') = completed (progress s) ++ dc
    /\ failed_keys (progress s') = failed_keys (progress s) ++ df
    /\ downloaded (stats s') = downloaded (stats s) + List.length dc
    /\ failed (stats s') = failed (stats s) + List.length df
    /\ Permutation (fetches evs) (dc ++ df).

(** The progress file goes with the ledger: it holds the ledger, or there
    is no file and the ledger is empty. *)
Definition on_file (s : St) : Prop :=
  persisted s
  \/ (progress_file s = None
      /\ progress s = {| completed := []; failed_keys := [] |}).

(** The counter of parts goes with the leaves: between [s] and [s'] it
    grew by the number of leaves that were met, skipped or fetched. *)
Definition visits_rel (s s' : St) : Prop :=
  exists evs,
    trace s' = trace s ++ evs
    /\ parts (stats s') = parts (stats s) + List.length (leaves evs).

(** The counter of parts, for a run that raised: the parts of a
    constituency are counted before the first of them is met, so the counter
    grew by the number of leaves that were met, or by more. *)
Definition visits_cut_rel (s s' : St) : Prop :=
  exists evs,
    trace s' = trace s ++ evs
    /\ parts (stats s) + List.length (leaves evs) <= parts (stats s').


(** An option a dropdown loop keeps: its value is not empty, its name is
    stripped and, in lower case, none of the prompts. *)
Definition kept_option (prompts : list pystr) (o : Opt) : Prop :=
  value o <> []
  /\ strip (name o) = name o
  /\ ~ In (lower (name o)) prompts.

(** The leaves a run passed over because their key was completed. *)
Definition skipped (evs : list event) : nat :=
  List.length
    (filter (fun e => match e with EvSkip _ _ _ => true | _ => false end)
       evs).

(** The counter of parts is as it was. *)
Definition still (s s' : St) : Prop := parts (stats s') = parts (stats s).

End Selenium.

Section Data.

Import ASDDDownloader.

Context {W : World}.

(** [item.get(key, default)] on the members of an object. *)
Definition member (key : pystr) (default : Json.value)
    (members : list (pystr * Json.value)) : Json.value :=
  match lookup key members with
  | Some v => v
  | None => default
  end.

(** What [download_all] reads in an item of the two lists: the number of a
    part, the name and the code of a constituency. *)
Definition part_no_of (members : list (pystr * Json.value)) : Json.value :=
  member (lit "part") (member (lit "value") (Json.Str []) members) members.

Definition ac_name_of (members : list (pystr * Json.value)) : Json.value :=
  member (lit "name")
    (member (lit "text") (Json.Str (lit "Unknown")) members) members.

Definition ac_code_of (members : list (pystr * Json.value)) : Json.value :=
  member (lit "value") (member (lit "code") (Json.Str []) members) members.

(** An item that is a JSON object, and one whose name is a string. *)
Definition is_object (v : Json.value) : bool :=
  match v with
  | Json.Obj _ => true
  | _ => false
  end.

Definition named (v : Json.value) : bool :=
  match v with
  | Json.Obj members =>
      match ac_name_of members with
      | Json.Str _ => true
      | _ => false
      end
  | _ => false
  end.

(** The lists of the site are what the loops take them for: every item of
    a list that a post is answered with is an object, and what stands for
    its name is a string. *)
Definition well_formed : Prop :=
  forall url data n r items,
    fst (session_post url data n) = Ok r ->
    json r = Ok (Json.Arr items) ->
    forallb named items = true.

(** Every part that was counted was counted once more as a download or as
    a failure: the counter of parts and the two counters of outcomes grew
    by the same number between [s] and [s']. *)
Definition tally_rel (s s' : St) : Prop :=
  parts (stats s') + (downloaded (stats s) + failed (stats s))
  = parts (stats s) + (downloaded (stats s') + failed (stats s')).

(** The same, for a run that raised: the parts of a constituency are
    counted before the first of them is fetched, so the counter of parts
    grew by as much as the two counters of outcomes, or by more. *)
Definition tally_cut_rel (s s' : St) : Prop :=
  parts (stats s) + (downloaded (stats s') + failed (stats s'))
  <= parts (stats s') + (downloaded (stats s) + failed (stats s)).

(** A link whose URL can be made: its href is absolute, or [urljoin]
    takes it. *)
Definition joinable (base : pystr) (link : pystr * pystr) : bool :=
  startswith (fst link) (lit "http") || is_ok (urljoin base (fst link)).


(** A district [get_districts] keeps: its value is stripped and neither
    empty nor [0], its name is stripped and not the prompt. *)
Definition kept_district (o : Opt) : Prop :=
  value o <> [] /\ value o <> lit "0"
  /\ strip (value o) = value o /\ strip (name o) = name o
  /\ lower (name o) <> lit "select".

End Data.

End Invariants.

(** More surroundings to run the two downloaders in. *)
Module Scenarios.

Section Data.

Import ASDDDownloader DataWorld.

(** A site that serves everything: the page has the districts A and B,
    each district has one constituency, each constituency two parts, and
    every file is there. *)
Definition serving : site :=
  {| get_queue := [];
     get_default := fun _ => Ok (page (lit "AB"));
     post_handler := fun url _ =>
       if endswith url (lit "/api/getAC")
       then Ok (json_list
                  [Json.Obj [(lit "name", Json.Str (lit "C1"));
                             (lit "value", Json.Str (lit "1"))]])
       else if endswith url (lit "/api/getParts")
       then Ok (json_list
                  [Json.Obj [(lit "part", Json.Str (lit "1"))];
                   Json.Obj [(lit "part", Json.Num (lit "2"))]])
       else Raise RequestException |}.

(** A site that answers with the lists [acs] and [parts], whatever their
    items are. *)
Definition answering (acs parts : list Json.value) : site :=
  {| get_queue := [];
     get_default := fun _ => Ok (page (lit "AB"));
     post_handler := fun url _ =>
       if endswith url (lit "/api/getAC") then Ok (json_list acs)
       else if endswith url (lit "/api/getParts") then Ok (json_list parts)
       else Raise RequestException |}.

(** The constituencies come as a list of names, not of objects. *)
Definition bare_names : site :=
  answering [Json.Str (lit "C1")] [Json.Obj [(lit "part", Json.Str (lit "1"))]].

(** The second of the three parts comes as a number, not as an object. *)
Definition bare_part : site :=
  answering
    [Json.Obj [(lit "name", Json.Str (lit "C1"));
               (lit "value", Json.Str (lit "1"))]]
    [Json.Obj [(lit "part", Json.Str (lit "1"))];
     Json.Num (lit "2");
     Json.Obj [(lit "part", Json.Str (lit "3"))]].

(** Only the district A has constituencies. *)
Definition only_A : site :=
  {| get_queue := [];
     get_default := fun _ => Ok (page (lit "ABA"));
     post_handler := fun url data =>
       if endswith url (lit "/api/getAC")
       then
         match lookup (lit "district") data with
         | Some (Json.Str [65%N]) =>
             Ok (json_list
                   [Json.Obj [(lit "name", Json.Str (lit "C1"));
                              (lit "value", Json.Str (lit "1"))]])
         | _ => Ok (json_list [])
         end
       else if endswith url (lit "/api/getParts")
       then Ok (json_list
                  [Json.Obj [(lit "part", Json.Str (lit "1"))];
                   Json.Obj [(lit "part", Json.Str (lit "2"))]])
       else Raise RequestException |}.


(** The downloader on a disk that cannot be written. *)
Definition read_only (n : site) : St :=
  {| base_url := lit "https://ceowestbengal.wb.gov.in";
     asd_url := lit "https://ceowestbengal.wb.gov.in/asd_sir";
     output_dir := [lit "asdd_data"];
     stats := {| districts := 0; constituencies := 0; parts := 0;
                 downloaded := 0; failed := 0 |};
     net := n;
     fs := {| stored := []; writable := false |};
     trace := [] |}.

(** The scripted world, with directories that can always be made. *)
Definition solid : World :=
  {| Net := site;
     FS := disk;
     session_get := answer_get;
     session_post := answer_post;
     path_mkdir := fun _ _ f => (Ok tt, f);
     write_file := store;
     find_district_select := select_of_page;
     prettify := fun page => page;
     find_all_a := fun _ => [];
     lower := fun s => s;
     urljoin := fun base href => Ok (base ++ href);
     basename := fun href => href;
     repr := fun v =>
       match v with Json.Num lexeme => lexeme | _ => lit "..." end |}.

Definition on_solid (n : site) : @St solid :=
  @Build_St solid
    (lit "https://ceowestbengal.wb.gov.in")
    (lit "https://ceowestbengal.wb.gov.in/asd_sir")
    [lit "asdd_data"]
    {| districts := 0; constituencies := 0; parts := 0;
       downloaded := 0; failed := 0 |}
    n
    {| stored := []; writable := false |}
    [].

(** A world whose site serves everything whatever happened before, with
    directories that can always be made. *)
Definition steady : World :=
  {| Net := site;
     FS := disk;
     session_get := fun url n => (get_default serving url, n);
     session_post := fun url data n => (post_handler serving url data, n);
     path_mkdir := fun _ _ f => (Ok tt, f);
     write_file := store;
     find_district_select := select_of_page;
     prettify := fun page => page;
     find_all_a := fun _ => [];
     lower := fun s => s;
     urljoin := fun base href => Ok (base ++ href);
     basename := fun href => href;
     repr := fun v =>
       match v with Json.Num lexeme => lexeme | _ => lit "..." end |}.

Definition on_steady : @St steady :=
  @Build_St steady
    (lit "https://ceowestbengal.wb.gov.in")
    (lit "https://ceowestbengal.wb.gov.in/asd_sir")
    [lit "asdd_data"]
    {| districts := 0; constituencies := 0; parts := 0;
       downloaded := 0; failed := 0 |}
    serving
    {| stored := []; writable := true |}
    [].

(** The scripted world, with a page of four anchors and a [urljoin] that
    refuses an href that opens a bracket after two slashes. *)
Definition strict : World :=
  {| Net := site;
     FS := disk;
     session_get := answer_get;
     session_post := answer_post;
     path_mkdir := make_dir;
     write_file := store;
     find_district_select := fun _ => None;
     prettify := fun page => page;
     find_all_a := fun _ =>
       [ (lit "lists/a.pdf", lit " List A ");
         (lit "http://example.org/b.pdf", lit "List B");
         (lit "//[c.pdf", lit "List C");
         (lit "/Download?part=1", []) ];
     lower := fun s => s;
     urljoin := fun base href =>
       if startswith href (lit "//[") then Raise ValueError
       else Ok (base ++ href);
     basename := fun href => href;
     repr := fun v =>
       match v with Json.Num lexeme => lexeme | _ => lit "..." end |}.

Definition on_strict (n : site) : @St strict :=
  @Build_St strict
    (lit "https://ceowestbengal.wb.gov.in")
    (lit "https://ceowestbengal.wb.gov.in/asd_sir")
    [lit "asdd_data"]
    {| districts := 0; constituencies := 0; parts := 0;
       downloaded := 0; failed := 0 |}
    n
    {| stored := []; writable := true |}
    [].

(** The scripted world, with a page of three anchors. *)
Definition linked : World :=
  {| Net := site;
     FS := disk;
     session_get := answer_get;
     session_post := answer_post;
     path_mkdir := make_dir;
     write_file := store;
     find_district_select := fun _ => None;
     prettify := fun page => page;
     find_all_a := fun _ =>
       [ (lit "lists/a.pdf", lit " List A ");
         (lit "/Download?part=1", []);
         (lit "about.html", lit "About") ];
     lower := fun s =>
       List.map
         (fun c => if ((65 <=? c) && (c <=? 90))%N then (c + 32)%N else c) s;
     urljoin := fun base href => Ok (base ++ href);
     basename := fun href => href;
     repr := fun v =>
       match v with Json.Num lexeme => lexeme | _ => lit "..." end |}.

Definition on_linked (n : site) : @St linked :=
  @Build_St linked
    (lit "https://ceowestbengal.wb.gov.in")
    (lit "https://ceowestbengal.wb.gov.in/asd_sir")
    [lit "asdd_data"]
    {| districts := 0; constituencies := 0; parts := 0;
       downloaded := 0; failed := 0 |}
    n
    {| stored := []; writable := true |}
    [].

End Data.

Section Selenium.

Import ASDDSeleniumDownloader SeleniumWorld.

(** The site of two districts behind a browser that cannot be started. *)
Definition no_chrome : Browser :=
  {| Env := site;
     start_driver := fun e => (Raise WebDriverException, e);
     implicitly_wait := fun e => (Ok tt, e);
     quit_driver := fun e => (Ok tt, e);
     read_districts := fun _ e => (Ok (options (List.map fst (tree e))), e);
     read_constituencies := fun d e =>
       (Ok (options (List.map fst (children d (tree e)))),
        select_district d e);
     read_parts := fun a e =>
       (Ok (Some (options (children a (children (district e) (tree e))))),
        select_ac a e);
     press_download := fun _ e => (Ok Clicked, e);
     open_page := fun _ e => (Ok tt, e);
     make_dir := fun _ e => (Ok tt, e);
     store_text := fun _ e => (Written, e);
     lower := fun s => s |}.

(** The downloader as [__init__] leaves it, without a progress file. *)
Definition without_chrome : @St no_chrome :=
  @Build_St no_chrome
    [lit "asdd_data"]
    (lit "https://ceowestbengal.wb.gov.in/asd_sir")
    {| districts := 0; constituencies := 0; parts := 0;
       downloaded := 0; failed := 0 |}
    no_progress
    None
    false
    (site_with [])
    [].

(** Three districts, the second of them without constituencies, and a
    leaf of the third whose download control is missing. *)
Definition gap_site : site :=
  {| tree := [ (lit "D1", [(lit "C1", [lit "P1"; lit "P2"])]);
               (lit "D2", []);
               (lit "D3", [(lit "C1", [lit "P1"])]) ];
     broken := [lit "D3|C1|P1"];
     district := [];
     ac := [] |}.


(** The site of two districts, on a disk with room for [room] characters
    of the progress file: a longer text is cut short there. *)
Definition small_disk (room : nat) : Browser :=
  {| Env := site;
     start_driver := fun e => (Ok tt, e);
     implicitly_wait := fun e => (Ok tt, e);
     quit_driver := fun e => (Ok tt, e);
     read_districts := fun _ e => (Ok (options (List.map fst (tree e))), e);
     read_constituencies := fun d e =>
       (Ok (options (List.map fst (children d (tree e)))),
        select_district d e);
     read_parts := fun a e =>
       (Ok (Some (options (children a (children (district e) (tree e))))),
        select_ac a e);
     press_download := fun _ e => (Ok Clicked, e);
     open_page := fun _ e => (Ok tt, e);
     make_dir := fun _ e => (Ok tt, e);
     store_text := fun text e =>
       if List.length text <=? room then (Written, e)
       else (CutShort room, e);
     lower := fun s => s |}.

(** The downloader on such a disk, as [__init__] leaves it without a
    progress file, but for the driver. *)
Definition on_small_disk (room : nat) : @St (small_disk room) :=
  @Build_St (small_disk room)
    [lit "asdd_data"]
    (lit "https://ceowestbengal.wb.gov.in/asd_sir")
    {| districts := 0; constituencies := 0; parts := 0;
       downloaded := 0; failed := 0 |}
    no_progress
    None
    false
    (site_with [])
    [].

(** A disk that takes five characters and no more, and the downloader on
    it at the first constituency of the first district. *)
Definition full_disk : Browser := small_disk 5.

Definition on_full_disk : @St full_disk :=
  @Build_St full_disk
    [lit "asdd_data"]
    (lit "https://ceowestbengal.wb.gov.in/asd_sir")
    {| districts := 0; constituencies := 0; parts := 0;
       downloaded := 0; failed := 0 |}
    no_progress
    None
    true
    {| tree := two_by_two; broken := [];
       district := lit "D1"; ac := lit "C1" |}
    [].

End Selenium.

End Scenarios.
(* ================================================================== *)
(** * Facts about strings *)

Section PyStrFacts.

Lemma eqb_eq s t : eqb s t = true <-> s = t.
Proof.
  unfold eqb. destruct (list_eq_dec N.eq_dec s t); split; congruence.
Qed.

Lemma eqb_refl s : eqb s s = true.
Proof. now apply eqb_eq. Qed.

Lemma mem_In s l : mem s l = true <-> In s l.
Proof.
  unfold mem. rewrite existsb_exists. split.
  - intros [x [Hx He]]. apply eqb_eq in He. now subst.
  - intros H. exists s. split; [assumption | apply eqb_refl].
Qed.

Lemma mem_false_In s l : mem s l = false <-> ~ In s l.
Proof.
  rewrite <- mem_In. destruct (mem s l); split; congruence.
Qed.

Lemma lstrip_head s c : hd_error (lstrip s) = Some c -> isspace c = false.
Proof.
  induction s as [|a s IH]; simpl; [discriminate|].
  destruct (isspace a) eqn:E; [exact IH|].
  simpl. intros [= <-]. exact E.
Qed.

Lemma lstrip_suffix s : exists p, s = p ++ lstrip s.
Proof.
  induction s as [|a s [p IH]]; simpl.
  - now exists [].
  - destruct (isspace a).
    + exists (a :: p). simpl. now f_equal.
    + now exists [].
Qed.

Lemma lstrip_In s c : In c (lstrip s) -> In c s.
Proof.
  destruct (lstrip_suffix s) as [p Hp]. intros H.
  rewrite Hp. apply in_or_app. now right.
Qed.

Lemma strip_In s c : In c (strip s) -> In c s.
Proof.
  unfold strip, rstrip. intros H.
  apply in_rev in H. apply lstrip_In in H. apply in_rev in H.
  now apply lstrip_In.
Qed.

Lemma strip_first s c : hd_error (strip s) = Some c -> isspace c = false.
Proof.
  unfold strip, rstrip. intros H.
  destruct (lstrip (rev (lstrip s))) as [|b r] eqn:E.
  - discriminate.
  - (* the stripped text is not empty: its first character is the first
       character of [lstrip s] *)
    destruct (lstrip_suffix (rev (lstrip s))) as [p Hp].
    rewrite E in Hp.
    assert (Hs : lstrip s = rev (b :: r) ++ rev p).
    { rewrite <- rev_app_distr, <- Hp. now rewrite rev_involutive. }
    apply (@lstrip_head s c). rewrite Hs.
    destruct (rev (b :: r)) as [|x y] eqn:Er.
    + apply (f_equal (@List.length N)) in Er. rewrite List.length_rev in Er.
      discriminate.
    + simpl in *. exact H.
Qed.

Lemma strip_last s c :
  hd_error (rev (strip s)) = Some c -> isspace c = false.
Proof.
  unfold strip, rstrip. rewrite rev_involutive. apply lstrip_head.
Qed.

End PyStrFacts.

(** Joining a name to a path: one component for a plain name, none for a
    dot or an empty name, several for a name with slashes, and the name
    alone when it is absolute. *)
Example truediv_by_cases :
  PathLib.truediv [lit "asdd_data"] (lit "Malda") = [lit "asdd_data"; lit "Malda"]
  /\ PathLib.truediv [lit "asdd_data"] (lit ".") = [lit "asdd_data"]
  /\ PathLib.truediv [lit "asdd_data"] [] = [lit "asdd_data"]
  /\ PathLib.truediv [lit "asdd_data"] (lit "..") = [lit "asdd_data"; lit ".."]
  /\ PathLib.truediv [lit "asdd_data"] (lit "ASDD_Part_1/2.pdf")
     = [lit "asdd_data"; lit "ASDD_Part_1"; lit "2.pdf"]
  /\ PathLib.truediv [lit "asdd_data"] (lit "/tmp//x")
     = [lit "/"; lit "tmp"; lit "x"]
  /\ PathLib.parent [lit "asdd_data"; lit "Malda"; lit "ASDD_Part_1.pdf"]
     = [lit "asdd_data"; lit "Malda"].
Proof. repeat split. Qed.

(* ================================================================== *)
(** * Facts about effects: a relation kept by every step of a method *)

Section EffFacts.

Context {S : Type} (R : S -> S -> Prop).

Hypothesis R_refl : forall s, R s s.
Hypothesis R_trans : forall s1 s2 s3, R s1 s2 -> R s2 s3 -> R s1 s3.

Lemma preserves_ret {A} (a : A) : preserves R (ret a).
Proof. intros s. apply R_refl. Qed.

Lemma preserves_raise {A} e : preserves R (raise (A := A) e).
Proof. intros s. apply R_refl. Qed.

Lemma preserves_get : preserves R (Eff.get (S := S)).
Proof. intros s. apply R_refl. Qed.

Lemma preserves_modify f : (forall s, R s (f s)) -> preserves R (modify f).
Proof. intros H s. apply H. Qed.

Lemma preserves_bind {A B} (c : M S A) (k : A -> M S B) :
  preserves R c -> (forall a, preserves R (k a)) -> preserves R (bind c k).
Proof.
  intros Hc Hk s. unfold bind. specialize (Hc s).
  destruct (c s) as [[a|e] s1]; cbn [snd] in *; [|exact Hc].
  eapply R_trans; [exact Hc | apply Hk].
Qed.

Lemma preserves_try_except {A} (c : M S A) (h : exn -> M S A) :
  preserves R c -> (forall e, preserves R (h e)) ->
  preserves R (try_except c h).
Proof.
  intros Hc Hh s. unfold try_except. specialize (Hc s).
  destruct (c s) as [[a|e] s1]; cbn [snd] in *; [exact Hc|].
  eapply R_trans; [exact Hc | apply Hh].
Qed.

Lemma preserves_try_finally {A} (c : M S A) (f : M S unit) :
  preserves R c -> preserves R f -> preserves R (try_finally c f).
Proof.
  intros Hc Hf s. unfold try_finally. specialize (Hc s).
  destruct (c s) as [r s1]. cbn [snd] in *. specialize (Hf s1).
  destruct (f s1) as [[[]|e] s2]; cbn [snd] in *;
    eapply R_trans; eassumption.
Qed.

Lemma preserves_for_each {A} (xs : list A) (body : A -> M S unit) :
  (forall x, preserves R (body x)) -> preserves R (for_each xs body).
Proof.
  intros Hb. induction xs as [|x xs IH]; cbn [for_each].
  - apply preserves_ret.
  - apply preserves_bind; [apply Hb | intros _; exact IH].
Qed.

Lemma preserves_if {A} (b : bool) (c1 c2 : M S A) :
  preserves R c1 -> preserves R c2 -> preserves R (if b then c1 else c2).
Proof. now destruct b. Qed.

End EffFacts.

(** ** Methods that raise nothing *)

Section ReturnsFacts.

Import Invariants.

Context {S : Type}.

Lemma returns_ret {A} (a : A) : returns (ret (S := S) a).
Proof. intros s. reflexivity. Qed.

Lemma returns_get : returns (Eff.get (S := S)).
Proof. intros s. reflexivity. Qed.

Lemma returns_modify (f : S -> S) : returns (modify f).
Proof. intros s. reflexivity. Qed.

Lemma returns_bind {A B} (c : M S A) (k : A -> M S B) :
  returns c -> (forall a, returns (k a)) -> returns (bind c k).
Proof.
  intros Hc Hk s. unfold bind. specialize (Hc s).
  destruct (c s) as [[a|e] s1]; [apply Hk | discriminate Hc].
Qed.

(** A [try] whose handler raises nothing raises nothing. *)
Lemma returns_try_except {A} (c : M S A) (h : exn -> M S A) :
  (forall e, returns (h e)) -> returns (try_except c h).
Proof.
  intros Hh s. unfold try_except.
  destruct (c s) as [[a|e] s1]; [reflexivity | apply Hh].
Qed.

Lemma returns_try_finally {A} (c : M S A) (f : M S unit) :
  returns c -> returns f -> returns (try_finally c f).
Proof.
  intros Hc Hf s. unfold try_finally. specialize (Hc s).
  destruct (c s) as [r s1]. specialize (Hf s1).
  destruct (f s1) as [[[]|e] s2]; [exact Hc | discriminate Hf].
Qed.

Lemma returns_for_each {A} (xs : list A) (body : A -> M S unit) :
  (forall x, returns (body x)) -> returns (for_each xs body).
Proof.
  intros Hb. induction xs as [|x xs IH]; cbn [for_each].
  - apply returns_ret.
  - apply returns_bind; [apply Hb | intros _; exact IH].
Qed.

Lemma returns_unit (c : M S unit) s : returns c -> fst (c s) = Ok tt.
Proof.
  intros H. specialize (H s). destruct (c s) as [[[]|e] s1];
    [reflexivity | discriminate H].
Qed.

(** A bind whose continuation raises nothing on the values [c] gives. *)
Lemma returns_bind_with {A B} (P : A -> Prop) (c : M S A) (k : A -> M S B) :
  returns c -> (forall s a, fst (c s) = Ok a -> P a) ->
  (forall a, P a -> returns (k a)) -> returns (bind c k).
Proof.
  intros Hc HP Hk s. unfold bind. specialize (Hc s). specialize (HP s).
  destruct (c s) as [[a|e] s1]; [|discriminate Hc].
  apply Hk, HP. reflexivity.
Qed.

Lemma returns_for_each_Forall {A} (xs : list A) (body : A -> M S unit) :
  Forall (fun x => returns (body x)) xs -> returns (for_each xs body).
Proof.
  induction 1 as [|x xs Hx _ IH]; cbn [for_each].
  - apply returns_ret.
  - apply returns_bind; [exact Hx | intros _; exact IH].
Qed.

End ReturnsFacts.

(** ** A relation for the steps that return and one for those that raise *)

Section KeepsFacts.

Import Invariants.

Context {S : Type} (R F : S -> S -> Prop).

Hypothesis R_refl : forall s, R s s.
Hypothesis R_trans : forall s1 s2 s3, R s1 s2 -> R s2 s3 -> R s1 s3.
Hypothesis R_then_F : forall s1 s2 s3, R s1 s2 -> F s2 s3 -> F s1 s3.

Lemma keeps_intro {A} (c : M S A) :
  (forall s r s',
     c s = (r, s') ->
     match r with
     | Ok _ => R s s'
     | Raise _ => F s s'
     end) ->
  keeps R F c.
Proof.
  intros H s. specialize (H s (fst (c s)) (snd (c s))).
  apply H. now destruct (c s).
Qed.

Lemma keeps_ret {A} (a : A) : keeps R F (ret a).
Proof. intros s. apply R_refl. Qed.

Lemma keeps_get : keeps R F (Eff.get (S := S)).
Proof. intros s. apply R_refl. Qed.

Lemma keeps_modify f : (forall s, R s (f s)) -> keeps R F (modify f).
Proof. intros H s. apply H. Qed.

(** A step that keeps [Q] whatever it returns. *)
Lemma keeps_of_preserves {A} (Q : S -> S -> Prop) (c : M S A) :
  (forall s s', Q s s' -> R s s') -> (forall s s', Q s s' -> F s s') ->
  preserves Q c -> keeps R F c.
Proof.
  intros QR QF H s. specialize (H s).
  destruct (fst (c s)); [now apply QR | now apply QF].
Qed.

Lemma keeps_bind {A B} (c : M S A) (k : A -> M S B) :
  keeps R F c -> (forall a, keeps R F (k a)) -> keeps R F (bind c k).
Proof.
  intros Hc Hk s. unfold bind. specialize (Hc s).
  destruct (c s) as [[a|e] s1]; cbn [fst snd] in *; [|exact Hc].
  specialize (Hk a s1).
  destruct (k a s1) as [[b|e] s2]; cbn [fst snd] in *.
  - eapply R_trans; eassumption.
  - eapply R_then_F; eassumption.
Qed.

Lemma keeps_for_each {A} (xs : list A) (body : A -> M S unit) :
  (forall x, keeps R F (body x)) -> keeps R F (for_each xs body).
Proof.
  intros Hb. induction xs as [|x xs IH]; cbn [for_each].
  - apply keeps_ret.
  - apply keeps_bind; [apply Hb | intros _; exact IH].
Qed.

(** [try: c finally: f], for an [f] that keeps [Q] whatever it returns. *)
Lemma keeps_try_finally {A} (Q : S -> S -> Prop) (c : M S A) (f : M S unit) :
  (forall s1 s2 s3, R s1 s2 -> Q s2 s3 -> R s1 s3) ->
  (forall s1 s2 s3, F s1 s2 -> Q s2 s3 -> F s1 s3) ->
  (forall s s', R s s' -> F s s') ->
  keeps R F c -> preserves Q f -> keeps R F (try_finally c f).
Proof.
  intros RQ FQ RF Hc Hf s. unfold try_finally. specialize (Hc s).
  destruct (c s) as [r s1]. cbn [fst snd] in *. specialize (Hf s1).
  destruct (f s1) as [[[]|e] s2]; cbn [fst snd] in *.
  - destruct r as [a|e]; [eapply RQ | eapply FQ]; eassumption.
  - destruct r as [a|e0]; [apply RF; eapply RQ | eapply FQ]; eassumption.
Qed.

End KeepsFacts.


(* ================================================================== *)
(** * Facts about ASDDDownloader *)

Section SanitizeFacts.

Import ASDDDownloader Spec.

Local Open Scope N_scope.

Lemma replace_chain (filename : pystr) :
  fold_left (fun f char => replace char 95 f) invalid_chars filename
  = List.map placeholder filename.
Proof.
  unfold invalid_chars, lit. cbn [list_ascii_of_string List.map N_of_ascii
    app fold_left]. unfold replace. rewrite !map_map.
  apply map_ext. intros c. unfold placeholder, invalid_chars, lit.
  cbn -[N.eqb].
  repeat match goal with
         | |- context [c =? ?k] => destruct (N.eqb_spec c k); [subst; reflexivity|]
         end.
  reflexivity.
Qed.

Lemma placeholder_valid (c : N) : ~ In (placeholder c) invalid_chars.
Proof.
  unfold placeholder. destruct (existsb (N.eqb c) invalid_chars) eqn:E.
  - vm_compute. intuition discriminate.
  - intros H. assert (existsb (N.eqb c) invalid_chars = true); [|congruence].
    apply existsb_exists. exists c. split; [exact H | apply N.eqb_refl].
Qed.

(** C9. Filename sanitization, in both downloaders: [sanitize_filename]
    puts the placeholder [_] for every occurrence of each of the nine
    characters of [invalid_chars] and then strips white space at both ends;
    so the result has none of the nine characters, and neither its first nor
    its last character is white space. *)
Theorem sanitize_filename_safe (filename : pystr) :
  let clean := ASDDDownloader.sanitize_filename filename in
  ASDDSeleniumDownloader.sanitize_filename filename = clean
  /\ clean = strip (List.map placeholder filename)
  /\ (forall c, In c invalid_chars -> ~ In c clean)
  /\ (forall c, hd_error clean = Some c -> isspace c = false)
  /\ (forall c, hd_error (rev clean) = Some c -> isspace c = false).
Proof.
  cbv zeta. unfold ASDDDownloader.sanitize_filename. rewrite replace_chain.
  split; [|split; [|split; [|split]]].
  - unfold ASDDSeleniumDownloader.sanitize_filename.
    change ASDDSeleniumDownloader.invalid_chars with invalid_chars.
    now rewrite replace_chain.
  - reflexivity.
  - intros c Hc Hin. apply strip_In in Hin. apply in_map_iff in Hin.
    destruct Hin as [x [Hx _]]. subst c. exact (placeholder_valid x Hc).
  - intros c. apply strip_first.
  - intros c. apply strip_last.
Qed.

Lemma sanitize_filename_safe_witness :
  ASDDDownloader.sanitize_filename label_of_the_spec = lit "AC_ 12__Test_"
  /\ (In 58 invalid_chars -> ~ In 58 (sanitize_filename label_of_the_spec)).
Proof.
  split; [reflexivity|].
  exact (proj1 (proj2 (proj2 (sanitize_filename_safe label_of_the_spec))) 58).
Defined.

End SanitizeFacts.

Section DataFacts.

Import ASDDDownloader Spec.

Context {W : World}.

Ltac eff := unfold bind, ret, raise, try_except, modify, Eff.get in *.

Lemma extends_refl s : extends s s [].
Proof. unfold extends. now rewrite app_nil_r. Qed.

Lemma extends_trans s1 s2 s3 e1 e2 :
  extends s1 s2 e1 -> extends s2 s3 e2 -> extends s1 s3 (e1 ++ e2).
Proof.
  unfold extends. intros (A1 & A2 & A3 & A4) (B1 & B2 & B3 & B4).
  repeat split; try congruence. rewrite B4, A4. now rewrite app_assoc.
Qed.

Lemma network_only_refl s : network_only s s.
Proof. now split. Qed.

Lemma network_only_trans s1 s2 s3 :
  network_only s1 s2 -> network_only s2 s3 -> network_only s1 s3.
Proof. unfold network_only. intros [A B] [C D]. split; congruence. Qed.

Lemma events_since_extends s s' evs :
  extends s s' evs -> events_since s s' = evs.
Proof.
  intros (_ & _ & _ & H). unfold events_since. rewrite H.
  rewrite skipn_app, skipn_all, Nat.sub_diag. reflexivity.
Qed.

Lemma sleep_extends q s :
  sleep q s = (Ok tt, emit (EvSleep q) s)
  /\ extends s (emit (EvSleep q) s) [EvSleep q]
  /\ network_only s (emit (EvSleep q) s).
Proof. repeat split. Qed.

(** One attempt is one [session.get]. *)
Lemma attempt_get_extends url s :
  extends s (snd (attempt_get url s)) [EvGet url]
  /\ network_only s (snd (attempt_get url s)).
Proof.
  unfold attempt_get, do_get, raise_for_status. eff.
  destruct (session_get url (net s)) as [[r|e] n]; cbn.
  - destruct ((400 <=? status_code r) && (status_code r <? 600))%N;
      cbn; repeat split.
  - repeat split.
Qed.

Lemma retry_trace_calls url k : forall i,
  remote_calls (retry_trace url i k) = k.
Proof.
  induction k as [|k IH]; intros i; [reflexivity|].
  destruct k as [|k]; [reflexivity|].
  specialize (IH (S i)). unfold remote_calls in *.
  cbn [retry_trace filter is_call List.length] in *. now rewrite IH.
Qed.

Lemma retry_trace_sleeps url k : forall i,
  sleeps (retry_trace url i k)
  = List.map (fun a => inject_Z (2 ^ Z.of_nat a)) (seq i (k - 1)).
Proof.
  induction k as [|k IH]; intros i; [reflexivity|].
  destruct k as [|k]; [reflexivity|].
  specialize (IH (S i)). unfold sleeps in *.
  cbn [retry_trace flat_map app] in *. rewrite IH.
  replace (S (S k) - 1) with (S (S k - 1)) by lia. reflexivity.
Qed.

Lemma retry_trace_no_files url k : forall i,
  forallb (fun e => negb (touches_files e)) (retry_trace url i k) = true.
Proof.
  induction k as [|k IH]; intros i; [reflexivity|].
  destruct k as [|k]; [reflexivity|].
  specialize (IH (S i)). cbn [retry_trace forallb touches_files negb andb] in *.
  exact IH.
Qed.

(** One turn of the loop of [get_page]. *)
Lemma get_page_loop_cons url n attempt rest s :
  get_page_loop url n (attempt :: rest) s
  = match attempt_get url s with
    | (Ok r, s1) => (Ok (Some r), s1)
    | (Raise e, s1) =>
        if (Z.of_nat attempt <? Z.of_nat n - 1)%Z
        then get_page_loop url n rest
               (emit (EvSleep (inject_Z (2 ^ Z.of_nat attempt))) s1)
        else (Raise e, s1)
    end.
Proof.
  cbn [get_page_loop]. unfold try_except, bind at 1.
  destruct (attempt_get url s) as [[r|e] s1]; [reflexivity|].
  destruct (Z.of_nat attempt <? Z.of_nat n - 1)%Z; reflexivity.
Qed.

(** The loop of [get_page] on the attempts [i, i+1, ..., i+k-1], the last
    of which is attempt [max_retries - 1]. *)
Lemma get_page_loop_spec url n : forall k i s,
  i + k = n ->
  exists j,
    j <= k /\ (0 < k -> 0 < j)
    /\ extends s (snd (get_page_loop url n (seq i k) s)) (retry_trace url i j)
    /\ network_only s (snd (get_page_loop url n (seq i k) s))
    /\ match fst (get_page_loop url n (seq i k) s) with
       | Raise _ => j = k /\ 0 < k
       | Ok (Some _) => 0 < j
       | Ok None => k = 0
       end.
Proof.
  induction k as [|k IH]; intros i s Hn.
  - exists 0. cbn.
    refine (conj _ (conj _ (conj _ (conj _ _)))); try lia; try reflexivity.
    + apply extends_refl.
    + apply network_only_refl.
  - cbn [seq]. rewrite get_page_loop_cons.
    destruct (attempt_get_extends url s) as [He Hf].
    destruct (attempt_get url s) as [[r|e] s1] eqn:Ea; cbn [snd] in He, Hf.
    + exists 1. cbn.
      refine (conj _ (conj _ (conj _ (conj _ _)))); try lia; assumption.
    + destruct (Z.ltb_spec (Z.of_nat i) (Z.of_nat n - 1)) as [Hlt|Hge].
      * (* not the last attempt: sleep and go on *)
        destruct k as [|k]; [lia|].
        destruct (IH (S i) (emit (EvSleep (inject_Z (2 ^ Z.of_nat i))) s1))
          as (j & Hj & Hpos & Hext & Hnet & Hres); [lia|].
        exists (S j).
        set (rs := get_page_loop url n (seq (S i) (S k)) _) in *.
        assert (0 < j) as Hj0 by (apply Hpos; lia).
        destruct j as [|j]; [lia|].
        refine (conj _ (conj _ (conj _ (conj _ _)))); try lia.
        -- change (retry_trace url i (S (S j)))
             with ([EvGet url] ++ [EvSleep (inject_Z (2 ^ Z.of_nat i))]
                   ++ retry_trace url (S i) (S j)).
           eapply extends_trans; [exact He|].
           eapply extends_trans; [|exact Hext]. repeat split.
        -- apply (network_only_trans Hf). apply Hnet.
        -- destruct (fst rs) as [[r|]|e']; try lia.
      * (* the last attempt: re-raise *)
        assert (k = 0) by lia. subst k.
        exists 1. cbn.
        refine (conj _ (conj _ (conj _ (conj _ _)))); try lia; assumption.
Qed.

Lemma get_page_spec url n s :
  exists j,
    j <= n /\ (0 < n -> 0 < j)
    /\ extends s (snd (get_page url n s)) (retry_trace url 0 j)
    /\ network_only s (snd (get_page url n s))
    /\ match fst (get_page url n s) with
       | Raise _ => j = n /\ 0 < n
       | Ok (Some _) => 0 < j
       | Ok None => n = 0
       end.
Proof. unfold get_page. now apply get_page_loop_spec. Qed.

Lemma get_page_policy url n s :
  follows_retry_policy n (events_since s (snd (get_page url n s))).
Proof.
  destruct (get_page_spec url n s) as (j & Hj & _ & Hext & _).
  rewrite (events_since_extends Hext). split.
  - now rewrite retry_trace_calls.
  - rewrite retry_trace_calls. apply retry_trace_sleeps.
Qed.

Lemma attempt_get_fails url s :
  get_fails url (net s) = true ->
  exists e,
    attempt_get url s
    = (Raise e, set_net (snd (session_get url (net s))) (emit (EvGet url) s)).
Proof.
  unfold get_fails, attempt_get, do_get, raise_for_status. eff.
  destruct (session_get url (net s)) as [[r|e] n']; cbn.
  - intros ->. now exists HTTPError.
  - intros _. now exists e.
Qed.

(** On a site that keeps failing, the loop of [get_page] raises. *)
Lemma get_page_loop_dead url n (dead : Net -> Prop) :
  (forall m, dead m ->
     get_fails url m = true /\ dead (snd (session_get url m))) ->
  forall k i s, i + k = n -> 0 < k -> dead (net s) ->
  is_ok (fst (get_page_loop url n (seq i k) s)) = false.
Proof.
  intros Hdead. induction k as [|k IH]; intros i s Hn Hk Hs; [lia|].
  cbn [seq]. rewrite get_page_loop_cons.
  destruct (Hdead _ Hs) as [Hf Hd].
  destruct (attempt_get_fails url s Hf) as [e ->].
  destruct (Z.ltb_spec (Z.of_nat i) (Z.of_nat n - 1)); [|reflexivity].
  destruct k as [|k]; [lia|].
  apply IH; try lia. exact Hd.
Qed.

Lemma attempt_post_extends endpoint data s :
  extends s (snd (attempt_post endpoint data s)) [EvPost endpoint data]
  /\ network_only s (snd (attempt_post endpoint data s)).
Proof.
  unfold attempt_post, do_post. eff.
  destruct (session_post endpoint data (net s)) as [[r|e] n]; cbn.
  - destruct (status_code r =? 200)%N; [|repeat split].
    destruct (json r) as [[| | | |[|d ds]|]|e]; repeat split.
  - repeat split.
Qed.

(** The loop over the candidate endpoints never raises and never sleeps: it
    posts once to each endpoint, in order, until one gives a result. *)
Lemma try_endpoints_spec data : forall endpoints s,
  exists j found s',
    try_endpoints endpoints data s = (Ok found, s')
    /\ j <= List.length endpoints
    /\ extends s s' (List.map (fun ep => EvPost ep data) (firstn j endpoints))
    /\ network_only s s'
    /\ (found = [] -> j = List.length endpoints).
Proof.
  induction endpoints as [|ep rest IH]; intros s.
  - exists 0, [], s. cbn.
    refine (conj _ (conj _ (conj _ (conj _ _)))); try reflexivity.
    + apply extends_refl.
    + apply network_only_refl.
  - cbn [try_endpoints]. unfold bind at 1, try_except.
    destruct (attempt_post_extends ep data s) as [He Hn].
    destruct (attempt_post ep data s) as [[[found|]|e] s1] eqn:Ea;
      cbn [snd] in He, Hn.
    + (* this endpoint answered *)
      exists 1, found, s1. cbn.
      refine (conj _ (conj _ (conj _ (conj _ _)))); try lia; try assumption.
      * reflexivity.
      * intros ->. exfalso. revert Ea. unfold attempt_post, do_post. eff.
        destruct (session_post ep data (net s)) as [[r|e] n]; [|discriminate].
        destruct (status_code r =? 200)%N; [|discriminate].
        destruct (json r) as [[| | | |[|d ds]|]|e]; discriminate.
    + destruct (IH s1) as (j & found & s' & Hr & Hj & Hext & Hnet & Hall).
      exists (S j), found, s'. cbn [ret]. rewrite Hr.
      refine (conj _ (conj _ (conj _ (conj _ _)))); cbn; try lia.
      * reflexivity.
      * apply (extends_trans He Hext).
      * apply (network_only_trans Hn Hnet).
      * intros H. now rewrite (Hall H).
    + destruct (IH s1) as (j & found & s' & Hr & Hj & Hext & Hnet & Hall).
      exists (S j), found, s'. cbn [ret]. rewrite Hr.
      refine (conj _ (conj _ (conj _ (conj _ _)))); cbn; try lia.
      * reflexivity.
      * apply (extends_trans He Hext).
      * apply (network_only_trans Hn Hnet).
      * intros H. now rewrite (Hall H).
Qed.

(** One candidate endpoint, with the [except: continue] around it. *)
Lemma attempt_post_answer endpoint data s :
  try_except (attempt_post endpoint data) (fun _ => ret None) s
  = (Ok (answer (fst (session_post endpoint data (net s)))),
     set_net (snd (session_post endpoint data (net s)))
       (emit (EvPost endpoint data) s)).
Proof.
  unfold try_except, attempt_post, do_post, answer. eff.
  destruct (session_post endpoint data (net s)) as [[r|e] n]; cbn;
    [|reflexivity].
  destruct (status_code r =? 200)%N; [|reflexivity].
  destruct (json r) as [[| | | |[|d ds]|]|e]; reflexivity.
Qed.

(** The first endpoint that answers gives the result, and no other endpoint
    is posted to after it. *)
Lemma try_endpoints_first endpoint rest data s found :
  answer (fst (session_post endpoint data (net s))) = Some found ->
  try_endpoints (endpoint :: rest) data s
  = (Ok found,
     set_net (snd (session_post endpoint data (net s)))
       (emit (EvPost endpoint data) s)).
Proof.
  intros H. cbn [try_endpoints]. unfold bind.
  now rewrite attempt_post_answer, H.
Qed.

(** On a site where no endpoint answers, every endpoint is posted to and
    the result is the empty list. *)
Lemma try_endpoints_dead data (dead : Net -> Prop) : forall endpoints s,
  (forall m endpoint,
     dead m ->
     answer (fst (session_post endpoint data m)) = None
     /\ dead (snd (session_post endpoint data m))) ->
  dead (net s) ->
  exists s',
    try_endpoints endpoints data s = (Ok [], s')
    /\ extends s s' (List.map (fun ep => EvPost ep data) endpoints).
Proof.
  induction endpoints as [|ep rest IH]; intros s Hdead Hs.
  - exists s. split; [reflexivity | apply extends_refl].
  - cbn [try_endpoints]. unfold bind. rewrite attempt_post_answer.
    destruct (Hdead (net s) ep Hs) as [Ha Hd]. rewrite Ha.
    destruct (IH (set_net (snd (session_post ep data (net s)))
                    (emit (EvPost ep data) s)) Hdead Hd)
      as (s' & Hr & He).
    exists s'. split; [exact Hr|].
    destruct He as (B & A & O & T). repeat split; try assumption.
    rewrite T. cbn. now rewrite <- app_assoc.
Qed.

Lemma answer_not_empty (r : res Response) : answer r <> Some [].
Proof.
  unfold answer. destruct r as [r|e]; [|discriminate].
  destruct (status_code r =? 200)%N; [|discriminate].
  destruct (json r) as [[| | | |[|d ds]|]|e]; discriminate.
Qed.

Lemma first_answer_bounds data : forall endpoints n,
  let '(j, found, _) := first_answer endpoints data n in
  j <= List.length endpoints /\ (found = [] -> j = List.length endpoints).
Proof.
  induction endpoints as [|ep rest IH]; intros n; cbn [first_answer].
  - split; [apply Nat.le_refl | reflexivity].
  - pose proof (answer_not_empty (fst (session_post ep data n))) as Hne.
    destruct (answer (fst (session_post ep data n))) as [found|].
    + cbn [List.length]. split; [lia|]. intros ->. now destruct Hne.
    + specialize (IH (snd (session_post ep data n))).
      destruct (first_answer rest data (snd (session_post ep data n)))
        as [[j found] n'].
      cbn [List.length]. destruct IH as [H1 H2]. split; [lia|].
      intros H. now rewrite (H2 H).
Qed.

(** The loop over the endpoints gives the first answer. *)
Lemma try_endpoints_first_answer data : forall endpoints s,
  let '(j, found, n') := first_answer endpoints data (net s) in
  fst (try_endpoints endpoints data s) = Ok found
  /\ net (snd (try_endpoints endpoints data s)) = n'
  /\ trace (snd (try_endpoints endpoints data s))
     = trace s ++ List.map (fun ep => EvPost ep data) (firstn j endpoints).
Proof.
  induction endpoints as [|ep rest IH]; intros s.
  - cbn. rewrite app_nil_r. repeat split.
  - cbn [first_answer try_endpoints]. unfold bind.
    rewrite attempt_post_answer.
    destruct (answer (fst (session_post ep data (net s)))) as [found|].
    + cbn. repeat split.
    + specialize (IH (set_net (snd (session_post ep data (net s)))
                        (emit (EvPost ep data) s))).
      cbn [net set_net] in IH.
      destruct (first_answer rest data (snd (session_post ep data (net s))))
        as [[j found] n'].
      destruct IH as (H1 & H2 & H3). split; [exact H1|]. split; [exact H2|].
      rewrite H3. cbn. now rewrite <- app_assoc.
Qed.

End DataFacts.

Section DataClaims.

Import ASDDDownloader Spec.

Context {W : World}.

Lemma get_constituencies_spec code s :
  exists j found s',
    get_constituencies code s = (Ok found, s')
    /\ j <= 4
    /\ extends s s'
         (List.map (fun ep => EvPost ep [(lit "district", Json.Str code)])
            (firstn j (constituency_endpoints (base_url s))))
    /\ network_only s s'
    /\ (found = [] -> j = 4).
Proof.
  destruct (try_endpoints_spec [(lit "district", Json.Str code)]
              (constituency_endpoints (base_url s)) s)
    as (j & found & s' & Hr & Hj & Hext & Hnet & Hall).
  exists j, found, s'. unfold get_constituencies, try_except, bind, Eff.get.
  rewrite Hr. auto.
Qed.

Lemma get_parts_spec district_code ac_code s :
  exists j found s',
    get_parts district_code ac_code s = (Ok found, s')
    /\ j <= 3
    /\ extends s s'
         (List.map
            (fun ep =>
               EvPost ep [(lit "district", Json.Str district_code);
                          (lit "ac", ac_code)])
            (firstn j (part_endpoints (base_url s))))
    /\ network_only s s'
    /\ (found = [] -> j = 3).
Proof.
  destruct (try_endpoints_spec
              [(lit "district", Json.Str district_code); (lit "ac", ac_code)]
              (part_endpoints (base_url s)) s)
    as (j & found & s' & Hr & Hj & Hext & Hnet & Hall).
  exists j, found, s'. unfold get_parts, try_except, bind, Eff.get.
  rewrite Hr. auto.
Qed.

(** The two enumerators give the first answer of their endpoints. *)
Lemma get_constituencies_first_answer code s :
  exists j found,
    first_answer (constituency_endpoints (base_url s))
      [(lit "district", Json.Str code)] (net s)
    = (j, found, net (snd (get_constituencies code s)))
    /\ fst (get_constituencies code s) = Ok found
    /\ events_since s (snd (get_constituencies code s))
       = List.map (fun ep => EvPost ep [(lit "district", Json.Str code)])
           (firstn j (constituency_endpoints (base_url s))).
Proof.
  pose proof (try_endpoints_first_answer [(lit "district", Json.Str code)]
                (constituency_endpoints (base_url s)) s) as H.
  destruct (first_answer _ _ (net s)) as [[j found] n'].
  destruct H as (H1 & H2 & H3). exists j, found.
  unfold get_constituencies, try_except, bind, Eff.get.
  destruct (try_endpoints _ _ s) as [[l|e] s1]; cbn [fst snd] in *;
    [|discriminate H1].
  subst n'. split; [reflexivity|]. split; [exact H1|].
  unfold events_since. rewrite H3.
  now rewrite skipn_app, skipn_all, Nat.sub_diag.
Qed.

Lemma get_parts_first_answer district_code ac_code s :
  exists j found,
    first_answer (part_endpoints (base_url s))
      [(lit "district", Json.Str district_code); (lit "ac", ac_code)] (net s)
    = (j, found, net (snd (get_parts district_code ac_code s)))
    /\ fst (get_parts district_code ac_code s) = Ok found
    /\ events_since s (snd (get_parts district_code ac_code s))
       = List.map
           (fun ep =>
              EvPost ep [(lit "district", Json.Str district_code);
                         (lit "ac", ac_code)])
           (firstn j (part_endpoints (base_url s))).
Proof.
  pose proof (try_endpoints_first_answer
                [(lit "district", Json.Str district_code); (lit "ac", ac_code)]
                (part_endpoints (base_url s)) s) as H.
  destruct (first_answer _ _ (net s)) as [[j found] n'].
  destruct H as (H1 & H2 & H3). exists j, found.
  unfold get_parts, try_except, bind, Eff.get.
  destruct (try_endpoints _ _ s) as [[l|e] s1]; cbn [fst snd] in *;
    [|discriminate H1].
  subst n'. split; [reflexivity|]. split; [exact H1|].
  unfold events_since. rewrite H3.
  now rewrite skipn_app, skipn_all, Nat.sub_diag.
Qed.

Lemma sleeps_posts (data : form) (eps : list pystr) :
  sleeps (List.map (fun ep => EvPost ep data) eps) = [].
Proof. induction eps as [|ep eps IH]; [reflexivity | exact IH]. Qed.

Lemma remote_calls_posts (data : form) (eps : list pystr) :
  remote_calls (List.map (fun ep => EvPost ep data) eps) = List.length eps.
Proof.
  unfold remote_calls. induction eps as [|ep eps IH]; [reflexivity|].
  cbn. now rewrite IH.
Qed.

(** The two enumerators on a site where no endpoint answers: every
    candidate endpoint is posted to, once and in order, and the result is
    the empty list. *)
Lemma get_constituencies_dead code s (dead : Net -> Prop) :
  (forall m endpoint,
     dead m ->
     answer (fst (session_post endpoint [(lit "district", Json.Str code)] m))
     = None
     /\ dead (snd (session_post endpoint
                     [(lit "district", Json.Str code)] m))) ->
  dead (net s) ->
  fst (get_constituencies code s) = Ok []
  /\ events_since s (snd (get_constituencies code s))
     = List.map (fun ep => EvPost ep [(lit "district", Json.Str code)])
         (constituency_endpoints (base_url s)).
Proof.
  intros Hdead Hs.
  destruct (@try_endpoints_dead W _ dead (constituency_endpoints (base_url s))
              s Hdead Hs) as (s' & Hr & He).
  unfold get_constituencies, try_except, bind, Eff.get. rewrite Hr.
  split; [reflexivity | now apply events_since_extends].
Qed.

Lemma get_parts_dead district_code ac_code s (dead : Net -> Prop) :
  (forall m endpoint,
     dead m ->
     answer (fst (session_post endpoint
                    [(lit "district", Json.Str district_code);
                     (lit "ac", ac_code)] m)) = None
     /\ dead (snd (session_post endpoint
                     [(lit "district", Json.Str district_code);
                      (lit "ac", ac_code)] m))) ->
  dead (net s) ->
  fst (get_parts district_code ac_code s) = Ok []
  /\ events_since s (snd (get_parts district_code ac_code s))
     = List.map
         (fun ep =>
            EvPost ep [(lit "district", Json.Str district_code);
                       (lit "ac", ac_code)])
         (part_endpoints (base_url s)).
Proof.
  intros Hdead Hs.
  destruct (@try_endpoints_dead W _ dead (part_endpoints (base_url s)) s
              Hdead Hs) as (s' & Hr & He).
  unfold get_parts, try_except, bind, Eff.get. rewrite Hr.
  split; [reflexivity | now apply events_since_extends].
Qed.

(** The two enumerators when the first candidate endpoint answers: its list
    is the result, and no other endpoint is posted to. *)
Lemma get_constituencies_first code s found :
  answer (fst (session_post (base_url s ++ lit "/api/getAC")
                 [(lit "district", Json.Str code)] (net s))) = Some found ->
  fst (get_constituencies code s) = Ok found
  /\ events_since s (snd (get_constituencies code s))
     = [EvPost (base_url s ++ lit "/api/getAC")
          [(lit "district", Json.Str code)]].
Proof.
  intros H. unfold get_constituencies, try_except, bind, Eff.get.
  unfold constituency_endpoints. rewrite (@try_endpoints_first W _ _ _ _ found H).
  split; [reflexivity|]. unfold events_since. cbn [snd trace set_net emit].
  now rewrite skipn_app, skipn_all, Nat.sub_diag.
Qed.

Lemma get_parts_first district_code ac_code s found :
  answer (fst (session_post (base_url s ++ lit "/api/getParts")
                 [(lit "district", Json.Str district_code);
                  (lit "ac", ac_code)] (net s))) = Some found ->
  fst (get_parts district_code ac_code s) = Ok found
  /\ events_since s (snd (get_parts district_code ac_code s))
     = [EvPost (base_url s ++ lit "/api/getParts")
          [(lit "district", Json.Str district_code); (lit "ac", ac_code)]].
Proof.
  intros H. unfold get_parts, try_except, bind, Eff.get.
  unfold part_endpoints. rewrite (@try_endpoints_first W _ _ _ _ found H).
  split; [reflexivity|]. unfold events_since. cbn [snd trace set_net emit].
  now rewrite skipn_app, skipn_all, Nat.sub_diag.
Qed.

(** C3, as amended.  The retry policy is the one of [get_page], the call
    behind the district list, the direct links and every file: at most
    [max_retries] attempts (3 by default), with a sleep of 1, 2, 4, ... time
    units after each failed attempt but the last.  Two failures and then a
    success end in success after exactly 3 attempts; on a site that keeps
    failing the call raises after exactly [max_retries] attempts.  The
    enumerators of constituencies and parts do not retry: they post once to
    each candidate endpoint in turn, at most 4 and 3 calls, never sleep and
    never raise; the first endpoint that answers (a 200 whose JSON is a
    list that is not empty) gives the result and ends the calls, and when
    no endpoint answers every endpoint has been posted to and the result is
    the empty list. *)
Theorem get_page_retries_with_backoff (url : pystr) (max_retries : nat)
    (s : St) :
  follows_retry_policy max_retries
    (events_since s (snd (get_page url max_retries s)))
  /\ (forall e1 s1 e2 s2 r s3,
        attempt_get url s = (Raise e1, s1) ->
        attempt_get url (emit (EvSleep 1%Q) s1) = (Raise e2, s2) ->
        attempt_get url (emit (EvSleep 2%Q) s2) = (Ok r, s3) ->
        get_page url default_max_retries s = (Ok (Some r), s3)
        /\ events_since s s3
           = [EvGet url; EvSleep 1%Q; EvGet url; EvSleep 2%Q; EvGet url])
  /\ (forall dead : Net -> Prop,
        (forall m, dead m ->
           get_fails url m = true /\ dead (snd (session_get url m))) ->
        dead (net s) -> 0 < max_retries ->
        is_ok (fst (get_page url max_retries s)) = false
        /\ remote_calls (events_since s (snd (get_page url max_retries s)))
           = max_retries)
  /\ (forall code,
        let data := [(lit "district", Json.Str code)] in
        let endpoints := constituency_endpoints (base_url s) in
        let s' := snd (get_constituencies code s) in
        (exists j found,
           fst (get_constituencies code s) = Ok found
           /\ j <= 4
           /\ events_since s s'
              = List.map (fun ep => EvPost ep data) (firstn j endpoints)
           /\ remote_calls (events_since s s') = j
           /\ sleeps (events_since s s') = []
           /\ (found = [] -> j = 4)
           /\ first_answer endpoints data (net s) = (j, found, net s'))
        /\ (forall found,
              answer (fst (session_post (base_url s ++ lit "/api/getAC")
                             data (net s))) = Some found ->
              fst (get_constituencies code s) = Ok found
              /\ events_since s s'
                 = [EvPost (base_url s ++ lit "/api/getAC") data])
        /\ (forall dead : Net -> Prop,
              (forall m endpoint,
                 dead m ->
                 answer (fst (session_post endpoint data m)) = None
                 /\ dead (snd (session_post endpoint data m))) ->
              dead (net s) ->
              fst (get_constituencies code s) = Ok []
              /\ events_since s s'
                 = List.map (fun ep => EvPost ep data) endpoints
              /\ remote_calls (events_since s s') = 4))
  /\ (forall district_code ac_code,
        let data :=
          [(lit "district", Json.Str district_code); (lit "ac", ac_code)] in
        let endpoints := part_endpoints (base_url s) in
        let s' := snd (get_parts district_code ac_code s) in
        (exists j found,
           fst (get_parts district_code ac_code s) = Ok found
           /\ j <= 3
           /\ events_since s s'
              = List.map (fun ep => EvPost ep data) (firstn j endpoints)
           /\ remote_calls (events_since s s') = j
           /\ sleeps (events_since s s') = []
           /\ (found = [] -> j = 3)
           /\ first_answer endpoints data (net s) = (j, found, net s'))
        /\ (forall found,
              answer (fst (session_post (base_url s ++ lit "/api/getParts")
                             data (net s))) = Some found ->
              fst (get_parts district_code ac_code s) = Ok found
              /\ events_since s s'
                 = [EvPost (base_url s ++ lit "/api/getParts") data])
        /\ (forall dead : Net -> Prop,
              (forall m endpoint,
                 dead m ->
                 answer (fst (session_post endpoint data m)) = None
                 /\ dead (snd (session_post endpoint data m))) ->
              dead (net s) ->
              fst (get_parts district_code ac_code s) = Ok []
              /\ events_since s s'
                 = List.map (fun ep => EvPost ep data) endpoints
              /\ remote_calls (events_since s s') = 3)).
Proof.
  split; [apply get_page_policy|].
  split; [|split; [|split]].
  - intros e1 s1 e2 s2 r s3 H1 H2 H3.
    assert (Hrun : get_page url default_max_retries s = (Ok (Some r), s3)).
    { unfold get_page, default_max_retries. cbn [seq].
      rewrite get_page_loop_cons, H1. cbn [Z.ltb Z.of_nat Z.sub Z.compare
        Z.opp Z.add Z.pos_sub Pos.of_succ_nat Pos.succ Pos.pred_double
        Pos.compare Pos.compare_cont Z.pow Z.pow_pos Pos.iter Z.mul Pos.mul].
      change (inject_Z 1) with 1%Q.
      rewrite get_page_loop_cons, H2. cbn [Z.ltb Z.of_nat Z.sub Z.compare
        Z.opp Z.add Z.pos_sub Pos.of_succ_nat Pos.succ Pos.pred_double
        Pos.compare Pos.compare_cont Z.pow Z.pow_pos Pos.iter Z.mul Pos.mul].
      change (inject_Z 2) with 2%Q.
      rewrite get_page_loop_cons, H3. reflexivity. }
    split; [exact Hrun|].
    apply events_since_extends.
    pose proof (attempt_get_extends url s) as [A1 _].
    pose proof (attempt_get_extends url (emit (EvSleep 1%Q) s1)) as [A2 _].
    pose proof (attempt_get_extends url (emit (EvSleep 2%Q) s2)) as [A3 _].
    rewrite H1 in A1. rewrite H2 in A2. rewrite H3 in A3. cbn [snd] in *.
    change [EvGet url; EvSleep 1%Q; EvGet url; EvSleep 2%Q; EvGet url]
      with ([EvGet url] ++ [EvSleep 1%Q] ++ [EvGet url] ++ [EvSleep 2%Q]
            ++ [EvGet url]).
    eapply extends_trans; [exact A1|].
    eapply extends_trans; [apply sleep_extends|].
    eapply extends_trans; [exact A2|].
    eapply extends_trans; [apply sleep_extends|]. exact A3.
  - intros dead Hdead Hs Hpos.
    assert (Hfail : is_ok (fst (get_page url max_retries s)) = false).
    { unfold get_page. eapply get_page_loop_dead; eauto. }
    split; [exact Hfail|].
    destruct (get_page_spec url max_retries s) as (j & _ & _ & Hext & _ & Hr).
    rewrite (events_since_extends Hext), retry_trace_calls.
    destruct (fst (get_page url max_retries s)) as [[r|]|e];
      try discriminate. apply Hr.
  - intros code. cbv zeta. split; [|split].
    + destruct (get_constituencies_first_answer code s)
        as (j & found & Hf & Hr & He).
      pose proof (first_answer_bounds [(lit "district", Json.Str code)]
                    (constituency_endpoints (base_url s)) (net s)) as Hb.
      rewrite Hf in Hb. cbn [constituency_endpoints List.length] in Hb.
      destruct Hb as [Hj Hall].
      exists j, found. rewrite He, remote_calls_posts, sleeps_posts.
      rewrite length_firstn. cbn [constituency_endpoints List.length].
      repeat split; try assumption; lia.
    + intros found H. now apply get_constituencies_first.
    + intros dead Hdead Hs.
      destruct (get_constituencies_dead code s dead Hdead Hs) as [Hr He].
      rewrite He, remote_calls_posts. now repeat split.
  - intros district_code ac_code. cbv zeta. split; [|split].
    + destruct (get_parts_first_answer district_code ac_code s)
        as (j & found & Hf & Hr & He).
      pose proof (first_answer_bounds
                    [(lit "district", Json.Str district_code);
                     (lit "ac", ac_code)]
                    (part_endpoints (base_url s)) (net s)) as Hb.
      rewrite Hf in Hb. cbn [part_endpoints List.length] in Hb.
      destruct Hb as [Hj Hall].
      exists j, found. rewrite He, remote_calls_posts, sleeps_posts.
      rewrite length_firstn. cbn [part_endpoints List.length].
      repeat split; try assumption; lia.
    + intros found H. now apply get_parts_first.
    + intros dead Hdead Hs.
      destruct (get_parts_dead district_code ac_code s dead Hdead Hs)
        as [Hr He].
      rewrite He, remote_calls_posts. now repeat split.
Qed.

Lemma existsb_touches_retry_trace url k : forall i,
  existsb touches_files (retry_trace url i k) = false.
Proof.
  induction k as [|k IH]; intros i; [reflexivity|].
  destruct k as [|k]; [reflexivity|].
  specialize (IH (S i)). cbn [retry_trace existsb touches_files orb] in *.
  exact IH.
Qed.

(** [download_file], by the outcome of its three steps. *)
Lemma download_file_unfold url output_path s :
  download_file url output_path s
  = match get_page url default_max_retries s with
    | (Raise _, s1) => (Ok false, s1)
    | (Ok response, s1) =>
        match do_mkdir (parent output_path) true s1 with
        | (Raise _, s2) => (Ok false, s2)
        | (Ok _, s2) =>
            match response with
            | None => (Ok false, s2)
            | Some r =>
                match do_write output_path (content r) s2 with
                | (Raise _, s3) => (Ok false, s3)
                | (Ok _, s3) => (Ok true, s3)
                end
            end
        end
    end.
Proof.
  unfold download_file, try_except, bind, content_of, ret, raise.
  destruct (get_page url default_max_retries s) as [[response|e] s1];
    [|reflexivity].
  destruct (do_mkdir (parent output_path) true s1) as [[[]|e] s2];
    [|reflexivity].
  destruct response as [r|]; [|reflexivity].
  destruct (do_write output_path (content r) s2) as [[[]|e] s3]; reflexivity.
Qed.

(** C10. Fetch failure atomicity of [download_file]: it never raises; when
    the fetch of the page fails (get_page raises, its retries used up), it
    returns [False] and leaves the file system as it was, without a call of
    mkdir or of write; it returns [True] only when the page was fetched, and
    then the directory was made and the content of the response was written
    to the destination; and when the page was fetched and the directory and
    the file could be written, it returns [True]. *)
Theorem download_file_fetch_failure_atomic (url : pystr) (output_path : path)
    (s : St) :
  let fetched := get_page url default_max_retries s in
  let done := download_file url output_path s in
  (exists b, fst done = Ok b)
  /\ (is_ok (fst fetched) = false ->
      done = (Ok false, snd fetched)
      /\ fs (snd done) = fs s
      /\ existsb touches_files (events_since s (snd done)) = false)
  /\ (fst done = Ok true ->
      exists r f1,
        fst fetched = Ok (Some r)
        /\ path_mkdir (parent output_path) true (fs s) = (Ok tt, f1)
        /\ write_file output_path (content r) f1 = (Ok tt, fs (snd done))
        /\ events_since (snd fetched) (snd done)
           = [EvMkdir (parent output_path); EvWrite output_path (content r)])
  /\ (forall r f1 f2,
        fst fetched = Ok (Some r) ->
        path_mkdir (parent output_path) true (fs s) = (Ok tt, f1) ->
        write_file output_path (content r) f1 = (Ok tt, f2) ->
        fst done = Ok true /\ fs (snd done) = f2).
Proof.
  cbv zeta. rewrite download_file_unfold.
  destruct (get_page_spec url default_max_retries s)
    as (j & _ & _ & Hext & [Hfs _] & Hres).
  destruct (get_page url default_max_retries s) as [[response|e] s1];
    cbn [fst snd] in *.
  - (* the page was fetched *)
    destruct response as [r|]; [|discriminate Hres].
    unfold do_mkdir, do_write. rewrite Hfs.
    destruct (path_mkdir (parent output_path) true (fs s)) as [[[]|e] f1]
      eqn:Em; cbn [fst snd fs set_fs emit].
    + destruct (write_file output_path (content r) f1) as [[[]|e] f2] eqn:Ew;
        cbn [fst snd fs set_fs emit].
      * split; [now exists true|]. split; [discriminate|]. split.
        -- intros _. exists r, f1. repeat split; try assumption.
           unfold events_since. cbn [trace set_fs emit].
           rewrite <- app_assoc, skipn_app, skipn_all, Nat.sub_diag.
           reflexivity.
        -- intros r' f1' f2' [= <-] [= <-] H. rewrite Ew in H.
           injection H as <-. now split.
      * split; [now exists false|]. split; [discriminate|]. split.
        -- discriminate.
        -- intros r' f1' f2' [= <-] [= <-] H. rewrite Ew in H. discriminate.
    + split; [now exists false|]. split; [discriminate|]. split.
      * discriminate.
      * intros r' f1' f2' _ [=].
  - (* the fetch failed *)
    split; [now exists false|]. split.
    + intros _. split; [reflexivity|]. split; [exact Hfs|].
      rewrite (events_since_extends Hext). apply existsb_touches_retry_trace.
    + split; [discriminate|]. intros r f1 f2 [=].
Qed.

Lemma get_districts_ok s : exists ds, fst (get_districts s) = Ok ds.
Proof.
  unfold get_districts, try_except.
  match goal with |- context [match ?c s with _ => _ end] =>
    destruct (c s) as [[ds|e] s1] end.
  - now exists ds.
  - now exists [].
Qed.

Lemma scrape_direct_links_ok s : fst (scrape_direct_links s) = Ok tt.
Proof.
  unfold scrape_direct_links, try_except.
  match goal with |- context [match ?c s with _ => _ end] =>
    destruct (c s) as [[[]|e] s1] end; reflexivity.
Qed.

(** C4, as amended.  [get_districts] never raises: a failure gives the empty
    list.  When the list of districts is empty, [download_all] raises
    nothing: it falls back on [scrape_direct_links], which takes the links
    of the page itself, and returns normally. *)
Theorem download_all_without_districts (s : St) :
  (exists ds, fst (get_districts s) = Ok ds)
  /\ (fst (get_districts s) = Ok [] ->
      download_all s = scrape_direct_links (snd (get_districts s))
      /\ fst (download_all s) = Ok tt).
Proof.
  split; [apply get_districts_ok|].
  intros H. unfold download_all, bind.
  destruct (get_districts s) as [r s1]. cbn [fst snd] in *. subst r.
  split; [reflexivity | apply scrape_direct_links_ok].
Qed.



End DataClaims.

(** Runs on the scripted site. *)
Section DataRuns.

Import ASDDDownloader Spec DataWorld.

Lemma get_page_retries_with_backoff_witness :
  (exists s3,
     get_page (lit "u") default_max_retries (start (flaky (lit "AB")))
     = (Ok (Some (page (lit "AB"))), s3)
     /\ events_since (start (flaky (lit "AB"))) s3
        = [EvGet (lit "u"); EvSleep 1%Q; EvGet (lit "u"); EvSleep 2%Q;
           EvGet (lit "u")])
  /\ is_ok (fst (get_page (lit "u") 3 (start down))) = false
  /\ remote_calls
       (events_since (start down) (snd (get_page (lit "u") 3 (start down))))
     = 3.
Proof.
  split.
  - eexists.
    eapply (proj1 (proj2 (get_page_retries_with_backoff (lit "u") 3
                            (start (flaky (lit "AB")))))).
    + reflexivity.
    + reflexivity.
    + reflexivity.
  - apply (proj1 (proj2 (proj2 (get_page_retries_with_backoff (lit "u") 3
                                  (start down))))
             (fun m => m = down)).
    + intros m ->. split; reflexivity.
    + reflexivity.
    + lia.
Defined.

(** C3 as it is stated fails for the enumerators: on a site that is down,
    [get_constituencies] makes four calls, one for each candidate endpoint,
    without a sleep between them, and returns the empty list. *)
Lemma get_constituencies_does_not_retry :
  let s := start down in
  let s' := snd (get_constituencies (lit "1") s) in
  fst (get_constituencies (lit "1") s) = Ok []
  /\ remote_calls (events_since s s') = 4
  /\ sleeps (events_since s s') = []
  /\ ~ follows_retry_policy 3 (events_since s s').
Proof.
  cbv zeta. split; [reflexivity|]. split; [reflexivity|].
  split; [reflexivity|].
  intros [H _]. vm_compute in H. lia.
Qed.

Lemma download_all_without_districts_witness :
  fst (get_districts (start down)) = Ok []
  /\ download_all (start down)
     = scrape_direct_links (snd (get_districts (start down)))
  /\ fst (download_all (start down)) = Ok tt.
Proof.
  split; [reflexivity|].
  apply (proj2 (download_all_without_districts (start down))). reflexivity.
Defined.

(** C4 as it is stated fails: with no district found, [download_all] ends
    normally, after the three attempts of [get_districts] and the three of
    the fallback. *)
Lemma download_all_does_not_abort :
  fst (get_districts (start down)) = Ok []
  /\ is_ok (fst (download_all (start down))) = true
  /\ remote_calls (trace (snd (download_all (start down)))) = 6.
Proof. repeat split. Qed.

End DataRuns.

(* ================================================================== *)
(** * Facts about ASDDSeleniumDownloader *)

Section SeleniumFacts.

Import ASDDSeleniumDownloader LedgerSpec.

Context {B : Browser}.

Lemma since_app (s s' : St) evs :
  trace s' = trace s ++ evs -> events_since s s' = evs.
Proof.
  intros H. unfold events_since. rewrite H.
  rewrite skipn_app, skipn_all, Nat.sub_diag. reflexivity.
Qed.

(** ** One leaf *)

Lemma download_part_unfold d a p s :
  download_part d a p s
  = if PyStr.mem (key_of d a (name p)) (completed (progress s))
    then (Ok tt, emit (EvSkip d a (name p)) s)
    else (leaf_result d a p s, leaf_end d a p s).
Proof.
  unfold download_part. unfold bind at 1. unfold Eff.get at 1.
  destruct (PyStr.mem (key_of d a (name p)) (completed (progress s)));
    [reflexivity|].
  unfold leaf_result, leaf_end, leaf_outcome, leaf_unsaved, leaf_write,
    leaf_text, leaf_marked, fetch_succeeds, download_part_data,
    save_progress, sleep, call, bind, try_except, modify, ret, Eff.get.
  cbn [env emit set_env set_stats set_progress progress].
  destruct (press_download (value p) (env s)) as [[[]|e] en];
    cbn [fst snd env emit set_env set_stats set_progress progress];
    match goal with
    | |- context [store_text ?t ?e] => destruct (store_text t e) as [[| |n] e2]
    end; reflexivity.
Qed.

Lemma leaf_end_trace d a p s :
  trace (leaf_end d a p s) = trace s ++ leaf_events d a p s.
Proof.
  unfold leaf_end, leaf_events, leaf_outcome, leaf_unsaved, leaf_text.
  destruct (leaf_write d a p s); cbn; now rewrite <- !app_assoc.
Qed.

Lemma leaf_end_progress d a p s :
  progress (leaf_end d a p s)
  = (if fetch_succeeds p s then mark_completed (key_of d a (name p))
     else mark_failed (key_of d a (name p))) (progress s).
Proof.
  unfold leaf_end, leaf_outcome, leaf_unsaved.
  now destruct (leaf_write d a p s).
Qed.

Lemma leaf_end_stats d a p s :
  stats (leaf_end d a p s)
  = (if fetch_succeeds p s then add_downloaded else add_failed) (stats s).
Proof.
  unfold leaf_end, leaf_outcome, leaf_unsaved.
  now destruct (leaf_write d a p s).
Qed.

Lemma leaf_text_end d a p s :
  leaf_text d a p s = Json.dumps (to_json (progress (leaf_end d a p s))).
Proof. now rewrite leaf_end_progress. Qed.

Lemma leaf_outcome_persisted d a p s : persisted (leaf_outcome d a p s).
Proof. reflexivity. Qed.

Lemma leaves_leaf_events d a p s :
  leaves (leaf_events d a p s) = [key_of d a (name p)].
Proof. unfold leaf_events. now destruct (leaf_write d a p s). Qed.

Lemma fetches_leaf_events d a p s :
  fetches (leaf_events d a p s) = [key_of d a (name p)].
Proof. unfold leaf_events. now destruct (leaf_write d a p s). Qed.

Lemma flushed_leaf_events d a p s : flushed (leaf_events d a p s) = true.
Proof. unfold leaf_events. now destruct (leaf_write d a p s). Qed.

(** ** Steps that leave the ledger alone *)

Lemma quiet_refl s : quiet s s.
Proof.
  exists []. rewrite app_nil_r. repeat split.
Qed.

Lemma quiet_trans s1 s2 s3 : quiet s1 s2 -> quiet s2 s3 -> quiet s1 s3.
Proof.
  intros (e1 & T1 & N1 & P1 & F1 & D1 & X1) (e2 & T2 & N2 & P2 & F2 & D2 & X2).
  exists (e1 ++ e2). rewrite T2, T1, <- app_assoc, forallb_app, N1, N2.
  repeat split; congruence.
Qed.

Lemma quiet_emit e s : neutral e = true -> quiet s (emit e s).
Proof.
  intros H. exists [e]. cbn. rewrite H. repeat split.
Qed.

Lemma quiet_set_env e s : quiet s (set_env e s).
Proof. exists []. cbn. rewrite app_nil_r. repeat split. Qed.

Lemma quiet_set_driver d s : quiet s (set_driver d s).
Proof. exists []. cbn. rewrite app_nil_r. repeat split. Qed.

Lemma quiet_set_stats f s :
  downloaded (f (stats s)) = downloaded (stats s) ->
  failed (f (stats s)) = failed (stats s) ->
  quiet s (set_stats f s).
Proof.
  intros H1 H2. exists []. cbn. rewrite app_nil_r. repeat split; assumption.
Qed.

Lemma quiet_call {A} (f : Env -> res A * Env) : preserves quiet (call f).
Proof.
  intros s. unfold call. destruct (f (env s)) as [r e]. apply quiet_set_env.
Qed.

Lemma quiet_sleep q : preserves quiet (sleep q).
Proof. intros s. now apply quiet_emit. Qed.

Lemma quiet_do_mkdir p : preserves quiet (do_mkdir p).
Proof.
  unfold do_mkdir.
  apply preserves_bind; [apply quiet_trans | | intros _; apply quiet_call].
  apply preserves_modify. intros s. now apply quiet_emit.
Qed.

Lemma quiet_get_districts : preserves quiet get_districts.
Proof.
  unfold get_districts.
  apply preserves_try_except; [apply quiet_trans | |
    intros _; apply preserves_ret, quiet_refl].
  apply preserves_bind; [apply quiet_trans | apply preserves_get, quiet_refl|].
  intros s0.
  apply preserves_bind; [apply quiet_trans | apply quiet_call|].
  intros options.
  apply preserves_bind; [apply quiet_trans | |
    intros _; apply preserves_ret, quiet_refl].
  apply preserves_modify. intros s. now apply quiet_set_stats.
Qed.

Lemma quiet_get_constituencies v : preserves quiet (get_constituencies v).
Proof.
  unfold get_constituencies.
  apply preserves_try_except; [apply quiet_trans | |
    intros _; apply preserves_ret, quiet_refl].
  apply preserves_bind; [apply quiet_trans | apply quiet_call|].
  intros options. apply preserves_ret, quiet_refl.
Qed.

Lemma quiet_get_parts v : preserves quiet (get_parts v).
Proof.
  unfold get_parts.
  apply preserves_try_except; [apply quiet_trans | |
    intros _; apply preserves_ret, quiet_refl].
  apply preserves_bind; [apply quiet_trans | apply quiet_call|].
  intros [options|]; apply preserves_ret, quiet_refl.
Qed.

Lemma quiet_setup_driver : preserves quiet setup_driver.
Proof.
  unfold setup_driver.
  apply preserves_bind; [apply quiet_trans | apply quiet_call|].
  intros _.
  apply preserves_bind; [apply quiet_trans | | intros _; apply quiet_call].
  apply preserves_modify. intros s. apply quiet_set_driver.
Qed.

Lemma quiet_close_driver : preserves quiet close_driver.
Proof.
  unfold close_driver.
  apply preserves_bind; [apply quiet_trans | apply preserves_get, quiet_refl|].
  intros s0. destruct (driver s0);
    [apply quiet_call | apply preserves_ret, quiet_refl].
Qed.

(** ** The controller keeps what every leaf keeps *)

Section Controller.

Variable R : St -> St -> Prop.

Hypothesis R_trans : forall s1 s2 s3, R s1 s2 -> R s2 s3 -> R s1 s3.
Hypothesis R_quiet : forall s s', quiet s s' -> R s s'.
Hypothesis R_leaf : forall d a p, preserves R (download_part d a p).

Lemma R_of_quiet {A} (c : M St A) : preserves quiet c -> preserves R c.
Proof. intros H s. apply R_quiet, H. Qed.

Lemma R_refl s : R s s.
Proof. apply R_quiet, quiet_refl. Qed.

Lemma parts_preserve d a parts :
  preserves R (for_each parts (download_part d a)).
Proof.
  apply preserves_for_each; [apply R_refl | apply R_trans | apply R_leaf].
Qed.

Lemma download_ac_preserves d dir ac : preserves R (download_ac d dir ac).
Proof.
  unfold download_ac.
  apply preserves_bind; [apply R_trans | apply R_of_quiet, quiet_do_mkdir|].
  intros _.
  apply preserves_bind; [apply R_trans | apply R_of_quiet, quiet_get_parts|].
  intros parts.
  apply preserves_bind; [apply R_trans | |].
  { apply R_of_quiet, preserves_modify. intros s. now apply quiet_set_stats. }
  intros _.
  apply preserves_bind; [apply R_trans | apply parts_preserve|].
  intros _.
  apply preserves_bind; [apply R_trans | apply preserves_get, R_refl|].
  intros s0.
  apply preserves_bind; [apply R_trans | |].
  { apply R_of_quiet, preserves_modify. intros s. now apply quiet_emit. }
  intros _.
  apply preserves_bind; [apply R_trans | apply R_of_quiet, quiet_call|].
  intros _. apply R_of_quiet, quiet_sleep.
Qed.

Lemma download_district_preserves district :
  preserves R (download_district district).
Proof.
  unfold download_district.
  apply preserves_bind; [apply R_trans | apply preserves_get, R_refl|].
  intros s0.
  apply preserves_bind; [apply R_trans | apply R_of_quiet, quiet_do_mkdir|].
  intros _.
  apply preserves_bind;
    [apply R_trans | apply R_of_quiet, quiet_get_constituencies|].
  intros acs.
  apply preserves_bind; [apply R_trans | |].
  { apply R_of_quiet, preserves_modify. intros s. now apply quiet_set_stats. }
  intros _.
  apply preserves_for_each; [apply R_refl | apply R_trans|].
  intros ac. apply download_ac_preserves.
Qed.

Lemma download_all_preserves t : preserves R (download_all t).
Proof.
  unfold download_all.
  apply preserves_try_finally;
    [apply R_trans | | apply R_of_quiet, quiet_close_driver].
  apply preserves_bind; [apply R_trans | apply R_of_quiet, quiet_setup_driver|].
  intros _.
  apply preserves_bind; [apply R_trans | apply R_of_quiet, quiet_get_districts|].
  intros districts.
  apply preserves_for_each; [apply R_refl | apply R_trans|].
  intros d. apply download_district_preserves.
Qed.

End Controller.

(** ** Events *)

Lemma leaves_app e1 e2 : leaves (e1 ++ e2) = leaves e1 ++ leaves e2.
Proof. apply flat_map_app. Qed.

Lemma fetches_app e1 e2 : fetches (e1 ++ e2) = fetches e1 ++ fetches e2.
Proof. apply flat_map_app. Qed.

Lemma neutral_leaves evs : forallb neutral evs = true -> leaves evs = [].
Proof.
  induction evs as [|e evs IH]; [reflexivity|]. cbn [forallb].
  intros H. apply andb_prop in H. destruct H as [He H].
  destruct e; try discriminate; cbn; now apply IH.
Qed.

Lemma neutral_fetches evs : forallb neutral evs = true -> fetches evs = [].
Proof.
  induction evs as [|e evs IH]; [reflexivity|]. cbn [forallb].
  intros H. apply andb_prop in H. destruct H as [He H].
  destruct e; try discriminate; cbn; now apply IH.
Qed.

Lemma neutral_flushed evs : forallb neutral evs = true -> flushed evs = true.
Proof.
  induction evs as [|e evs IH]; [reflexivity|]. cbn [forallb].
  intros H. apply andb_prop in H. destruct H as [He H].
  destruct e; try discriminate; cbn; now apply IH.
Qed.

Lemma flushed_app_len n : forall e1 e2,
  List.length e1 <= n ->
  flushed e1 = true -> flushed e2 = true -> flushed (e1 ++ e2) = true.
Proof.
  induction n as [|n IH]; intros e1 e2 Hn H1 H2.
  - destruct e1; [exact H2 | cbn in Hn; lia].
  - destruct e1 as [|e e1]; [exact H2|]. cbn in Hn.
    destruct e; cbn [app flushed] in *; try (apply IH; [lia | assumption..]).
    destruct e1 as [|e' e1]; [discriminate|].
    destruct e'; try discriminate. cbn [app]. cbn in Hn.
    apply IH; [lia | assumption..].
Qed.

Lemma flushed_app e1 e2 :
  flushed e1 = true -> flushed e2 = true -> flushed (e1 ++ e2) = true.
Proof. apply (flushed_app_len (n := List.length e1)). lia. Qed.

(** ** Flush after each leaf *)

Lemma flush_trans s1 s2 s3 : flush_rel s1 s2 -> flush_rel s2 s3 -> flush_rel s1 s3.
Proof.
  intros (e1 & T1 & F1 & D1) (e2 & T2 & F2 & D2).
  exists (e1 ++ e2). split; [rewrite T2, T1; now rewrite app_assoc|].
  split; [now apply flushed_app|].
  destruct D2 as [[P2 G2]|P2]; [|now right].
  destruct D1 as [[P1 G1]|P1].
  - left. split; congruence.
  - right. unfold persisted in *. congruence.
Qed.

Lemma flush_quiet s s' : quiet s s' -> flush_rel s s'.
Proof.
  intros (evs & T & N & P & F & _). exists evs.
  split; [exact T|]. split; [now apply neutral_flushed|]. now left.
Qed.

(** ** Resuming *)

Lemma resume_trans s1 s2 s3 :
  resume_rel s1 s2 -> resume_rel s2 s3 -> resume_rel s1 s3.
Proof.
  intros (e1 & T1 & H1) (e2 & T2 & H2).
  exists (e1 ++ e2). split; [rewrite T2, T1; now rewrite app_assoc|].
  intros Hk.
  destruct H1 as (A1 & A2 & A3 & A4).
  { intros k Hin. apply Hk. rewrite leaves_app. apply in_or_app. now left. }
  destruct H2 as (B1 & B2 & B3 & B4).
  { intros k Hin. rewrite A2. apply Hk. rewrite leaves_app.
    apply in_or_app. now right. }
  rewrite fetches_app, A1, B1. repeat split; congruence.
Qed.

Lemma resume_quiet s s' : quiet s s' -> resume_rel s s'.
Proof.
  intros (evs & T & N & P & F & D & X). exists evs.
  split; [exact T|]. intros _. split; [now apply neutral_fetches|].
  repeat split; assumption.
Qed.

Lemma resume_leaf d a p : preserves resume_rel (download_part d a p).
Proof.
  intros s. rewrite download_part_unfold.
  destruct (PyStr.mem (key_of d a (name p)) (completed (progress s))) eqn:E.
  - exists [EvSkip d a (name p)]. cbn. repeat split.
  - cbn [snd]. eexists. split; [apply leaf_end_trace|].
    intros Hk. exfalso. apply mem_false_In in E. apply E, Hk.
    rewrite leaves_leaf_events. now left.
Qed.

(** ** A run without a failure *)

Lemma success_trans s1 s2 s3 :
  success_rel s1 s2 -> success_rel s2 s3 -> success_rel s1 s3.
Proof.
  intros (e1 & T1 & L1 & I1 & H1) (e2 & T2 & L2 & I2 & H2).
  exists (e1 ++ e2). split; [rewrite T2, T1; now rewrite app_assoc|].
  split; [lia|]. split; [intros k Hk; apply I2, I1, Hk|].
  intros Heq k Hin. rewrite leaves_app in Hin. apply in_app_or in Hin.
  destruct Hin as [Hin|Hin].
  - apply I2, H1; [lia | exact Hin].
  - apply H2; [lia | exact Hin].
Qed.

Lemma success_quiet s s' : quiet s s' -> success_rel s s'.
Proof.
  intros (evs & T & N & P & F & D & X). exists evs.
  split; [exact T|]. split; [lia|]. split; [rewrite P; apply incl_refl|].
  intros _ k Hin. rewrite (neutral_leaves _ N) in Hin. destruct Hin.
Qed.

Lemma success_leaf d a p : preserves success_rel (download_part d a p).
Proof.
  intros s. rewrite download_part_unfold.
  destruct (PyStr.mem (key_of d a (name p)) (completed (progress s))) eqn:E.
  - exists [EvSkip d a (name p)]. cbn. split; [reflexivity|].
    split; [lia|]. split; [apply incl_refl|].
    intros _ k [<-|[]]. now apply mem_In.
  - cbn [snd]. eexists. split; [apply leaf_end_trace|].
    rewrite leaf_end_stats, leaf_end_progress, leaves_leaf_events.
    destruct (fetch_succeeds p s); cbn.
    + split; [lia|]. split; [intros k Hk; apply in_or_app; now left|].
      intros _ k [<-|[]]. apply in_or_app. right. now left.
    + split; [lia|]. split; [apply incl_refl|]. intros Hf. lia.
Qed.

(** ** The ledger *)

Lemma ledger_trans s1 s2 s3 :
  ledger_rel s1 s2 -> ledger_rel s2 s3 -> ledger_rel s1 s3.
Proof.
  intros ([c1 C1] & (f1 & F1 & N1) & D1) ([c2 C2] & (f2 & F2 & N2) & D2).
  split; [|split].
  - exists (c1 ++ c2). rewrite C2, C1. now rewrite app_assoc.
  - exists (f1 ++ f2). split; [rewrite F2, F1; now rewrite app_assoc|].
    intros k Hin. apply in_app_or in Hin. destruct Hin as [Hin|Hin].
    + now apply N1.
    + intros Hc. apply (N2 k Hin). rewrite C1. apply in_or_app. now left.
  - auto.
Qed.

Lemma ledger_quiet s s' : quiet s s' -> ledger_rel s s'.
Proof.
  intros (evs & T & N & P & _). unfold ledger_rel. rewrite P.
  split; [|split].
  - exists []. now rewrite app_nil_r.
  - exists []. rewrite app_nil_r. split; [reflexivity | intros k []].
  - auto.
Qed.

Lemma NoDup_snoc {A} (l : list A) x : NoDup l -> ~ In x l -> NoDup (l ++ [x]).
Proof.
  induction l as [|y l IH]; intros Hn Hx; cbn.
  - constructor; [intros [] | constructor].
  - inversion Hn as [|? ? Hy Hl]; subst. constructor.
    + intros Hin. apply in_app_or in Hin. destruct Hin as [Hin|[<-|[]]].
      * now apply Hy.
      * apply Hx. now left.
    + apply IH; [exact Hl|]. intros Hin. apply Hx. now right.
Qed.

Lemma ledger_leaf d a p : preserves ledger_rel (download_part d a p).
Proof.
  intros s. rewrite download_part_unfold.
  destruct (PyStr.mem (key_of d a (name p)) (completed (progress s))) eqn:E.
  - (* a skip leaves the ledger alone *)
    cbn. split; [|split].
    + exists []. now rewrite app_nil_r.
    + exists []. rewrite app_nil_r. split; [reflexivity | intros k []].
    + auto.
  - cbn [snd]. unfold ledger_rel. rewrite leaf_end_progress.
    apply mem_false_In in E.
    destruct (fetch_succeeds p s); cbn; (split; [|split]).
    + now eexists.
    + exists []. rewrite app_nil_r. split; [reflexivity | intros k []].
    + intros Hn. now apply NoDup_snoc.
    + exists []. now rewrite app_nil_r.
    + eexists. split; [reflexivity|]. intros k [<-|[]]. exact E.
    + auto.
Qed.

End SeleniumFacts.

(* ================================================================== *)
(** * The controller, by the outcome of its steps *)

Section OutcomeFacts.

Import ASDDSeleniumDownloader LedgerSpec Invariants.

Context {B : Browser}.

Lemma silent_quiet s s' : silent s s' -> quiet s s'.
Proof.
  intros (T & P & F & X). exists []. rewrite app_nil_r, X.
  repeat split; assumption.
Qed.

Lemma silent_close_driver : preserves silent close_driver.
Proof.
  intros s. unfold close_driver, bind, Eff.get, call, ret.
  destruct (driver s); [|repeat split].
  destruct (quit_driver (env s)) as [r e]. repeat split.
Qed.

(** ** What every leaf keeps, the controller keeps *)

Section Outcome.

Variables R F : St -> St -> Prop.

Hypothesis R_trans : forall s1 s2 s3, R s1 s2 -> R s2 s3 -> R s1 s3.
Hypothesis R_then_F : forall s1 s2 s3, R s1 s2 -> F s2 s3 -> F s1 s3.
Hypothesis R_quiet : forall s s', quiet s s' -> R s s'.
Hypothesis R_F : forall s s', R s s' -> F s s'.
Hypothesis F_silent : forall s1 s2 s3, F s1 s2 -> silent s2 s3 -> F s1 s3.
Hypothesis leaf : forall d a p, keeps R F (download_part d a p).

Lemma keeps_quiet {A} (c : M St A) : preserves quiet c -> keeps R F c.
Proof.
  apply keeps_of_preserves; [exact R_quiet|].
  intros s s' H. apply R_F, R_quiet, H.
Qed.

Lemma K_refl s : R s s.
Proof. apply R_quiet, quiet_refl. Qed.

Lemma keeps_download_ac d dir ac : keeps R F (download_ac d dir ac).
Proof.
  unfold download_ac.
  apply keeps_bind; [apply R_trans | apply R_then_F | |].
  { apply keeps_quiet, quiet_do_mkdir. }
  intros _.
  apply keeps_bind; [apply R_trans | apply R_then_F | |].
  { apply keeps_quiet, quiet_get_parts. }
  intros parts.
  apply keeps_bind; [apply R_trans | apply R_then_F | |].
  { apply keeps_quiet, preserves_modify. intros s. now apply quiet_set_stats. }
  intros _.
  apply keeps_bind; [apply R_trans | apply R_then_F | |].
  { apply keeps_for_each;
      [apply K_refl | apply R_trans | apply R_then_F | apply leaf]. }
  intros _.
  apply keeps_bind; [apply R_trans | apply R_then_F | |].
  { apply keeps_get, K_refl. }
  intros s0.
  apply keeps_bind; [apply R_trans | apply R_then_F | |].
  { apply keeps_quiet, preserves_modify. intros s. now apply quiet_emit. }
  intros _.
  apply keeps_bind; [apply R_trans | apply R_then_F | |].
  { apply keeps_quiet, quiet_call. }
  intros _. apply keeps_quiet, quiet_sleep.
Qed.

Lemma keeps_download_district district :
  keeps R F (download_district district).
Proof.
  unfold download_district.
  apply keeps_bind; [apply R_trans | apply R_then_F | |].
  { apply keeps_get, K_refl. }
  intros s0.
  apply keeps_bind; [apply R_trans | apply R_then_F | |].
  { apply keeps_quiet, quiet_do_mkdir. }
  intros _.
  apply keeps_bind; [apply R_trans | apply R_then_F | |].
  { apply keeps_quiet, quiet_get_constituencies. }
  intros acs.
  apply keeps_bind; [apply R_trans | apply R_then_F | |].
  { apply keeps_quiet, preserves_modify. intros s. now apply quiet_set_stats. }
  intros _.
  apply keeps_for_each; [apply K_refl | apply R_trans | apply R_then_F|].
  intros ac. apply keeps_download_ac.
Qed.

Lemma keeps_download_all t : keeps R F (download_all t).
Proof.
  unfold download_all.
  apply keeps_try_finally with (Q := silent).
  - intros s1 s2 s3 H1 H2. eapply R_trans; [exact H1|].
    apply R_quiet, silent_quiet, H2.
  - exact F_silent.
  - exact R_F.
  - apply keeps_bind; [apply R_trans | apply R_then_F | |].
    { apply keeps_quiet, quiet_setup_driver. }
    intros _.
    apply keeps_bind; [apply R_trans | apply R_then_F | |].
    { apply keeps_quiet, quiet_get_districts. }
    intros districts.
    apply keeps_for_each; [apply K_refl | apply R_trans | apply R_then_F|].
    intros d. apply keeps_download_district.
  - apply silent_close_driver.
Qed.

End Outcome.

(** ** Flush after each leaf *)

Lemma flush_cut_of_flush s s' : flush_rel s s' -> flush_cut_rel s s'.
Proof.
  intros (evs & T & Fl & D). exists evs. split; [exact T|].
  split; [exact Fl|]. destruct D as [D|D]; [now left | right; now left].
Qed.

Lemma ends_with_save_app e1 e2 : ends_with_save e2 -> ends_with_save (e1 ++ e2).
Proof.
  intros (pre & text & ->). exists (e1 ++ pre), text.
  now rewrite app_assoc.
Qed.

Lemma flush_then_cut s1 s2 s3 :
  flush_rel s1 s2 -> flush_cut_rel s2 s3 -> flush_cut_rel s1 s3.
Proof.
  intros (e1 & T1 & F1 & D1) (e2 & T2 & F2 & D2).
  exists (e1 ++ e2). split; [rewrite T2, T1; now rewrite app_assoc|].
  split; [now apply flushed_app|].
  destruct D2 as [[P2 G2]|[P2|P2]].
  - destruct D1 as [[P1 G1]|P1].
    + left. split; congruence.
    + right. left. unfold persisted in *. congruence.
  - right. now left.
  - right. right. now apply ends_with_save_app.
Qed.

Lemma flush_cut_silent s1 s2 s3 :
  flush_cut_rel s1 s2 -> silent s2 s3 -> flush_cut_rel s1 s3.
Proof.
  intros (evs & T & Fl & D) (T' & P & G & _). exists evs.
  split; [congruence|]. split; [exact Fl|].
  destruct D as [[P1 G1]|[P1|P1]].
  - left. split; congruence.
  - right. left. unfold persisted in *. congruence.
  - right. now right.
Qed.

(** One leaf: when [download_part] returns the file holds the ledger, and
    when it raises the write of the file is the last thing it did. *)
Lemma flush_leaf d a p :
  keeps flush_rel flush_cut_rel (download_part d a p).
Proof.
  intros s. rewrite download_part_unfold.
  destruct (PyStr.mem (key_of d a (name p)) (completed (progress s))).
  - exists [EvSkip d a (name p)]. cbn. repeat split. now left.
  - cbn [fst snd]. unfold leaf_result.
    destruct (leaf_write d a p s) eqn:E.
    + exists (leaf_events d a p s). split; [apply leaf_end_trace|].
      split; [apply flushed_leaf_events|]. right.
      unfold leaf_end. rewrite E. apply leaf_outcome_persisted.
    + exists (leaf_events d a p s). split; [apply leaf_end_trace|].
      split; [apply flushed_leaf_events|]. right. right.
      unfold leaf_events. rewrite E.
      exists [EvFetch d a (value p) (name p)], (leaf_text d a p s).
      now rewrite app_nil_r.
    + exists (leaf_events d a p s). split; [apply leaf_end_trace|].
      split; [apply flushed_leaf_events|]. right. right.
      unfold leaf_events. rewrite E.
      exists [EvFetch d a (value p) (name p)], (leaf_text d a p s).
      now rewrite app_nil_r.
Qed.

Lemma flush_download_all t :
  keeps flush_rel flush_cut_rel (download_all t).
Proof.
  apply keeps_download_all.
  - apply flush_trans.
  - apply flush_then_cut.
  - apply flush_quiet.
  - apply flush_cut_of_flush.
  - apply flush_cut_silent.
  - apply flush_leaf.
Qed.

Lemma flush_parts d a parts :
  keeps flush_rel flush_cut_rel (for_each parts (download_part d a)).
Proof.
  apply keeps_for_each.
  - intros s. apply flush_quiet, quiet_refl.
  - apply flush_trans.
  - apply flush_then_cut.
  - apply flush_leaf.
Qed.

End OutcomeFacts.

Section SeleniumClaims.

Import ASDDSeleniumDownloader LedgerSpec Invariants.

Context {B : Browser}.

(** C1. Resume idempotence.  A leaf whose key is in the completed list is
    skipped: the fetcher is not called, and the counters, the ledger and the
    progress file stay as they are (a line is logged).  Hence, when a run
    counted no failure and a second run starts from its ledger and meets no
    leaf the first run did not meet, the second run calls the fetcher not
    once and leaves the ledger and the counters of downloads and failures
    alone. *)
Theorem completed_leaves_are_skipped (d a : pystr) (p : Opt)
    (t t' : option pystr) (s s1 s2 : St) :
  (PyStr.mem (key_of d a (name p)) (completed (progress s)) = true ->
   let s' := snd (download_part d a p s) in
   download_part d a p s = (Ok tt, emit (EvSkip d a (name p)) s)
   /\ fetches (events_since s s') = []
   /\ stats s' = stats s
   /\ progress s' = progress s
   /\ progress_file s' = progress_file s)
  /\ (let run1 := snd (download_all t s1) in
      let run2 := snd (download_all t' s2) in
      failed (stats run1) = failed (stats s1) ->
      progress s2 = progress run1 ->
      (forall k, In k (leaves (events_since s2 run2)) ->
                 In k (leaves (events_since s1 run1))) ->
      fetches (events_since s2 run2) = []
      /\ progress run2 = progress s2
      /\ downloaded (stats run2) = downloaded (stats s2)
      /\ failed (stats run2) = failed (stats s2)).
Proof.
  split.
  - intros E. cbv zeta. rewrite download_part_unfold, E. cbn [snd].
    split; [reflexivity|]. split; [|repeat split].
    unfold events_since. cbn [trace emit].
    rewrite skipn_app, skipn_all, Nat.sub_diag. reflexivity.
  - cbv zeta. intros Hf Hp Hsub.
    destruct (download_all_preserves success_trans success_quiet
                success_leaf t s1) as (e1 & T1 & _ & _ & H1).
    destruct (download_all_preserves resume_trans resume_quiet
                resume_leaf t' s2) as (e2 & T2 & H2).
    rewrite (since_app _ _ _ T1) in Hsub. rewrite (since_app _ _ _ T2) in Hsub.
    rewrite (since_app _ _ _ T2). apply H2.
    intros k Hk. rewrite Hp. apply (H1 Hf). now apply Hsub.
Qed.

(** C2, as amended.  Flush after each leaf.  A leaf that is not completed
    yet is fetched, its outcome is put in the ledger and the write of the
    progress file comes at once, before the sleep and before any other
    leaf.  When the write completes, the file holds the ledger in memory
    and the controller goes on; when it does not, [download_part] raises
    the error of the write and the loop over the parts ends there, the file
    being as it was or holding the beginning of the text: the controller
    does not go on to a next leaf with an outcome that is not in the file.
    Over any stretch of the parts of a constituency and over the whole run,
    every call of the fetcher is followed at once by a write of the file;
    when the stretch or the run returns, the file holds the ledger as soon
    as either has changed, and when it raises that is so unless the last
    thing that happened is the write that failed. *)
Theorem progress_flushed_after_each_leaf (d a : pystr) (p : Opt)
    (parts : list Opt) (t : option pystr) (s : St) :
  (PyStr.mem (key_of d a (name p)) (completed (progress s)) = false ->
   let s' := snd (download_part d a p s) in
   let text := Json.dumps (to_json (progress s')) in
   (In (key_of d a (name p)) (completed (progress s'))
    \/ In (key_of d a (name p)) (failed_keys (progress s')))
   /\ (leaf_write d a p s = Written ->
       fst (download_part d a p s) = Ok tt
       /\ events_since s s'
          = [EvFetch d a (value p) (name p); EvSave text; EvSleep 1%Q]
       /\ persisted s')
   /\ (leaf_write d a p s <> Written ->
       fst (download_part d a p s) = Raise OSError
       /\ events_since s s' = [EvFetch d a (value p) (name p); EvSave text]
       /\ (progress_file s' = progress_file s
           \/ exists n, progress_file s' = Some (firstn n text))
       /\ forall rest,
            for_each (p :: rest) (download_part d a) s = (Raise OSError, s')))
  /\ match fst (for_each parts (download_part d a) s) with
     | Ok _ => flush_rel s (snd (for_each parts (download_part d a) s))
     | Raise _ => flush_cut_rel s (snd (for_each parts (download_part d a) s))
     end
  /\ match fst (download_all t s) with
     | Ok _ => flush_rel s (snd (download_all t s))
     | Raise _ => flush_cut_rel s (snd (download_all t s))
     end.
Proof.
  split; [|split].
  - intros E. cbv zeta. rewrite download_part_unfold, E. cbn [fst snd].
    rewrite <- leaf_text_end. split; [|split].
    + rewrite leaf_end_progress.
      destruct (fetch_succeeds p s); cbn; [left | right];
        apply in_or_app; right; now left.
    + intros Hw. unfold leaf_result. rewrite Hw. split; [reflexivity|].
      split.
      * rewrite (since_app _ _ _ (leaf_end_trace d a p s)).
        unfold leaf_events. now rewrite Hw.
      * unfold leaf_end. rewrite Hw. apply leaf_outcome_persisted.
    + intros Hw.
      assert (Hr : leaf_result d a p s = Raise OSError).
      { unfold leaf_result. destruct (leaf_write d a p s);
          [now elim Hw | reflexivity | reflexivity]. }
      rewrite Hr. split; [reflexivity|]. split; [|split].
      * rewrite (since_app _ _ _ (leaf_end_trace d a p s)).
        unfold leaf_events. destruct (leaf_write d a p s);
          [now elim Hw | reflexivity | reflexivity].
      * unfold leaf_end, leaf_unsaved.
        destruct (leaf_write d a p s) as [| |n];
          [now elim Hw | now left | right; now exists n].
      * intros rest. cbn [for_each]. unfold bind.
        now rewrite download_part_unfold, E, Hr.
  - apply flush_parts.
  - apply flush_download_all.
Qed.

(** C6, as amended.  A leaf whose key is completed leaves the ledger and
    the progress file as they are: that is no error.  Over one leaf and over
    a whole run both lists only grow at their end, the completed list keeps
    having no key twice, and no key that is completed is put in the failed
    list afterwards.  A key is not taken out of the failed list: a leaf that
    is fetched with success is put at the end of the completed list and the
    failed list stays as it is, so a key that failed before is then in both
    lists. *)
Theorem ledger_is_append_only (d a : pystr) (p : Opt) (t : option pystr)
    (s : St) :
  (PyStr.mem (key_of d a (name p)) (completed (progress s)) = true ->
   progress (snd (download_part d a p s)) = progress s
   /\ progress_file (snd (download_part d a p s)) = progress_file s)
  /\ ledger_rel s (snd (download_part d a p s))
  /\ ledger_rel s (snd (download_all t s))
  /\ (PyStr.mem (key_of d a (name p)) (completed (progress s)) = false ->
      fetch_succeeds p s = true ->
      completed (progress (snd (download_part d a p s)))
      = completed (progress s) ++ [key_of d a (name p)]
      /\ failed_keys (progress (snd (download_part d a p s)))
         = failed_keys (progress s)).
Proof.
  split; [|split; [|split]].
  - intros E. rewrite download_part_unfold, E. now split.
  - apply ledger_leaf.
  - apply (download_all_preserves ledger_trans ledger_quiet ledger_leaf).
  - intros E Hok. rewrite download_part_unfold, E. cbn [snd].
    rewrite leaf_end_progress, Hok. now split.
Qed.




End SeleniumClaims.


(** Runs on the site of two districts. *)
Section SeleniumRuns.

Import ASDDSeleniumDownloader LedgerSpec SeleniumWorld.

(** The end-to-end scenario of the specification: 2 districts, 4
    constituencies, 8 parts, 7 downloaded and 1 failed; the ledger has 7
    completed keys and 1 failed key, and the progress file holds it. *)
Example scenario_of_the_spec :
  fst first_run = Ok tt
  /\ stats (snd first_run)
     = {| districts := 2; constituencies := 4; parts := 8;
          downloaded := 7; failed := 1 |}
  /\ List.length (completed (progress (snd first_run))) = 7
  /\ failed_keys (progress (snd first_run)) = [lit "D1|C2|P1"]
  /\ option_map Json.loads (progress_file (snd first_run))
     = Some (Some (to_json (progress (snd first_run)))).
Proof. vm_compute. repeat split. Qed.

Lemma completed_leaves_are_skipped_witness :
  let s1 := state_with no_progress (site_with []) in
  let s2 := state_with (progress (snd (download_all None s1))) (site_with []) in
  fetches (events_since s2 (snd (download_all None s2))) = []
  /\ progress (snd (download_all None s2)) = progress s2
  /\ downloaded (stats (snd (download_all None s2))) = downloaded (stats s2)
  /\ failed (stats (snd (download_all None s2))) = failed (stats s2).
Proof.
  cbv zeta.
  apply (proj2 (completed_leaves_are_skipped [] [] part_P1 None None
                  (state_with no_progress (site_with []))
                  (state_with no_progress (site_with []))
                  (state_with
                     (progress
                        (snd (download_all None
                                (state_with no_progress (site_with [])))))
                     (site_with [])))).
  - vm_compute. reflexivity.
  - vm_compute. reflexivity.
  - intros k. vm_compute. intros H. exact H.
Defined.

Lemma progress_flushed_after_each_leaf_witness :
  let s := on_D1_C1 no_progress [] in
  let s' := snd (download_part (lit "D1") (lit "C1") part_P1 s) in
  let text := Json.dumps (to_json (progress s')) in
  (fst (download_part (lit "D1") (lit "C1") part_P1 s) = Ok tt
   /\ events_since s s'
      = [EvFetch (lit "D1") (lit "C1") (lit "P1") (lit "P1");
         EvSave text; EvSleep 1%Q]
   /\ persisted s')
  /\ (let u := Scenarios.on_full_disk in
      let u' :=
        snd (download_part (B := Scenarios.full_disk)
               (lit "D1") (lit "C1") part_P1 u) in
      fst (download_part (B := Scenarios.full_disk)
             (lit "D1") (lit "C1") part_P1 u) = Raise OSError
      /\ events_since (B := Scenarios.full_disk) u u'
         = [EvFetch (lit "D1") (lit "C1") (lit "P1") (lit "P1");
            EvSave (Json.dumps (to_json (progress u')))]
      /\ (progress_file u' = progress_file u
          \/ exists n,
               progress_file u'
               = Some (firstn n (Json.dumps (to_json (progress u')))))
      /\ forall rest,
           for_each (part_P1 :: rest)
             (download_part (B := Scenarios.full_disk) (lit "D1") (lit "C1"))
             u
           = (Raise OSError, u')).
Proof.
  cbv zeta. split.
  - apply (proj1 (proj2 (proj1 (progress_flushed_after_each_leaf
                                  (lit "D1") (lit "C1") part_P1 [] None
                                  (on_D1_C1 no_progress []))
                           eq_refl))).
    reflexivity.
  - apply (proj2 (proj2 (proj1 (@progress_flushed_after_each_leaf
                                  Scenarios.full_disk
                                  (lit "D1") (lit "C1") part_P1 [] None
                                  Scenarios.on_full_disk)
                           eq_refl))).
    discriminate.
Defined.

(** C2 as it is stated fails when a write of the progress file fails.  On
    a disk with room for sixty characters the file takes the ledger of one
    key and not of two: the write for the second leaf is cut short, the run
    ends with [OSError], and the file holds neither the outcome of the
    second leaf nor that of the first, which it held before. *)
Lemma cut_short_write_loses_the_ledger :
  let s := Scenarios.on_small_disk 60 in
  let first :=
    snd (download_part (B := Scenarios.small_disk 60) (lit "D1") (lit "C1")
           part_P1
           (set_env (B := Scenarios.small_disk 60)
              {| tree := two_by_two; broken := [];
                 district := lit "D1"; ac := lit "C1" |} s)) in
  let run := download_all (B := Scenarios.small_disk 60) None s in
  persisted (B := Scenarios.small_disk 60) first
  /\ completed (progress first) = [lit "D1|C1|P1"]
  /\ fst run = Raise OSError
  /\ completed (progress (snd run)) = [lit "D1|C1|P1"; lit "D1|C1|P2"]
  /\ progress_file (snd run)
     = Some (firstn 60 (Json.dumps (to_json (progress (snd run)))))
  /\ load_progress (progress_file (snd run)) = Raise JSONDecodeError
  /\ ~ persisted (B := Scenarios.small_disk 60) (snd run).
Proof.
  cbv zeta. repeat split; try (vm_compute; reflexivity).
  unfold persisted. vm_compute. discriminate.
Qed.

Lemma ledger_is_append_only_witness :
  let s :=
    on_D1_C1 {| completed := []; failed_keys := [lit "D1|C1|P1"] |} [] in
  let s' := snd (download_part (lit "D1") (lit "C1") part_P1 s) in
  completed (progress s') = completed (progress s) ++ [lit "D1|C1|P1"]
  /\ failed_keys (progress s') = failed_keys (progress s).
Proof.
  cbv zeta.
  apply (proj2 (proj2 (proj2
           (ledger_is_append_only (lit "D1") (lit "C1") part_P1 None
              (on_D1_C1
                 {| completed := []; failed_keys := [lit "D1|C1|P1"] |}
                 []))))); reflexivity.
Defined.

(** C6 as it is stated fails: the leaf that failed in the first run of the
    scenario succeeds in the second run, and its key ends in both lists of
    the ledger, in memory and in the progress file. *)
Lemma failed_key_is_also_completed :
  partitioned (progress (snd first_run))
  /\ fst second_run = Ok tt
  /\ In (lit "D1|C2|P1") (completed (progress (snd second_run)))
  /\ In (lit "D1|C2|P1") (failed_keys (progress (snd second_run)))
  /\ ~ partitioned (progress (snd second_run))
  /\ option_map Json.loads (progress_file (snd second_run))
     = Some (Some (to_json (progress (snd second_run)))).
Proof.
  assert (Hc : In (lit "D1|C2|P1") (completed (progress (snd second_run)))).
  { vm_compute. tauto. }
  assert (Hf : In (lit "D1|C2|P1") (failed_keys (progress (snd second_run)))).
  { vm_compute. tauto. }
  split; [|split; [|split; [|split; [|split]]]]; try assumption.
  - intros k Hk Hk'. vm_compute in Hk, Hk'.
    destruct Hk' as [<-|[]].
    repeat (destruct Hk as [Hk|Hk]; [discriminate Hk|]). destruct Hk.
  - vm_compute. reflexivity.
  - intros H. exact (H _ Hc Hf).
  - vm_compute. reflexivity.
Qed.

End SeleniumRuns.

(* ================================================================== *)
(** * The progress file: what [json.dump] writes, [json.load] reads back *)

Section JsonFacts.

Import Json.

Local Open Scope N_scope.

Lemma hexval_hexdigit (d : N) : d < 16 -> hexval (hexdigit d) = Some d.
Proof.
  intros H. unfold hexdigit, hexval.
  destruct (N.ltb_spec d 10) as [L|L].
  - replace ((48 <=? 48 + d) && (48 + d <=? 57)) with true.
    + f_equal. lia.
    + symmetry. apply andb_true_iff. split; apply N.leb_le; lia.
  - replace ((48 <=? 87 + d) && (87 + d <=? 57)) with false.
    + replace ((97 <=? 87 + d) && (87 + d <=? 102)) with true.
      * f_equal. lia.
      * symmetry. apply andb_true_iff. split; apply N.leb_le; lia.
    + symmetry. apply andb_false_iff. right. apply N.leb_gt. lia.
Qed.

(** The four digits of [hex4] give the number back. *)
Lemma decode4_hex4 (n : N) :
  n < 65536 ->
  decode4 (hexdigit (n / 4096 mod 16)) (hexdigit (n / 256 mod 16))
    (hexdigit (n / 16 mod 16)) (hexdigit (n mod 16)) = Some n.
Proof.
  intros H. unfold decode4.
  rewrite !hexval_hexdigit by (apply N.mod_lt; discriminate).
  f_equal. zify. Z.to_euclidean_division_equations. lia.
Qed.

End JsonFacts.

(** ** The scanner of strings reads back what the encoder wrote *)

Section ScanFacts.

Import Json LedgerSpec.

Local Open Scope N_scope.

Lemma scanstring_quote (rest : pystr) : scanstring (34 :: rest) = Some ([], rest).
Proof. reflexivity. Qed.

Lemma scanstring_plain (c : N) (rest : pystr) :
  c <> 34 -> c <> 92 -> 32 <= c ->
  scanstring (c :: rest) = cons_char c (scanstring rest).
Proof.
  intros H1 H2 H3. cbn [scanstring].
  apply N.eqb_neq in H1, H2. rewrite H1, H2.
  replace (c <? 32) with false by (symmetry; apply N.ltb_ge; exact H3).
  reflexivity.
Qed.

Lemma scanstring_short (e ch : N) (rest : pystr) :
  unescape e = Some ch -> e <> 117 ->
  scanstring (92 :: e :: rest) = cons_char ch (scanstring rest).
Proof.
  intros H1 H2. cbn [scanstring].
  change (92 =? 34) with false. change (92 =? 92) with true. cbv iota.
  apply N.eqb_neq in H2. rewrite H2, H1. reflexivity.
Qed.

Lemma scanstring_u4 (h3 h2 h1 h0 uni : N) (rest : pystr) :
  decode4 h3 h2 h1 h0 = Some uni ->
  (0xD800 <=? uni) && (uni <=? 0xDBFF) = false ->
  scanstring (92 :: 117 :: h3 :: h2 :: h1 :: h0 :: rest)
  = cons_char uni (scanstring rest).
Proof.
  intros H1 H2. cbn [scanstring].
  change (92 =? 34) with false. change (92 =? 92) with true.
  change (117 =? 117) with true. cbv iota.
  rewrite H1, H2. reflexivity.
Qed.

Lemma scanstring_pair (h3 h2 h1 h0 g3 g2 g1 g0 hi lo : N) (rest : pystr) :
  decode4 h3 h2 h1 h0 = Some hi ->
  (0xD800 <=? hi) && (hi <=? 0xDBFF) = true ->
  decode4 g3 g2 g1 g0 = Some lo ->
  (0xDC00 <=? lo) && (lo <=? 0xDFFF) = true ->
  scanstring (92 :: 117 :: h3 :: h2 :: h1 :: h0
              :: 92 :: 117 :: g3 :: g2 :: g1 :: g0 :: rest)
  = cons_char (0x10000 + ((hi - 0xD800) * 1024 + (lo - 0xDC00)))
      (scanstring rest).
Proof.
  intros H1 H2 H3 H4. cbn [scanstring].
  change (92 =? 34) with false. change (92 =? 92) with true.
  change (117 =? 117) with true. cbv iota.
  rewrite H1, H2. cbn [andb]. rewrite H3, H4. reflexivity.
Qed.

Lemma scanstring_escape (c : N) (rest : pystr) :
  scalar c = true ->
  scanstring (escape_char c ++ rest) = cons_char c (scanstring rest).
Proof.
  intros Hc. unfold scalar in Hc. apply andb_true_iff in Hc.
  destruct Hc as [Hs Hmax]. apply N.ltb_lt in Hmax.
  unfold escape_char.
  destruct (N.eqb_spec c 34) as [->|N34];
    [now apply scanstring_short|].
  destruct (N.eqb_spec c 92) as [->|N92];
    [now apply scanstring_short|].
  destruct (N.eqb_spec c 10) as [->|N10];
    [now apply scanstring_short|].
  destruct (N.eqb_spec c 13) as [->|N13];
    [now apply scanstring_short|].
  destruct (N.eqb_spec c 9) as [->|N9];
    [now apply scanstring_short|].
  destruct (N.eqb_spec c 8) as [->|N8];
    [now apply scanstring_short|].
  destruct (N.eqb_spec c 12) as [->|N12];
    [now apply scanstring_short|].
  destruct ((32 <=? c) && (c <=? 126)) eqn:Eprint.
  { apply andb_true_iff in Eprint. destruct Eprint as [L _].
    apply N.leb_le in L. now apply scanstring_plain. }
  destruct (N.ltb_spec c 0x10000) as [Hb|Hb].
  - (* the basic plane *)
    unfold hex4. cbn [app].
    apply scanstring_u4; [now apply decode4_hex4|].
    apply orb_true_iff in Hs. apply andb_false_iff.
    destruct Hs as [Hs|Hs].
    + left. apply N.leb_gt. now apply N.ltb_lt.
    + right. apply N.leb_gt. apply N.ltb_lt in Hs. lia.
  - (* a surrogate pair *)
    cbv zeta. unfold hex4. cbn [app].
    remember (c - 65536) as n eqn:En.
    assert (Hn : n < 1048576) by lia.
    pose proof (N.div_mod n 1024 ltac:(discriminate)) as E.
    assert (Hq : n / 1024 < 1024)
      by (apply N.Div0.div_lt_upper_bound; exact Hn).
    assert (Hr : n mod 1024 < 1024) by (apply N.mod_lt; discriminate).
    rewrite (N.mod_small (n / 1024) 1024 Hq).
    revert E Hq Hr. generalize (n / 1024), (n mod 1024). intros q r E Hq Hr.
    rewrite scanstring_pair with (hi := 0xD800 + q) (lo := 0xDC00 + r).
    + f_equal. lia.
    + apply decode4_hex4. lia.
    + apply andb_true_iff. split; apply N.leb_le; lia.
    + apply decode4_hex4. lia.
    + apply andb_true_iff. split; apply N.leb_le; lia.
Qed.

(** The scanner reads back what [encode_string] wrote, for a string of
    characters. *)
Lemma scanstring_encode (s rest : pystr) :
  text s ->
  scanstring (flat_map escape_char s ++ 34 :: rest) = Some (s, rest).
Proof.
  unfold text. induction s as [|c s IH]; intros H; [reflexivity|].
  cbn [forallb] in H. apply andb_true_iff in H. destruct H as [Hc Hs].
  cbn [flat_map]. rewrite <- app_assoc, (scanstring_escape _ _ Hc), (IH Hs).
  reflexivity.
Qed.

End ScanFacts.

(** ** The parser reads back the text of a progress *)

Section LoadFacts.

Import Json LedgerSpec ASDDSeleniumDownloader.

Local Open Scope N_scope.

Lemma skip_ws_newline_indent (level : nat) (rest : pystr) :
  skip_ws (newline_indent level ++ rest) = skip_ws rest.
Proof.
  unfold newline_indent. cbn [app skip_ws is_ws N.eqb orb Pos.eqb].
  induction (2 * level)%nat as [|k IH]; [reflexivity | exact IH].
Qed.

Lemma skip_ws_stop (c : N) (rest : pystr) :
  is_ws c = false -> skip_ws (c :: rest) = c :: rest.
Proof. intros H. cbn [skip_ws]. now rewrite H. Qed.

Lemma scan_items_S (fuel : nat) (s : pystr) :
  scan_items (S fuel) s
  = match scan_once fuel s with
    | None => None
    | Some (v, r) =>
        match skip_ws r with
        | [] => None
        | c :: r1 =>
            if c =? 93 then Some ([v], r1)
            else if c =? 44 then
              match scan_items fuel (skip_ws r1) with
              | Some (vs, r2) => Some (v :: vs, r2)
              | None => None
              end
            else None
        end
    end.
Proof. reflexivity. Qed.

Lemma scan_once_string (fuel : nat) (rest : pystr) :
  scan_once (S fuel) (34 :: rest)
  = match scanstring rest with
    | Some (str, r) => Some (Str str, r)
    | None => None
    end.
Proof. reflexivity. Qed.

Lemma scan_once_array (fuel : nat) (rest : pystr) :
  scan_once (S fuel) (91 :: rest)
  = match skip_ws rest with
    | [] => None
    | c1 :: r1 =>
        if c1 =? 93 then Some (Arr [], r1)
        else
          match scan_items fuel (c1 :: r1) with
          | Some (vs, r2) => Some (Arr vs, r2)
          | None => None
          end
    end.
Proof. reflexivity. Qed.

Lemma scan_once_object (fuel : nat) (rest : pystr) :
  scan_once (S fuel) (123 :: rest)
  = match skip_ws rest with
    | [] => None
    | c1 :: r1 =>
        if c1 =? 125 then Some (Obj [], r1)
        else
          match scan_members fuel (c1 :: r1) with
          | Some (ms, r2) => Some (Obj (dict_of_pairs ms), r2)
          | None => None
          end
    end.
Proof. reflexivity. Qed.

Lemma scan_members_S (fuel : nat) (r0 : pystr) :
  scan_members (S fuel) (34 :: r0)
  = match scanstring r0 with
    | None => None
    | Some (key, r1) =>
        match skip_ws r1 with
        | [] => None
        | colon :: r2 =>
            if colon =? 58 then
              match scan_once fuel (skip_ws r2) with
              | None => None
              | Some (v, r3) =>
                  match skip_ws r3 with
                  | [] => None
                  | c :: r4 =>
                      if c =? 125 then Some ([(key, v)], r4)
                      else if c =? 44 then
                        match scan_members fuel (skip_ws r4) with
                        | Some (ms, r5) => Some ((key, v) :: ms, r5)
                        | None => None
                        end
                      else None
                  end
              end
            else None
        end
    end.
Proof. reflexivity. Qed.

(** The text of an array of strings that is not empty. *)
Lemma dump_strings (level : nat) (x : pystr) (xs : list pystr) :
  dump level (Arr (List.map Str (x :: xs)))
  = 91 :: newline_indent (S level) ++ encode_string x
    ++ flat_map
         (fun y => 44 :: newline_indent (S level) ++ encode_string y) xs
    ++ newline_indent level ++ [93].
Proof.
  cbn [List.map dump]. change (lit "[") with [91]. change (lit "]") with [93].
  change (lit ",") with [44]. cbn [app]. do 3 f_equal. f_equal.
  induction xs as [|y ys IH]; [reflexivity|].
  cbn [List.map flat_map app dump].
  now rewrite IH, <- !app_assoc.
Qed.

(** The items of an array of strings, from the quote of the first one. *)
Lemma scan_items_strings (level level' : nat) (rest : pystr) :
  forall (xs : list pystr) (x : pystr) (fuel : nat),
    Forall text (x :: xs) ->
    (List.length xs + 2 <= fuel)%nat ->
    scan_items fuel
      (encode_string x
       ++ flat_map
            (fun y => 44 :: newline_indent level ++ encode_string y) xs
       ++ newline_indent level' ++ 93 :: rest)
    = Some (List.map Str (x :: xs), rest).
Proof.
  induction xs as [|y ys IH]; intros x fuel Ht Hf;
    (destruct fuel as [|[|fuel]]; [cbn in Hf; lia | cbn in Hf; lia |]);
    inversion_clear Ht as [|? ? Hx Hxs];
    rewrite scan_items_S; unfold encode_string at 1; cbn [app];
    rewrite scan_once_string, <- app_assoc; cbn [app];
    rewrite (scanstring_encode _ Hx).
  - cbn [flat_map app]. rewrite skip_ws_newline_indent.
    rewrite skip_ws_stop by reflexivity. reflexivity.
  - cbn [flat_map app]. rewrite skip_ws_stop by reflexivity.
    change (44 =? 93) with false. change (44 =? 44) with true. cbv iota.
    rewrite <- !app_assoc, skip_ws_newline_indent.
    unfold encode_string at 1. cbn [app].
    rewrite skip_ws_stop by reflexivity.
    specialize (IH y (S fuel) Hxs).
    unfold encode_string at 1 in IH. cbn [app] in IH.
    rewrite IH by (cbn [List.length] in Hf; lia). reflexivity.
Qed.

(** An array of strings, as [dump] writes it. *)
Lemma scan_once_strings (level : nat) (xs : list pystr) (fuel : nat)
    (rest : pystr) :
  Forall text xs ->
  (List.length xs + 3 <= fuel)%nat ->
  scan_once fuel (dump level (Arr (List.map Str xs)) ++ rest)
  = Some (Arr (List.map Str xs), rest).
Proof.
  intros Ht Hf. destruct fuel as [|fuel]; [lia|].
  destruct xs as [|x xs].
  - cbn [List.map dump]. change (lit "[]") with [91; 93]. cbn [app].
    rewrite scan_once_array. rewrite skip_ws_stop by reflexivity.
    reflexivity.
  - rewrite dump_strings. cbn [app]. rewrite scan_once_array.
    rewrite <- app_assoc, skip_ws_newline_indent.
    unfold encode_string at 1. cbn [app].
    rewrite skip_ws_stop by reflexivity.
    change (34 =? 93) with false. cbv iota.
    assert (Hf' : (List.length xs + 2 <= fuel)%nat)
      by (cbn [List.length] in Hf; lia).
    pose proof (scan_items_strings (S level) level rest Ht Hf') as E.
    unfold encode_string at 1 in E. cbn [app] in E.
    rewrite <- !app_assoc in E. rewrite <- !app_assoc.
    cbn [app] in *. now rewrite E.
Qed.

End LoadFacts.
Section RoundTripFacts.

Import Json LedgerSpec ASDDSeleniumDownloader.

Local Open Scope N_scope.

(** The text of an object of two members. *)
Lemma dump_two_members (k1 k2 : pystr) (a b : Json.value) :
  dump 0 (Obj [(k1, a); (k2, b)])
  = 123 :: newline_indent 1 ++ encode_string k1
    ++ 58 :: 32 :: dump 1 a
    ++ 44 :: newline_indent 1 ++ encode_string k2
    ++ 58 :: 32 :: dump 1 b
    ++ newline_indent 0 ++ [125].
Proof.
  cbn [dump].
  change (lit "{") with [123]. change (lit "}") with [125].
  change (lit ": ") with [58; 32]. change (lit ",") with [44].
  cbn [app]. rewrite <- !app_assoc. cbn [app]. rewrite <- !app_assoc.
  reflexivity.
Qed.

Lemma length_dump_strings (level : nat) (xs : list pystr) :
  (List.length xs <= List.length (dump level (Arr (List.map Str xs))))%nat.
Proof.
  destruct xs as [|x xs]; [cbn; lia|].
  rewrite dump_strings. cbn [List.length]. rewrite !length_app.
  assert (List.length xs
          <= List.length
               (flat_map
                  (fun y => 44%N :: newline_indent (S level) ++ encode_string y)
                  xs))%nat.
  { induction xs as [|y ys IH]; [reflexivity|].
    cbn [flat_map List.length app]. rewrite length_app.
    apply le_n_S, (Nat.le_trans _ _ _ IH), Nat.le_add_l. }
  cbn [List.length]. lia.
Qed.

Local Ltac flat := repeat (progress (cbn [app]; rewrite <- ?app_assoc)).

Lemma skip_ws_dump_arr (level : nat) (vs : list Json.value) (rest : pystr) :
  skip_ws (dump level (Arr vs) ++ rest) = dump level (Arr vs) ++ rest.
Proof. destruct vs; reflexivity. Qed.

(** The parser on the text of a progress, and on what follows it. *)
Lemma scan_once_progress (p : Progress) (fuel : nat) (rest : pystr) :
  Forall text (completed p) -> Forall text (failed_keys p) ->
  (List.length (completed p) + List.length (failed_keys p) + 6 <= fuel)%nat ->
  scan_once fuel (dumps (to_json p) ++ rest) = Some (to_json p, rest).
Proof.
  intros Hc Hf Hfuel.
  destruct fuel as [|[|[|f]]]; [lia | lia | lia |].
  unfold dumps, to_json. rewrite dump_two_members. flat.
  rewrite scan_once_object, skip_ws_newline_indent.
  unfold encode_string at 1. flat.
  rewrite skip_ws_stop by reflexivity.
  change (34 =? 125) with false. cbv iota.
  rewrite scan_members_S, scanstring_encode by reflexivity.
  rewrite skip_ws_stop by reflexivity.
  change (58 =? 58) with true. cbv iota.
  change (skip_ws (32 :: ?t)) with (skip_ws t).
  rewrite skip_ws_dump_arr, (scan_once_strings 1 _ Hc) by lia.
  rewrite skip_ws_stop by reflexivity.
  change (44 =? 125) with false. change (44 =? 44) with true. cbv iota.
  rewrite skip_ws_newline_indent.
  unfold encode_string at 1. flat.
  rewrite skip_ws_stop by reflexivity.
  rewrite scan_members_S, scanstring_encode by reflexivity.
  rewrite skip_ws_stop by reflexivity.
  change (58 =? 58) with true. cbv iota.
  change (skip_ws (32 :: ?t)) with (skip_ws t).
  rewrite skip_ws_dump_arr, (scan_once_strings 1 _ Hf) by lia.
  rewrite skip_ws_newline_indent, skip_ws_stop by reflexivity.
  reflexivity.
Qed.

(** [json.loads(json.dumps(progress, indent=2))] *)
Lemma loads_dumps_progress (p : Progress) :
  Forall text (completed p) -> Forall text (failed_keys p) ->
  loads (dumps (to_json p)) = Some (to_json p).
Proof.
  intros Hc Hf. unfold loads.
  assert (Hs : skip_ws (dumps (to_json p)) = dumps (to_json p))
    by (unfold dumps, to_json; now rewrite dump_two_members).
  rewrite Hs. rewrite <- (app_nil_r (dumps (to_json p))) at 2.
  rewrite (scan_once_progress p _ Hc Hf); [reflexivity|].
  unfold dumps, to_json. rewrite dump_two_members.
  repeat (progress (cbn [List.length]; rewrite ?length_app)).
  pose proof (length_dump_strings 1 (completed p)).
  pose proof (length_dump_strings 1 (failed_keys p)).
  cbn [List.length]. lia.
Qed.

End RoundTripFacts.

(** ** The document of a progress *)

Section ProgressFacts.

Import Json LedgerSpec ASDDSeleniumDownloader Invariants.

Local Open Scope N_scope.

Lemma strings_map_Str (l : list pystr) : strings (List.map Str l) = Some l.
Proof.
  induction l as [|x l IH]; [reflexivity|]. cbn [List.map strings].
  now rewrite IH.
Qed.

(** The progress a document written by [to_json] stands for. *)
Lemma of_json_to_json (p : Progress) : of_json (to_json p) = Some p.
Proof.
  destruct p as [c f]. unfold of_json, to_json.
  cbn [lookup completed failed_keys].
  change (PyStr.eqb (lit "completed") (lit "completed")) with true.
  change (PyStr.eqb (lit "completed") (lit "failed")) with false.
  change (PyStr.eqb (lit "failed") (lit "failed")) with true.
  cbv iota. now rewrite !strings_map_Str.
Qed.

Local Ltac each := repeat (apply Forall_cons || apply Forall_nil).

Lemma plain_hexdigit (d : N) : d < 16 -> plain (hexdigit d).
Proof.
  intros H. right. unfold hexdigit. destruct (N.ltb_spec d 10); lia.
Qed.

Lemma plain_hex4 (n : N) : Forall plain (hex4 n).
Proof.
  unfold hex4. each; apply plain_hexdigit, N.mod_lt; discriminate.
Qed.

Lemma plain_escape_char (c : N) : Forall plain (escape_char c).
Proof.
  assert (P92 : plain 92) by (right; lia).
  assert (P117 : plain 117) by (right; lia).
  unfold escape_char.
  repeat match goal with
         | |- context [if ?a =? ?b then _ else _] =>
             destruct (N.eqb_spec a b) as [->|?];
             [each; try assumption; right; lia|]
         end.
  destruct ((32 <=? c) && (c <=? 126)) eqn:E.
  { apply andb_true_iff in E. destruct E as [L U].
    apply N.leb_le in L, U. each. right. lia. }
  destruct (c <? 65536).
  - do 2 (apply Forall_cons; [assumption|]). apply plain_hex4.
  - cbv zeta. apply Forall_app. split;
      do 2 (apply Forall_cons; [assumption|]); apply plain_hex4.
Qed.

Lemma plain_encode_string (s : pystr) : Forall plain (encode_string s).
Proof.
  unfold encode_string. apply Forall_cons; [right; lia|].
  apply Forall_app. split; [|each; right; lia].
  induction s as [|c s IH]; [apply Forall_nil|].
  cbn [flat_map]. apply Forall_app. split; [apply plain_escape_char|apply IH].
Qed.

Lemma plain_newline_indent (level : nat) : Forall plain (newline_indent level).
Proof.
  unfold newline_indent. apply Forall_cons; [now left|].
  induction (2 * level)%nat as [|k IH]; [apply Forall_nil|].
  apply Forall_cons; [right; lia | exact IH].
Qed.

Lemma plain_dump_strings (level : nat) (xs : list pystr) :
  Forall plain (dump level (Arr (List.map Str xs))).
Proof.
  destruct xs as [|x xs].
  - cbn [List.map dump]. change (lit "[]") with [91; 93]. each; right; lia.
  - rewrite dump_strings. apply Forall_cons; [right; lia|].
    repeat (apply Forall_app; split);
      try apply plain_newline_indent; try apply plain_encode_string.
    + induction xs as [|y ys IH]; [apply Forall_nil|].
      cbn [flat_map]. apply Forall_app. split; [|exact IH].
      apply Forall_cons; [right; lia|]. apply Forall_app.
      split; [apply plain_newline_indent | apply plain_encode_string].
    + each. right. lia.
Qed.

Lemma plain_dumps_progress (p : Progress) :
  Forall plain (dumps (to_json p)).
Proof.
  unfold dumps, to_json. rewrite dump_two_members.
  repeat first
    [ apply plain_newline_indent
    | apply plain_encode_string
    | apply plain_dump_strings
    | apply Forall_nil
    | apply Forall_app; split
    | apply Forall_cons; [right; lia|] ].
Qed.

(** Strings of characters, by computation. *)
Lemma Forall_text (l : list pystr) :
  forallb (forallb scalar) l = true -> Forall text l.
Proof.
  induction l as [|x l IH]; intros H; [apply Forall_nil|].
  cbn [forallb] in H. apply andb_true_iff in H. destruct H as [Hx Hl].
  apply Forall_cons; [exact Hx | exact (IH Hl)].
Qed.

End ProgressFacts.

(* ================================================================== *)
(** * The counters and the ledger of the resumable downloader *)

Section Accounting.

Import ASDDSeleniumDownloader LedgerSpec Invariants.

Context {B : Browser}.

Lemma accounts_trans s1 s2 s3 :
  accounts_rel s1 s2 -> accounts_rel s2 s3 -> accounts_rel s1 s3.
Proof.
  intros (e1 & c1 & f1 & T1 & C1 & F1 & D1 & X1 & P1)
         (e2 & c2 & f2 & T2 & C2 & F2 & D2 & X2 & P2).
  exists (e1 ++ e2), (c1 ++ c2), (f1 ++ f2).
  rewrite T2, T1, C2, C1, F2, F1, D2, D1, X2, X1, !length_app, <- !app_assoc.
  repeat split; try lia.
  rewrite fetches_app.
  apply (Permutation_trans (Permutation_app P1 P2)).
  rewrite <- !app_assoc. apply Permutation_app_head.
  rewrite !app_assoc. apply Permutation_app_tail, Permutation_app_comm.
Qed.

Lemma accounts_quiet s s' : quiet s s' -> accounts_rel s s'.
Proof.
  intros (evs & T & N & P & _ & D & X). exists evs, [], [].
  rewrite T, P, D, X, !app_nil_r, (neutral_fetches _ N).
  repeat split; auto.
Qed.

Lemma accounts_leaf d a p : preserves accounts_rel (download_part d a p).
Proof.
  intros s. rewrite download_part_unfold.
  destruct (PyStr.mem (key_of d a (name p)) (completed (progress s))).
  - exists [EvSkip d a (name p)], [], []. cbn. rewrite !app_nil_r.
    repeat split; auto.
  - cbn [snd].
    pose proof (leaf_end_trace d a p s) as T.
    pose proof (leaf_end_progress d a p s) as P.
    pose proof (leaf_end_stats d a p s) as X.
    pose proof (fetches_leaf_events d a p s) as E.
    destruct (fetch_succeeds p s).
    + eexists _, [key_of d a (name p)], []. split; [exact T|].
      rewrite P, X, E. cbn [completed failed_keys mark_completed downloaded
        failed add_downloaded app List.length].
      rewrite !app_nil_r. repeat split; auto.
    + eexists _, [], [key_of d a (name p)]. split; [exact T|].
      rewrite P, X, E. cbn [completed failed_keys mark_failed downloaded
        failed add_failed app List.length].
      rewrite !app_nil_r. repeat split; auto.
Qed.

End Accounting.

(* ================================================================== *)
(** * What makes a run raise *)

Section SeleniumReturns.

Import ASDDSeleniumDownloader Invariants.

Context {B : Browser}.

Lemma returns_call {A} (f : Env -> res A * Env) :
  (forall e, is_ok (fst (f e)) = true) -> returns (call f).
Proof.
  intros H s. unfold call. specialize (H (env s)).
  destruct (f (env s)) as [r e]. exact H.
Qed.

Lemma returns_selenium_get_districts : returns get_districts.
Proof. apply returns_try_except. intros e. apply returns_ret. Qed.

Lemma returns_selenium_get_constituencies v : returns (get_constituencies v).
Proof. apply returns_try_except. intros e. apply returns_ret. Qed.

Lemma returns_selenium_get_parts v : returns (get_parts v).
Proof. apply returns_try_except. intros e. apply returns_ret. Qed.

Lemma returns_download_part_data d a v n :
  returns (download_part_data d a v n).
Proof.
  unfold download_part_data.
  apply returns_bind; [apply returns_modify|]. intros _.
  apply returns_try_except. intros e.
  apply returns_bind; [apply returns_modify | intros _; apply returns_ret].
Qed.

Section Surroundings.

Hypothesis write_ok : writes_complete.

Lemma returns_save_progress : returns save_progress.
Proof.
  intros s. unfold save_progress, bind, Eff.get, modify. cbn [fst snd].
  match goal with
  | |- context [store_text ?t ?e] =>
      pose proof (write_ok t e) as H; destruct (store_text t e) as [o e']
  end.
  cbn [fst] in H. now subst o.
Qed.

Lemma returns_selenium_download_part d a p : returns (download_part d a p).
Proof.
  unfold download_part.
  apply returns_bind; [apply returns_get|]. intros s0.
  destruct (PyStr.mem _ _); [apply returns_modify|].
  apply returns_bind; [apply returns_download_part_data|]. intros ok.
  apply returns_bind; [apply returns_modify|]. intros _.
  apply returns_bind; [|intros _; apply returns_modify].
  apply returns_save_progress.
Qed.

Hypothesis start_ok : forall e, is_ok (fst (start_driver e)) = true.
Hypothesis wait_ok : forall e, is_ok (fst (implicitly_wait e)) = true.
Hypothesis quit_ok : forall e, is_ok (fst (quit_driver e)) = true.
Hypothesis mkdir_ok : forall p e, is_ok (fst (make_dir p e)) = true.
Hypothesis open_ok : forall u e, is_ok (fst (open_page u e)) = true.

Lemma returns_selenium_do_mkdir p : returns (do_mkdir p).
Proof.
  unfold do_mkdir.
  apply returns_bind; [apply returns_modify|]. intros _.
  apply returns_call, mkdir_ok.
Qed.

Lemma returns_selenium_download_ac d dir ac : returns (download_ac d dir ac).
Proof.
  unfold download_ac.
  apply returns_bind; [apply returns_selenium_do_mkdir|]. intros _.
  apply returns_bind; [apply returns_selenium_get_parts|]. intros parts.
  apply returns_bind; [apply returns_modify|]. intros _.
  apply returns_bind.
  { apply returns_for_each. intros p. apply returns_selenium_download_part. }
  intros _.
  apply returns_bind; [apply returns_get|]. intros s0.
  apply returns_bind; [apply returns_modify|]. intros _.
  apply returns_bind; [apply returns_call, open_ok|]. intros _.
  apply returns_modify.
Qed.

Lemma returns_selenium_download_district district :
  returns (download_district district).
Proof.
  unfold download_district.
  apply returns_bind; [apply returns_get|]. intros s0.
  apply returns_bind; [apply returns_selenium_do_mkdir|]. intros _.
  apply returns_bind; [apply returns_selenium_get_constituencies|].
  intros acs.
  apply returns_bind; [apply returns_modify|]. intros _.
  apply returns_for_each. intros ac. apply returns_selenium_download_ac.
Qed.

Lemma returns_selenium_download_all t : returns (download_all t).
Proof.
  unfold download_all. apply returns_try_finally.
  - apply returns_bind.
    { unfold setup_driver.
      apply returns_bind; [apply returns_call, start_ok|]. intros _.
      apply returns_bind; [apply returns_modify|]. intros _.
      apply returns_call, wait_ok. }
    intros _.
    apply returns_bind; [apply returns_selenium_get_districts|].
    intros districts.
    apply returns_for_each. intros d.
    apply returns_selenium_download_district.
  - unfold close_driver.
    apply returns_bind; [apply returns_get|]. intros s0.
    destruct (driver s0); [apply returns_call, quit_ok | apply returns_ret].
Qed.

End Surroundings.

End SeleniumReturns.

Section DataReturns.

Import ASDDDownloader Invariants.

Context {W : World}.

Lemma returns_data_sleep q : returns (sleep q).
Proof. apply returns_modify. Qed.

Lemma returns_data_get_districts : returns get_districts.
Proof. apply returns_try_except. intros e. apply returns_ret. Qed.

Lemma returns_data_get_constituencies c : returns (get_constituencies c).
Proof. apply returns_try_except. intros e. apply returns_ret. Qed.

Lemma returns_data_get_parts d a : returns (get_parts d a).
Proof. apply returns_try_except. intros e. apply returns_ret. Qed.

Lemma returns_download_file url p : returns (download_file url p).
Proof. apply returns_try_except. intros e. apply returns_ret. Qed.

Lemma returns_scrape_direct_links : returns scrape_direct_links.
Proof. apply returns_try_except. intros e. apply returns_ret. Qed.

Lemma named_is_object v : named v = true -> is_object v = true.
Proof. now destruct v. Qed.

(** The two loop bodies on an item that is an object: the calls of [get]
    are lookups. *)
Lemma download_part_object d a dir members s :
  download_part d a dir (Json.Obj members) s
  = (ok <- download_file
             (base_url s ++ lit "/asd_download.php?district=" ++ d
              ++ lit "&ac=" ++ py_str a ++ lit "&part="
              ++ py_str (part_no_of members))
             (joinpath dir
                (lit "ASDD_Part_" ++ py_str (part_no_of members)
                 ++ lit ".pdf")) ;;
     modify (set_stats (count_download ok)) ;;;
     sleep (1 # 2)) s.
Proof. reflexivity. Qed.

Lemma download_part_other d a dir part s :
  is_object part = false ->
  download_part d a dir part s = (Raise AttributeError, s).
Proof. now destruct part. Qed.

Lemma download_ac_named d dir members nm s :
  ac_name_of members = Json.Str nm ->
  download_ac d dir (Json.Obj members) s
  = (do_mkdir (joinpath dir (sanitize_filename nm)) false ;;;
     parts <- get_parts d (ac_code_of members) ;;
     modify (set_stats (add_parts (List.length parts))) ;;;
     for_each parts
       (download_part d (ac_code_of members)
          (joinpath dir (sanitize_filename nm)))) s.
Proof.
  intros H. unfold download_ac, py_get, bind at 1 2 3 4 5, ret.
  fold (member (lit "text") (Json.Str (lit "Unknown")) members).
  fold (member (lit "name")
          (member (lit "text") (Json.Str (lit "Unknown")) members) members).
  fold (ac_name_of members). rewrite H. reflexivity.
Qed.

Lemma download_ac_other d dir ac s :
  named ac = false ->
  download_ac d dir ac s = (Raise AttributeError, s).
Proof.
  destruct ac as [| | | | |members]; try reflexivity.
  unfold named. intros H.
  unfold download_ac, py_get, bind at 1 2 3 4 5, ret.
  fold (member (lit "text") (Json.Str (lit "Unknown")) members).
  fold (member (lit "name")
          (member (lit "text") (Json.Str (lit "Unknown")) members) members).
  fold (ac_name_of members).
  now destruct (ac_name_of members).
Qed.

Lemma returns_data_download_part d a dir part :
  is_object part = true -> returns (download_part d a dir part).
Proof.
  destruct part as [| | | | |members]; try discriminate. intros _ s.
  rewrite download_part_object. unfold bind.
  match goal with
  | |- context [download_file ?u ?p s] =>
      pose proof (returns_download_file u p s) as H;
      destruct (download_file u p s) as [[ok|e] s1]
  end; [reflexivity | discriminate H].
Qed.

(** What [try_endpoints] returns is the empty list or the list of an
    answer of the site. *)
Lemma try_endpoints_items (P : list Json.value -> Prop) :
  P [] ->
  (forall url data n r items,
     fst (session_post url data n) = Ok r ->
     json r = Ok (Json.Arr items) -> P items) ->
  forall eps data s found,
    fst (try_endpoints eps data s) = Ok found -> P found.
Proof.
  intros Hnil Hpost eps data.
  induction eps as [|ep eps IH]; intros s found; cbn [try_endpoints].
  - cbn. intros [= <-]. exact Hnil.
  - unfold bind at 1, try_except, attempt_post, bind, do_post.
    pose proof (Hpost ep data (net s)) as Hp.
    destruct (session_post ep data (net s)) as [[r|e] n]; cbn [fst] in *.
    + specialize (Hp r).
      destruct (status_code r =? 200)%N; [|apply IH].
      destruct (json r) as [[| | | |[|x xs]|]|e]; cbn; try apply IH.
      intros [= <-]. now apply Hp.
    + apply IH.
Qed.

Section Lists.

Hypothesis lists_ok : well_formed.

Lemma get_constituencies_named code s l :
  fst (get_constituencies code s) = Ok l -> forallb named l = true.
Proof.
  unfold get_constituencies, try_except, bind, Eff.get.
  pose proof (try_endpoints_items (fun l => forallb named l = true)
                eq_refl lists_ok (constituency_endpoints (base_url s))
                [(lit "district", Json.Str code)] s) as H.
  destruct (try_endpoints _ _ s) as [[found|e] s1]; cbn [fst] in *.
  - intros [= <-]. now apply H.
  - intros [= <-]. reflexivity.
Qed.

Lemma get_parts_named d a s l :
  fst (get_parts d a s) = Ok l -> forallb named l = true.
Proof.
  unfold get_parts, try_except, bind, Eff.get.
  pose proof (try_endpoints_items (fun l => forallb named l = true)
                eq_refl lists_ok (part_endpoints (base_url s))
                [(lit "district", Json.Str d); (lit "ac", a)] s) as H.
  destruct (try_endpoints _ _ s) as [[found|e] s1]; cbn [fst] in *.
  - intros [= <-]. now apply H.
  - intros [= <-]. reflexivity.
Qed.

Hypothesis mkdir_ok : forall p b f, is_ok (fst (path_mkdir p b f)) = true.

Lemma returns_data_do_mkdir p b : returns (do_mkdir p b).
Proof.
  intros s. unfold do_mkdir. specialize (mkdir_ok p b (fs s)).
  destruct (path_mkdir p b (fs s)) as [r f]. exact mkdir_ok.
Qed.

Lemma returns_data_download_ac d dir ac :
  named ac = true -> returns (download_ac d dir ac).
Proof.
  destruct ac as [| | | | |members]; try discriminate.
  unfold named. destruct (ac_name_of members) as [| | |nm| |] eqn:E;
    try discriminate.
  intros _ s. rewrite (download_ac_named d dir members s E). revert s.
  apply returns_bind; [apply returns_data_do_mkdir|]. intros _.
  apply returns_bind_with
    with (P := fun l => forallb named l = true);
    [apply returns_data_get_parts | intros s l; apply get_parts_named|].
  intros l Hl.
  apply returns_bind; [apply returns_modify|]. intros _.
  apply returns_for_each_Forall, Forall_forall. intros p Hp.
  apply returns_data_download_part, named_is_object.
  rewrite forallb_forall in Hl. now apply Hl.
Qed.

Lemma returns_data_download_district district :
  returns (download_district district).
Proof.
  unfold download_district.
  apply returns_bind; [apply returns_get|]. intros s0.
  apply returns_bind; [apply returns_data_do_mkdir|]. intros _.
  apply returns_bind_with
    with (P := fun l => forallb named l = true);
    [apply returns_data_get_constituencies
    | intros s l; apply get_constituencies_named|].
  intros acs Hl.
  apply returns_bind; [apply returns_modify|]. intros _.
  apply returns_for_each_Forall, Forall_forall. intros ac Hac.
  apply returns_data_download_ac.
  rewrite forallb_forall in Hl. now apply Hl.
Qed.

Lemma returns_data_download_all : returns download_all.
Proof.
  unfold download_all.
  apply returns_bind; [apply returns_data_get_districts|].
  intros [|d ds]; [apply returns_scrape_direct_links|].
  apply returns_bind; [apply returns_modify|]. intros _.
  apply returns_for_each. intros x. apply returns_data_download_district.
Qed.

End Lists.

End DataReturns.

(* ================================================================== *)
(** * The counter of parts of the resumable downloader *)

Section VisitsFacts.

Import ASDDSeleniumDownloader LedgerSpec Invariants.

Context {B : Browser}.

Lemma still_refl s : still s s.
Proof. reflexivity. Qed.

Lemma still_trans s1 s2 s3 : still s1 s2 -> still s2 s3 -> still s1 s3.
Proof. unfold still. congruence. Qed.

Lemma still_call {A} (f : Env -> res A * Env) : preserves still (call f).
Proof. intros s. unfold call. now destruct (f (env s)). Qed.

Lemma still_do_mkdir p : preserves still (do_mkdir p).
Proof.
  unfold do_mkdir.
  apply preserves_bind; [apply still_trans | | intros _; apply still_call].
  apply preserves_modify. intros s. reflexivity.
Qed.

Lemma still_get_districts : preserves still get_districts.
Proof.
  unfold get_districts.
  apply preserves_try_except; [apply still_trans | |
    intros _; apply preserves_ret, still_refl].
  apply preserves_bind; [apply still_trans | apply preserves_get, still_refl|].
  intros s0.
  apply preserves_bind; [apply still_trans | apply still_call|].
  intros options.
  apply preserves_bind; [apply still_trans | |
    intros _; apply preserves_ret, still_refl].
  apply preserves_modify. intros s. reflexivity.
Qed.

Lemma still_get_constituencies v : preserves still (get_constituencies v).
Proof.
  unfold get_constituencies.
  apply preserves_try_except; [apply still_trans | |
    intros _; apply preserves_ret, still_refl].
  apply preserves_bind; [apply still_trans | apply still_call|].
  intros options. apply preserves_ret, still_refl.
Qed.

Lemma still_get_parts v : preserves still (get_parts v).
Proof.
  unfold get_parts.
  apply preserves_try_except; [apply still_trans | |
    intros _; apply preserves_ret, still_refl].
  apply preserves_bind; [apply still_trans | apply still_call|].
  intros [options|]; apply preserves_ret, still_refl.
Qed.

Lemma still_setup_driver : preserves still setup_driver.
Proof.
  unfold setup_driver.
  apply preserves_bind; [apply still_trans | apply still_call|].
  intros _.
  apply preserves_bind; [apply still_trans | | intros _; apply still_call].
  apply preserves_modify. intros s. reflexivity.
Qed.

Lemma still_close_driver : preserves still close_driver.
Proof.
  unfold close_driver.
  apply preserves_bind; [apply still_trans | apply preserves_get, still_refl|].
  intros s0. destruct (driver s0);
    [apply still_call | apply preserves_ret, still_refl].
Qed.

Lemma visits_refl s : visits_rel s s.
Proof. exists []. rewrite app_nil_r. cbn. split; [reflexivity | lia]. Qed.

Lemma visits_trans s1 s2 s3 :
  visits_rel s1 s2 -> visits_rel s2 s3 -> visits_rel s1 s3.
Proof.
  intros (e1 & T1 & P1) (e2 & T2 & P2). exists (e1 ++ e2).
  rewrite T2, T1, P2, P1, leaves_app, length_app, app_assoc.
  split; [reflexivity | lia].
Qed.

Lemma visits_calm s s' : quiet s s' -> still s s' -> visits_rel s s'.
Proof.
  intros (evs & T & N & _) H. exists evs. split; [exact T|].
  rewrite (neutral_leaves _ N), H. cbn. lia.
Qed.

Lemma visits_cut_of s s' : visits_rel s s' -> visits_cut_rel s s'.
Proof. intros (evs & T & P). exists evs. split; [exact T | lia]. Qed.

Lemma visits_then_cut s1 s2 s3 :
  visits_rel s1 s2 -> visits_cut_rel s2 s3 -> visits_cut_rel s1 s3.
Proof.
  intros (e1 & T1 & P1) (e2 & T2 & P2). exists (e1 ++ e2).
  rewrite T2, T1, leaves_app, length_app, app_assoc.
  split; [reflexivity | lia].
Qed.

Lemma visits_silent s1 s2 s3 :
  visits_rel s1 s2 -> silent s2 s3 -> visits_rel s1 s3.
Proof.
  intros (evs & T & P) (T' & _ & _ & X). exists evs.
  rewrite T', X. now split.
Qed.

Lemma visits_cut_silent s1 s2 s3 :
  visits_cut_rel s1 s2 -> silent s2 s3 -> visits_cut_rel s1 s3.
Proof.
  intros (evs & T & P) (T' & _ & _ & X). exists evs.
  rewrite T', X. now split.
Qed.

(** One leaf: one event of the leaves, and the counter of parts is left to
    the loop. *)
Lemma download_part_visit d a p s :
  exists evs,
    trace (snd (download_part d a p s)) = trace s ++ evs
    /\ List.length (leaves evs) = 1
    /\ still s (snd (download_part d a p s)).
Proof.
  rewrite download_part_unfold.
  destruct (PyStr.mem (key_of d a (name p)) (completed (progress s))).
  - exists [EvSkip d a (name p)]. repeat split.
  - cbn [snd]. exists (leaf_events d a p s).
    split; [apply leaf_end_trace|].
    split; [now rewrite leaves_leaf_events|]. unfold still.
    rewrite leaf_end_stats. now destruct (fetch_succeeds p s).
Qed.

(** The loop over the parts: every part is met when the loop ends, and no
    more than the parts when a write of the file ends it. *)
Lemma download_parts_visit d a : forall l s,
  exists evs,
    trace (snd (for_each l (download_part d a) s)) = trace s ++ evs
    /\ still s (snd (for_each l (download_part d a) s))
    /\ List.length (leaves evs) <= List.length l
    /\ (is_ok (fst (for_each l (download_part d a) s)) = true ->
        List.length (leaves evs) = List.length l).
Proof.
  induction l as [|p l IH]; intros s.
  - exists []. rewrite app_nil_r. repeat split. cbn. lia.
  - cbn [for_each]. unfold bind.
    destruct (download_part_visit d a p s) as (e1 & T1 & L1 & S1).
    destruct (download_part d a p s) as [[[]|x] s1]; cbn [fst snd] in *.
    + destruct (IH s1) as (e2 & T2 & S2 & L2 & E2).
      exists (e1 ++ e2). rewrite T2, T1, leaves_app, length_app, L1.
      rewrite app_assoc. cbn [List.length]. repeat split.
      * unfold still in *. congruence.
      * lia.
      * intros H. rewrite (E2 H). reflexivity.
    + exists e1. rewrite L1. cbn [List.length]. repeat split; auto.
      * lia.
      * discriminate.
Qed.

(** ** The controller, for what a loop over parts keeps when it is left *)

Section Left.

Variable F : St -> St -> Prop.

Hypothesis R_F : forall s s', visits_rel s s' -> F s s'.
Hypothesis R_then_F :
  forall s1 s2 s3, visits_rel s1 s2 -> F s2 s3 -> F s1 s3.
Hypothesis F_silent : forall s1 s2 s3, F s1 s2 -> silent s2 s3 -> F s1 s3.
Hypothesis loop : forall d a l s,
  let run :=
    for_each l (download_part d a) (set_stats (add_parts (List.length l)) s)
  in
  is_ok (fst run) = false -> F s (snd run).

Lemma visits_of {A} (c : M St A) :
  preserves quiet c -> preserves still c -> keeps visits_rel F c.
Proof.
  intros H1 H2. apply keeps_of_preserves with (Q := visits_rel).
  - auto.
  - exact R_F.
  - intros s. apply visits_calm; [apply H1 | apply H2].
Qed.

Lemma visits_download_ac d dir ac :
  keeps visits_rel F (download_ac d dir ac).
Proof.
  unfold download_ac.
  apply keeps_bind; [apply visits_trans | apply R_then_F | |].
  { apply visits_of; [apply quiet_do_mkdir | apply still_do_mkdir]. }
  intros _.
  apply keeps_bind; [apply visits_trans | apply R_then_F | |].
  { apply visits_of; [apply quiet_get_parts | apply still_get_parts]. }
  intros l. apply keeps_intro. intros s r s'.
  unfold bind at 1. unfold modify at 1. unfold bind at 1.
  destruct (download_parts_visit d (name ac) l
              (set_stats (add_parts (List.length l)) s))
    as (evs & T & St & _ & L).
  pose proof (loop d (name ac) l s) as Hl. cbv zeta in Hl.
  destruct (for_each l (download_part d (name ac))
              (set_stats (add_parts (List.length l)) s)) as [[[]|x] s1];
    cbn [fst snd is_ok] in *; [|intros [= <- <-]; now apply Hl].
  assert (V : visits_rel s s1).
  { exists evs. split; [exact T|]. unfold still in St.
    rewrite St, (L eq_refl). reflexivity. }
  clear - V R_F R_then_F.
  assert (K : keeps visits_rel F
                (s0 <- get ;;
                 modify (emit (EvOpen (url s0))) ;;;
                 call (open_page (url s0)) ;;; sleep 2)).
  { apply keeps_bind; [apply visits_trans | apply R_then_F | |].
    { apply keeps_get, visits_refl. }
    intros s0.
    apply keeps_bind; [apply visits_trans | apply R_then_F | |].
    { apply visits_of; apply preserves_modify; intros s2;
        [now apply quiet_emit | reflexivity]. }
    intros _.
    apply keeps_bind; [apply visits_trans | apply R_then_F | |].
    { apply visits_of; [apply quiet_call | apply still_call]. }
    intros _. apply visits_of; [apply quiet_sleep|].
    intros s2. reflexivity. }
  specialize (K s1). intros E. rewrite E in K. cbn [fst snd] in K.
  destruct r as [u|x].
  - eapply visits_trans; eassumption.
  - eapply R_then_F; eassumption.
Qed.

Lemma visits_download_district district :
  keeps visits_rel F (download_district district).
Proof.
  unfold download_district.
  apply keeps_bind; [apply visits_trans | apply R_then_F | |].
  { apply keeps_get, visits_refl. }
  intros s0.
  apply keeps_bind; [apply visits_trans | apply R_then_F | |].
  { apply visits_of; [apply quiet_do_mkdir | apply still_do_mkdir]. }
  intros _.
  apply keeps_bind; [apply visits_trans | apply R_then_F | |].
  { apply visits_of;
      [apply quiet_get_constituencies | apply still_get_constituencies]. }
  intros acs.
  apply keeps_bind; [apply visits_trans | apply R_then_F | |].
  { apply visits_of; apply preserves_modify; intros s;
      [now apply quiet_set_stats | reflexivity]. }
  intros _.
  apply keeps_for_each;
    [apply visits_refl | apply visits_trans | apply R_then_F|].
  intros ac. apply visits_download_ac.
Qed.

Lemma visits_download_all t : keeps visits_rel F (download_all t).
Proof.
  unfold download_all.
  apply keeps_try_finally with (Q := silent).
  - apply visits_silent.
  - exact F_silent.
  - exact R_F.
  - apply keeps_bind; [apply visits_trans | apply R_then_F | |].
    { apply visits_of;
        [apply quiet_setup_driver | apply still_setup_driver]. }
    intros _.
    apply keeps_bind; [apply visits_trans | apply R_then_F | |].
    { apply visits_of;
        [apply quiet_get_districts | apply still_get_districts]. }
    intros districts.
    apply keeps_for_each;
      [apply visits_refl | apply visits_trans | apply R_then_F|].
    intros d. apply visits_download_district.
  - apply silent_close_driver.
Qed.

End Left.

(** A loop over parts that is left has counted all its parts and met some
    of them. *)
Lemma visits_cut_loop d a l s :
  let run :=
    for_each l (download_part d a) (set_stats (add_parts (List.length l)) s)
  in
  is_ok (fst run) = false -> visits_cut_rel s (snd run).
Proof.
  cbv zeta. intros _.
  destruct (download_parts_visit d a l
              (set_stats (add_parts (List.length l)) s))
    as (evs & T & St & L & _).
  exists evs. split; [exact T|]. unfold still in St. rewrite St. cbn.
  lia.
Qed.

Lemma visits_cut_download_all t :
  keeps visits_rel visits_cut_rel (download_all t).
Proof.
  apply visits_download_all.
  - apply visits_cut_of.
  - apply visits_then_cut.
  - apply visits_cut_silent.
  - apply visits_cut_loop.
Qed.

(** When every write of the progress file completes, no loop over parts is
    left. *)
Lemma visits_whole_loop (write_ok : writes_complete) d a l s :
  let run :=
    for_each l (download_part d a) (set_stats (add_parts (List.length l)) s)
  in
  is_ok (fst run) = false -> visits_rel s (snd run).
Proof.
  cbv zeta. intros H.
  rewrite (@returns_for_each _ _ l _
             (returns_selenium_download_part write_ok d a)) in H.
  discriminate H.
Qed.

Lemma visits_whole_download_all (write_ok : writes_complete) t :
  keeps visits_rel visits_rel (download_all t).
Proof.
  apply visits_download_all.
  - auto.
  - apply visits_trans.
  - apply visits_silent.
  - apply (visits_whole_loop write_ok).
Qed.

End VisitsFacts.

(* ================================================================== *)
(** * Names: the keys of the ledger and the names of the files *)

Section NameFacts.

Import Spec.

Local Open Scope N_scope.

(** A list is cut at the first occurrence of a separator in one way. *)
Lemma cut_at_first (c : N) : forall (a a' r r' : pystr),
  ~ In c a -> ~ In c a' -> a ++ c :: r = a' ++ c :: r' -> a = a' /\ r = r'.
Proof.
  induction a as [|x a IH]; intros [|x' a'] r r' Ha Ha' E; cbn [app] in E.
  - injection E as ->. now split.
  - injection E as <- _. exfalso. apply Ha'. now left.
  - injection E as -> _. exfalso. apply Ha. now left.
  - injection E as <- E.
    destruct (IH a' r r') as [-> ->]; auto.
    + intros H. apply Ha. now right.
    + intros H. apply Ha'. now right.
Qed.

Lemma lstrip_fixed (s : pystr) :
  (forall c, hd_error s = Some c -> isspace c = false) -> lstrip s = s.
Proof.
  destruct s as [|c s]; [reflexivity|]. intros H. cbn [lstrip].
  now rewrite (H c eq_refl).
Qed.

Lemma strip_fixed (s : pystr) :
  (forall c, hd_error s = Some c -> isspace c = false) ->
  (forall c, hd_error (rev s) = Some c -> isspace c = false) ->
  strip s = s.
Proof.
  intros H1 H2. unfold strip, rstrip.
  rewrite (lstrip_fixed s H1), (lstrip_fixed (rev s) H2).
  apply rev_involutive.
Qed.

Lemma strip_idempotent (s : pystr) : strip (strip s) = strip s.
Proof.
  apply strip_fixed; intros c; [apply strip_first | apply strip_last].
Qed.

Lemma length_lstrip (s : pystr) : (List.length (lstrip s) <= List.length s)%nat.
Proof.
  destruct (lstrip_suffix s) as [p Hp]. rewrite Hp at 2.
  rewrite length_app. lia.
Qed.

Lemma length_strip (s : pystr) : (List.length (strip s) <= List.length s)%nat.
Proof.
  unfold strip, rstrip. rewrite length_rev.
  pose proof (length_lstrip (rev (lstrip s))) as H.
  rewrite length_rev in H. pose proof (length_lstrip s). lia.
Qed.

Lemma placeholder_fixed (c : N) :
  ~ In c ASDDDownloader.invalid_chars -> placeholder c = c.
Proof.
  intros H. unfold placeholder.
  destruct (existsb (N.eqb c) ASDDDownloader.invalid_chars) eqn:E;
    [|reflexivity].
  apply existsb_exists in E. destruct E as [x [Hx Hc]].
  apply N.eqb_eq in Hc. now subst x.
Qed.

Lemma map_placeholder_fixed (s : pystr) :
  (forall c, In c ASDDDownloader.invalid_chars -> ~ In c s) ->
  List.map placeholder s = s.
Proof.
  intros H. rewrite <- (map_id s) at 2. apply map_ext_in.
  intros c Hc. apply placeholder_fixed. intros Hi. exact (H c Hi Hc).
Qed.

End NameFacts.

(* ================================================================== *)
(** * The counters of the downloader over HTTP *)

Section LeadingFacts.

Import Invariants.

Context {A : Type} (f : A -> bool).

Lemma leading_length l : List.length (leading f l) <= List.length l.
Proof.
  induction l as [|x l IH]; cbn; [lia|]. destruct (f x); cbn; lia.
Qed.

Lemma leading_all l : forallb f l = true -> leading f l = l.
Proof.
  induction l as [|x l IH]; cbn; [reflexivity|].
  destruct (f x); cbn; [|discriminate]. intros H. now rewrite IH.
Qed.

Lemma leading_app l1 x l2 :
  forallb f l1 = true -> f x = false -> leading f (l1 ++ x :: l2) = l1.
Proof.
  intros H1 Hx. induction l1 as [|y l1 IH]; cbn in *.
  - now rewrite Hx.
  - destruct (f y); cbn in *; [|discriminate]. now rewrite IH.
Qed.

End LeadingFacts.

Section TallyFacts.

Import ASDDDownloader Spec Invariants.

Context {W : World}.

Lemma tally_refl s : tally_rel s s.
Proof. unfold tally_rel. lia. Qed.

Lemma tally_trans s1 s2 s3 :
  tally_rel s1 s2 -> tally_rel s2 s3 -> tally_rel s1 s3.
Proof. unfold tally_rel. lia. Qed.

Lemma tally_same_stats s s' : stats s' = stats s -> tally_rel s s'.
Proof. unfold tally_rel. intros ->. lia. Qed.

Lemma tally_cut_of s s' : tally_rel s s' -> tally_cut_rel s s'.
Proof. unfold tally_rel, tally_cut_rel. lia. Qed.

Lemma tally_then_cut s1 s2 s3 :
  tally_rel s1 s2 -> tally_cut_rel s2 s3 -> tally_cut_rel s1 s3.
Proof. unfold tally_rel, tally_cut_rel. lia. Qed.

Lemma stats_do_mkdir p b s : stats (snd (do_mkdir p b s)) = stats s.
Proof. unfold do_mkdir. now destruct (path_mkdir p b (fs s)). Qed.

Lemma stats_do_write p data s : stats (snd (do_write p data s)) = stats s.
Proof. unfold do_write. now destruct (write_file p data (fs s)). Qed.

Lemma stats_get_constituencies code s :
  stats (snd (get_constituencies code s)) = stats s.
Proof.
  destruct (get_constituencies_spec code s) as (j & l & s' & E & _ & _ & H & _).
  rewrite E. apply H.
Qed.

Lemma stats_get_parts d a s : stats (snd (get_parts d a s)) = stats s.
Proof.
  destruct (get_parts_spec d a s) as (j & l & s' & E & _ & _ & H & _).
  rewrite E. apply H.
Qed.

(** [download_file] leaves the counters to its caller, and the
    configuration of [self] as it is. *)
Lemma stats_download_file url p s :
  stats (snd (download_file url p s)) = stats s
  /\ asd_url (snd (download_file url p s)) = asd_url s
  /\ output_dir (snd (download_file url p s)) = output_dir s.
Proof.
  rewrite download_file_unfold.
  destruct (get_page_spec url default_max_retries s)
    as (j & _ & _ & (_ & Ha & Ho & _) & [_ Hst] & _).
  destruct (get_page url default_max_retries s) as [[response|e] s1];
    cbn [snd] in *; [|auto].
  assert (Hm : stats (snd (do_mkdir (parent p) true s1)) = stats s1
               /\ asd_url (snd (do_mkdir (parent p) true s1)) = asd_url s1
               /\ output_dir (snd (do_mkdir (parent p) true s1))
                  = output_dir s1).
  { unfold do_mkdir. now destruct (path_mkdir _ _ (fs s1)). }
  destruct (do_mkdir (parent p) true s1) as [[[]|e] s2]; cbn [snd] in *;
    [|intuition congruence].
  destruct response as [r|]; [|cbn [snd]; intuition congruence].
  assert (Hw : stats (snd (do_write p (content r) s2)) = stats s2
               /\ asd_url (snd (do_write p (content r) s2)) = asd_url s2
               /\ output_dir (snd (do_write p (content r) s2))
                  = output_dir s2).
  { unfold do_write. now destruct (write_file _ _ (fs s2)). }
  destruct (do_write p (content r) s2) as [[[]|e] s3]; cbn [snd] in *;
    intuition congruence.
Qed.

(** One part that is an object: it is counted as a download or as a
    failure. *)
Lemma download_part_counts d a dir members s :
  let s' := snd (download_part d a dir (Json.Obj members) s) in
  fst (download_part d a dir (Json.Obj members) s) = Ok tt
  /\ parts (stats s') = parts (stats s)
  /\ downloaded (stats s') + failed (stats s')
     = downloaded (stats s) + failed (stats s) + 1.
Proof.
  cbv zeta. rewrite download_part_object.
  unfold sleep, bind, modify.
  match goal with
  | |- context [download_file ?u ?p s] =>
      destruct (stats_download_file u p s) as (Hs & _);
      pose proof (returns_download_file u p s) as Hr;
      destruct (download_file u p s) as [[ok|e] s1]
  end; [|discriminate Hr].
  cbn [fst snd stats set_stats emit] in *. rewrite Hs.
  destruct ok; cbn [count_download parts downloaded failed];
    repeat split; lia.
Qed.

(** The loop over the parts of a constituency: the parts before the first
    one that is no object are counted as downloads or failures, and that
    one ends the loop. *)
Lemma download_parts_count d a dir : forall parts_list s,
  let s' := snd (for_each parts_list (download_part d a dir) s) in
  fst (for_each parts_list (download_part d a dir) s)
  = (if forallb is_object parts_list then Ok tt else Raise AttributeError)
  /\ parts (stats s') = parts (stats s)
  /\ downloaded (stats s') + failed (stats s')
     = downloaded (stats s) + failed (stats s)
       + List.length (leading is_object parts_list).
Proof.
  induction parts_list as [|part rest IH]; intros s; cbv zeta.
  - cbn. repeat split; lia.
  - cbn [for_each List.length forallb leading].
    destruct (is_object part) eqn:E.
    + destruct part as [| | | | |members]; try discriminate E.
      unfold bind.
      destruct (download_part_counts d a dir members s) as (Hr & Hp & Hc).
      destruct (download_part d a dir (Json.Obj members) s) as [r s1].
      cbn [fst snd] in *. subst r. destruct (IH s1) as (Hr' & Hp' & Hc').
      cbn [andb List.length].
      repeat split; [exact Hr' | congruence | lia].
    + unfold bind. rewrite (download_part_other d a dir part s E).
      cbn. repeat split; lia.
Qed.

(** ** The controller, for what a loop over parts keeps when it is left *)

Section Left.

Variable F : St -> St -> Prop.

Hypothesis R_F : forall s s', tally_rel s s' -> F s s'.
Hypothesis R_then_F : forall s1 s2 s3, tally_rel s1 s2 -> F s2 s3 -> F s1 s3.
Hypothesis loop : forall d a dir l s0 s,
  get_parts d a s0 = (Ok l, s) ->
  let run :=
    for_each l (download_part d a dir)
      (set_stats (add_parts (List.length l)) s) in
  is_ok (fst run) = false -> F s (snd run).

Lemma tally_download_ac d dir ac : keeps tally_rel F (download_ac d dir ac).
Proof.
  apply keeps_intro. intros s r s'.
  destruct (named ac) eqn:N.
  2:{ rewrite (download_ac_other d dir ac s N). intros [= <- <-].
      apply R_F, tally_refl. }
  destruct ac as [| | | | |members]; try discriminate N.
  unfold named in N.
  destruct (ac_name_of members) as [| | |nm| |] eqn:E; try discriminate N.
  rewrite (download_ac_named d dir members s E).
  unfold bind at 1.
  match goal with
  | |- context [do_mkdir ?p ?b s] =>
      pose proof (stats_do_mkdir p b s) as Hm;
      destruct (do_mkdir p b s) as [[[]|e] s1]
  end; cbn [snd] in *;
    [|intros [= <- <-]; now apply R_F, tally_same_stats].
  unfold bind at 1.
  pose proof (stats_get_parts d (ac_code_of members) s1) as Hg.
  destruct (get_parts d (ac_code_of members) s1) as [[l|e] s2] eqn:G;
    cbn [snd] in *;
    [|intros [= <- <-]; apply R_F, tally_same_stats; congruence].
  unfold bind at 1. unfold modify at 1.
  pose proof (@loop d (ac_code_of members)
                (joinpath dir (sanitize_filename nm)) l s1 s2 G) as Hl.
  cbv zeta in Hl.
  destruct (download_parts_count d (ac_code_of members)
              (joinpath dir (sanitize_filename nm)) l
              (set_stats (add_parts (List.length l)) s2)) as (Hr & Hp & Hc).
  assert (T : tally_rel s s2) by (apply tally_same_stats; congruence).
  destruct (for_each l _ (set_stats (add_parts (List.length l)) s2))
    as [r' s3].
  cbn [fst snd] in *. intros [= <- <-].
  destruct (forallb is_object l) eqn:O; subst r'.
  - apply leading_all in O. rewrite O in Hc.
    apply tally_trans with (s2 := s2); [exact T|].
    unfold tally_rel.
    cbn [stats set_stats parts downloaded failed add_parts] in Hp, Hc. lia.
  - apply R_then_F with (s2 := s2); [exact T|]. now apply Hl.
Qed.

Lemma tally_download_district district :
  keeps tally_rel F (download_district district).
Proof.
  unfold download_district.
  apply keeps_bind; [apply tally_trans | apply R_then_F | |].
  { apply keeps_get, tally_refl. }
  intros s0.
  apply keeps_bind; [apply tally_trans | apply R_then_F | |].
  { apply keeps_of_preserves with (Q := tally_rel); [auto | exact R_F|].
    intros s. apply tally_same_stats, stats_do_mkdir. }
  intros _.
  apply keeps_bind; [apply tally_trans | apply R_then_F | |].
  { apply keeps_of_preserves with (Q := tally_rel); [auto | exact R_F|].
    intros s. apply tally_same_stats, stats_get_constituencies. }
  intros acs.
  apply keeps_bind; [apply tally_trans | apply R_then_F | |].
  { apply keeps_modify. intros s. unfold tally_rel. cbn. lia. }
  intros _.
  apply keeps_for_each; [apply tally_refl | apply tally_trans | apply R_then_F|].
  intros ac. apply tally_download_ac.
Qed.

Lemma tally_districts districts_list :
  keeps tally_rel F (for_each districts_list download_district).
Proof.
  apply keeps_for_each; [apply tally_refl | apply tally_trans | apply R_then_F|].
  intros d. apply tally_download_district.
Qed.

End Left.

Lemma tally_cut_loop d a dir l (s0 s : St) :
  get_parts d a s0 = (Ok l, s) ->
  let run :=
    for_each l (download_part d a dir)
      (set_stats (add_parts (List.length l)) s) in
  is_ok (fst run) = false -> tally_cut_rel s (snd run).
Proof.
  cbv zeta. intros _ _.
  destruct (download_parts_count d a dir l
              (set_stats (add_parts (List.length l)) s)) as (_ & Hp & Hc).
  pose proof (leading_length is_object l) as Hl.
  unfold tally_cut_rel.
  cbn [stats set_stats parts downloaded failed add_parts] in Hp, Hc. lia.
Qed.

Lemma tally_cut_districts districts_list :
  keeps tally_rel tally_cut_rel (for_each districts_list download_district).
Proof.
  apply tally_districts.
  - apply tally_cut_of.
  - apply tally_then_cut.
  - apply tally_cut_loop.
Qed.

(** On a site whose lists are well formed no loop over parts is left. *)
Lemma tally_whole_loop (lists_ok : well_formed) d a dir l (s0 s : St) :
  get_parts d a s0 = (Ok l, s) ->
  let run :=
    for_each l (download_part d a dir)
      (set_stats (add_parts (List.length l)) s) in
  is_ok (fst run) = false -> tally_rel s (snd run).
Proof.
  cbv zeta. intros G H.
  assert (N : forallb named l = true).
  { apply (get_parts_named lists_ok d a s0). now rewrite G. }
  assert (O : forallb is_object l = true).
  { apply forallb_forall. intros x Hx. apply named_is_object.
    rewrite forallb_forall in N. now apply N. }
  destruct (download_parts_count d a dir l
              (set_stats (add_parts (List.length l)) s)) as (Hr & _).
  rewrite Hr, O in H. discriminate H.
Qed.

Lemma tally_whole_districts (lists_ok : well_formed) districts_list :
  keeps tally_rel tally_rel (for_each districts_list download_district).
Proof.
  apply tally_districts.
  - auto.
  - apply tally_trans.
  - apply (tally_whole_loop lists_ok).
Qed.

End TallyFacts.

Section FallbackFacts.

Import ASDDDownloader Spec Invariants.

Context {W : World}.

Lemma stats_get_page url n s : stats (snd (get_page url n s)) = stats s.
Proof.
  destruct (get_page_spec url n s) as (j & _ & _ & _ & [_ H] & _). exact H.
Qed.

Lemma stats_get_districts s : stats (snd (get_districts s)) = stats s.
Proof.
  unfold get_districts, try_except, bind, Eff.get.
  pose proof (stats_get_page (asd_url s) default_max_retries s) as H.
  destruct (get_page (asd_url s) default_max_retries s) as [[r|e] s1];
    cbn [snd] in *; [|exact H].
  destruct r as [r|]; cbn; [|exact H].
  destruct (find_district_select (content r)); exact H.
Qed.

(** One link of the fallback, by what becomes of its URL. *)
Lemma scrape_link_unfold link s :
  scrape_link link s
  = match
      (if startswith (fst link) (lit "http") then Ok (fst link)
       else urljoin (asd_url s) (fst link))
    with
    | Ok url =>
        let filename :=
          sanitize_filename
            (match strip (snd link) with
             | [] => basename (fst link)
             | _ => strip (snd link)
             end) in
        (ok <- download_file url
                 (joinpath (output_dir s)
                    (if endswith filename (lit ".pdf") then filename
                     else filename ++ lit ".pdf")) ;;
         modify (set_stats (count_download ok)) ;;;
         sleep (1 # 2)) s
    | Raise e => (Raise e, s)
    end.
Proof.
  unfold scrape_link. unfold bind at 1 2. unfold Eff.get, lift, ret.
  destruct (startswith (fst link) (lit "http")); [reflexivity|].
  now destruct (urljoin (asd_url s) (fst link)).
Qed.

(** One link whose URL can be made: it is counted as a download or as a
    failure, no part is counted, and the configuration of [self] stays. *)
Lemma scrape_link_counts link s :
  joinable (asd_url s) link = true ->
  let s' := snd (scrape_link link s) in
  fst (scrape_link link s) = Ok tt
  /\ parts (stats s') = parts (stats s)
  /\ downloaded (stats s') + failed (stats s')
     = downloaded (stats s) + failed (stats s) + 1
  /\ asd_url s' = asd_url s.
Proof.
  unfold joinable. intros J. cbv zeta. rewrite scrape_link_unfold.
  destruct (startswith (fst link) (lit "http")); cbn [orb] in J.
  - cbv zeta. unfold sleep, bind, modify.
    match goal with
    | |- context [download_file ?u ?p s] =>
        destruct (stats_download_file u p s) as (Hs & Ha & _);
        pose proof (returns_download_file u p s) as Hr;
        destruct (download_file u p s) as [[ok|e] s1]
    end; [|discriminate Hr].
    cbn [fst snd stats set_stats emit asd_url] in *. rewrite Hs.
    destruct ok; cbn [count_download parts downloaded failed];
      repeat split; try assumption; lia.
  - destruct (urljoin (asd_url s) (fst link)) as [url|e];
      [|discriminate J].
    cbv zeta. unfold sleep, bind, modify.
    match goal with
    | |- context [download_file ?u ?p s] =>
        destruct (stats_download_file u p s) as (Hs & Ha & _);
        pose proof (returns_download_file u p s) as Hr;
        destruct (download_file u p s) as [[ok|e] s1]
    end; [|discriminate Hr].
    cbn [fst snd stats set_stats emit asd_url] in *. rewrite Hs.
    destruct ok; cbn [count_download parts downloaded failed];
      repeat split; try assumption; lia.
Qed.

(** One link whose URL cannot be made: [urljoin] raises, and nothing is
    counted. *)
Lemma scrape_link_raises link s :
  joinable (asd_url s) link = false ->
  is_ok (fst (scrape_link link s)) = false /\ snd (scrape_link link s) = s.
Proof.
  unfold joinable. intros J. rewrite scrape_link_unfold.
  destruct (startswith (fst link) (lit "http")); [discriminate J|].
  destruct (urljoin (asd_url s) (fst link)); [discriminate J|].
  now split.
Qed.

(** The loop of the fallback: the links before the first one whose URL
    cannot be made are counted, and that one ends the loop. *)
Lemma scrape_links_count : forall links s,
  let s' := snd (for_each links scrape_link s) in
  is_ok (fst (for_each links scrape_link s))
  = forallb (joinable (asd_url s)) links
  /\ parts (stats s') = parts (stats s)
  /\ downloaded (stats s') + failed (stats s')
     = downloaded (stats s) + failed (stats s)
       + List.length (leading (joinable (asd_url s)) links).
Proof.
  induction links as [|l links IH]; intros s; cbv zeta.
  - cbn. repeat split; lia.
  - cbn [for_each List.length forallb leading]. unfold bind.
    destruct (joinable (asd_url s) l) eqn:J.
    + destruct (scrape_link_counts l s J) as (Hr & Hp & Hc & Ha).
      destruct (scrape_link l s) as [r s1]. cbn [fst snd] in *. subst r.
      destruct (IH s1) as (Hr' & Hp' & Hc'). rewrite Ha in *.
      cbn [andb List.length]. repeat split; [exact Hr' | congruence | lia].
    + destruct (scrape_link_raises l s J) as (Hr & Hs).
      destruct (scrape_link l s) as [[[]|e] s1]; cbn [fst snd is_ok] in *;
        [discriminate Hr|].
      subst s1. cbn. repeat split; lia.
Qed.

(** [scrape_direct_links], by the outcome of its steps. *)
Lemma scrape_direct_links_unfold s :
  scrape_direct_links s
  = match get_page (asd_url s) default_max_retries s with
    | (Ok (Some r), s1) =>
        match
          do_write (joinpath (output_dir s) (lit "page_source.html"))
            (prettify (content r)) s1
        with
        | (Ok _, s2) =>
            (Ok tt,
             snd (for_each
                    (filter
                       (fun l =>
                          negb (PyStr.eqb (fst l) [])
                          && (contains (lower (fst l)) (lit ".pdf")
                              || contains (lower (fst l)) (lit "download")))
                       (find_all_a (content r)))
                    scrape_link s2))
        | (Raise _, s2) => (Ok tt, s2)
        end
    | (Ok None, s1) => (Ok tt, s1)
    | (Raise _, s1) => (Ok tt, s1)
    end.
Proof.
  unfold scrape_direct_links, try_except, bind, Eff.get, content_of, ret,
    raise.
  destruct (get_page (asd_url s) default_max_retries s) as [[[r|]|e] s1];
    try reflexivity.
  destruct (do_write _ _ s1) as [[[]|e] s2]; [|reflexivity].
  now destruct (for_each _ scrape_link s2) as [[[]|e] s3].
Qed.

(** The fallback counts downloads and failures, and no part. *)
Lemma parts_scrape_direct_links s :
  parts (stats (snd (scrape_direct_links s))) = parts (stats s).
Proof.
  rewrite scrape_direct_links_unfold.
  pose proof (stats_get_page (asd_url s) default_max_retries s) as H.
  destruct (get_page (asd_url s) default_max_retries s) as [[[r|]|e] s1];
    cbn [snd] in *; try congruence.
  pose proof (stats_do_write
                (joinpath (output_dir s) (lit "page_source.html"))
                (prettify (content r)) s1) as Hw.
  destruct (do_write _ _ s1) as [[[]|e] s2]; cbn [snd] in *;
    [|congruence].
  match goal with
  | |- context [for_each ?l scrape_link s2] =>
      destruct (scrape_links_count l s2) as (_ & Hl & _)
  end.
  congruence.
Qed.

End FallbackFacts.

(* ================================================================== *)
(** * The progress file across runs *)

Section LedgerFile.

Import ASDDSeleniumDownloader LedgerSpec Invariants.

Context {B : Browser}.

(** [save_progress] followed by [load_progress] gives the progress back:
    when the keys are strings of characters and the write of the file
    completes, [save_progress] returns and the document read from the file
    that was just written is the progress in memory, with both lists in
    their order.  When the write does not complete, [save_progress] raises
    [OSError], the progress in memory is as it was, and the file is as it
    was or holds the beginning of the document. *)
Theorem saved_progress_loads_back (s : St) :
  Forall text (completed (progress s)) ->
  Forall text (failed_keys (progress s)) ->
  let s' := snd (save_progress s) in
  let document := Json.dumps (to_json (progress s)) in
  (fst (store_text document (env s)) = Written ->
   fst (save_progress s) = Ok tt
   /\ progress s' = progress s
   /\ load_progress (progress_file s') = Ok (to_json (progress s))
   /\ of_json (to_json (progress s)) = Some (progress s))
  /\ (fst (store_text document (env s)) <> Written ->
      fst (save_progress s) = Raise OSError
      /\ progress s' = progress s
      /\ (progress_file s' = progress_file s
          \/ exists n, progress_file s' = Some (firstn n document))).
Proof.
  intros Hc Hf. cbv zeta. unfold save_progress, bind, Eff.get, modify.
  cbn [fst snd env emit].
  destruct (store_text (Json.dumps (to_json (progress s))) (env s))
    as [[| |n] e]; cbn [fst snd].
  - split; [intros _ | intros H; now destruct H].
    cbn [progress progress_file set_progress_file set_env emit].
    repeat split; [|apply of_json_to_json].
    unfold load_progress. now rewrite loads_dumps_progress.
  - split; [discriminate | intros _].
    repeat split. now left.
  - split; [discriminate | intros _].
    repeat split. right. now exists n.
Qed.

(** A downloader made on the progress file that an earlier one wrote
    starts from the ledger of the earlier one, with its counters at zero and
    without a driver. *)
Theorem restart_restores_ledger (dir : path) (s : St) (e : Env) :
  persisted s ->
  Forall text (completed (progress s)) ->
  Forall text (failed_keys (progress s)) ->
  fst (make_dir dir e) = Ok tt ->
  exists st,
    init dir (progress_file s) e = Ok st
    /\ progress st = progress s
    /\ progress_file st = progress_file s
    /\ stats st = {| districts := 0; constituencies := 0; parts := 0;
                     downloaded := 0; failed := 0 |}
    /\ driver st = false
    /\ trace st = [].
Proof.
  intros Hp Hc Hf Hm. unfold init.
  destruct (make_dir dir e) as [[[]|x] e']; [|discriminate Hm].
  rewrite Hp. unfold load_progress.
  rewrite (loads_dumps_progress _ Hc Hf), of_json_to_json.
  eexists. split; [reflexivity|]. cbn. repeat split.
Qed.

(** Without a progress file [load_progress] gives the empty progress; a
    progress file that is empty or holds white space only is refused with
    the decoder's error, by [load_progress] and so when the downloader is
    made: it is not taken for an empty progress. *)
Theorem blank_progress_file_is_refused (text : pystr) :
  forallb Json.is_ws text = true ->
  load_progress (Some text) = Raise JSONDecodeError
  /\ load_progress None = Ok (to_json {| completed := []; failed_keys := [] |})
  /\ forall dir e, exists x, init dir (Some text) e = Raise x.
Proof.
  intros H.
  assert (Hs : Json.skip_ws text = []).
  { induction text as [|c t IH]; [reflexivity|]. cbn [forallb] in H.
    apply andb_true_iff in H. destruct H as [Hc Ht].
    cbn [Json.skip_ws]. rewrite Hc. now apply IH. }
  assert (Hl : load_progress (Some text) = Raise JSONDecodeError).
  { unfold load_progress, Json.loads. rewrite Hs.
    replace (2 * List.length text + 2) with (S (2 * List.length text + 1))
      by lia.
    reflexivity. }
  split; [exact Hl|]. split; [reflexivity|].
  intros dir e. unfold init. rewrite Hl.
  destruct (make_dir dir e) as [[[]|x] e']; eexists; reflexivity.
Qed.

(** The progress file is plain ASCII whatever the names of the districts,
    constituencies and parts: when [save_progress] returns, the file holds
    printable ASCII characters and newlines only; and when it raises, the
    file is as it was or holds such characters only. *)
Theorem progress_file_is_ascii (s : St) :
  (fst (save_progress s) = Ok tt ->
   exists text,
     progress_file (snd (save_progress s)) = Some text
     /\ Forall plain text)
  /\ (progress_file (snd (save_progress s)) = progress_file s
      \/ exists text,
           progress_file (snd (save_progress s)) = Some text
           /\ Forall plain text).
Proof.
  pose proof (plain_dumps_progress (progress s)) as P.
  unfold save_progress, bind, Eff.get, modify. cbn [fst snd env emit].
  destruct (store_text (Json.dumps (to_json (progress s))) (env s))
    as [[| |n] e]; cbn [fst snd].
  - split; [intros _ | right];
      (eexists; split; [reflexivity | exact P]).
  - split; [discriminate | now left].
  - split; [discriminate | right].
    eexists. split; [reflexivity|].
    apply Forall_forall. intros c Hc. rewrite Forall_forall in P.
    apply P. rewrite <- (firstn_skipn n). apply in_or_app. now left.
Qed.

(** C5. Loading the ledger.  Without a progress file [load_progress] gives
    the empty record, two empty lists, and [__init__] starts the downloader
    from it.  With a progress file [load_progress] gives what the file
    holds and nothing else: it returns a document only if the decoder reads
    that document in the file, and a text the decoder refuses makes it
    raise the decoder's error, which [__init__] does not catch, so that a
    downloader is only made on a file the decoder reads: the file is never
    taken for an empty record. *)
Theorem load_progress_is_strict (text : pystr) :
  (load_progress None = Ok (to_json {| completed := []; failed_keys := [] |})
   /\ forall dir e,
        fst (make_dir dir e) = Ok tt ->
        exists st,
          init dir None e = Ok st
          /\ progress st = {| completed := []; failed_keys := [] |}
          /\ progress_file st = None)
  /\ (Json.loads text = None ->
      load_progress (Some text) = Raise JSONDecodeError
      /\ forall dir e, exists x, init dir (Some text) e = Raise x)
  /\ (forall v,
        load_progress (Some text) = Ok v -> Json.loads text = Some v)
  /\ (forall dir e st,
        init dir (Some text) e = Ok st -> exists v, Json.loads text = Some v).
Proof.
  split; [|split; [|split]].
  - split; [reflexivity|]. intros dir e Hm. unfold init.
    destruct (make_dir dir e) as [[[]|x] e']; [|discriminate Hm].
    cbn [load_progress]. rewrite of_json_to_json.
    eexists. split; [reflexivity|]. split; reflexivity.
  - intros H.
    assert (Hl : load_progress (Some text) = Raise JSONDecodeError)
      by (unfold load_progress; now rewrite H).
    split; [exact Hl|]. intros dir e. unfold init. rewrite Hl.
    destruct (make_dir dir e) as [[[]|x] e']; eexists; reflexivity.
  - intros v. unfold load_progress.
    destruct (Json.loads text); [now intros [= <-] | discriminate].
  - intros dir e st. unfold init.
    destruct (make_dir dir e) as [[[]|x] e']; [|discriminate].
    unfold load_progress.
    destruct (Json.loads text) as [v|]; [|discriminate].
    intros _. now exists v.
Qed.

(** C7. Ledger round trip.  For every progress record whose keys are
    strings of characters, however many they are and in whatever order they
    were put in: when [save_progress] returns, [load_progress] reads from
    the file it wrote the record that is in memory, and a downloader made
    on that file starts with the same completed keys and the same failed
    keys, in the same order. *)
Theorem ledger_round_trip (s : St) (dir : path) (e : Env) :
  Forall text (completed (progress s)) ->
  Forall text (failed_keys (progress s)) ->
  fst (save_progress s) = Ok tt ->
  exists file,
    progress_file (snd (save_progress s)) = Some file
    /\ load_progress (Some file) = Ok (to_json (progress s))
    /\ of_json (to_json (progress s)) = Some (progress s)
    /\ (fst (make_dir dir e) = Ok tt ->
        exists st,
          init dir (Some file) e = Ok st
          /\ completed (progress st) = completed (progress s)
          /\ failed_keys (progress st) = failed_keys (progress s)).
Proof.
  intros Hc Hf. unfold save_progress, bind, Eff.get, modify.
  cbn [fst snd env emit].
  destruct (store_text (Json.dumps (to_json (progress s))) (env s))
    as [[| |n] e1]; cbn [fst snd]; try discriminate.
  intros _. exists (Json.dumps (to_json (progress s))).
  assert (Hl : load_progress (Some (Json.dumps (to_json (progress s))))
               = Ok (to_json (progress s))).
  { unfold load_progress. now rewrite loads_dumps_progress. }
  split; [reflexivity|]. split; [exact Hl|].
  split; [apply of_json_to_json|].
  intros Hm. unfold init.
  destruct (make_dir dir e) as [[[]|x] e']; [|discriminate Hm].
  rewrite Hl, of_json_to_json. eexists. split; [reflexivity|].
  split; reflexivity.
Qed.

End LedgerFile.

(** The ledger file on the site of two districts. *)
Section LedgerFileRuns.

Import ASDDSeleniumDownloader LedgerSpec Invariants SeleniumWorld.

Local Open Scope N_scope.

Lemma saved_progress_loads_back_witness :
  let p := {| completed := [lit "D1|C1|P1"; [2453; 124; 34; 92; 128512]];
              failed_keys := [lit "D1|C2|P1"] |} in
  let s := state_with p (site_with []) in
  fst (save_progress s) = Ok tt
  /\ progress (snd (save_progress s)) = progress s
  /\ load_progress (progress_file (snd (save_progress s))) = Ok (to_json p)
  /\ of_json (to_json p) = Some p.
Proof.
  cbv zeta.
  apply (@saved_progress_loads_back browser
           (state_with
              {| completed := [lit "D1|C1|P1"; [2453; 124; 34; 92; 128512]];
                 failed_keys := [lit "D1|C2|P1"] |}
              (site_with [])));
    [apply Forall_text; vm_compute; reflexivity
    | apply Forall_text; vm_compute; reflexivity
    | reflexivity].
Defined.

Lemma progress_file_is_ascii_witness :
  exists text,
    progress_file (snd (save_progress (snd first_run))) = Some text
    /\ Forall plain text.
Proof.
  apply (proj1 (@progress_file_is_ascii browser (snd first_run))).
  vm_compute. reflexivity.
Defined.

Lemma restart_restores_ledger_witness :
  exists st,
    init [lit "asdd_data"] (progress_file (snd first_run)) (site_with [])
    = Ok st
    /\ progress st = progress (snd first_run)
    /\ progress_file st = progress_file (snd first_run)
    /\ stats st = {| districts := 0; constituencies := 0; parts := 0;
                     downloaded := 0; failed := 0 |}
    /\ driver st = false
    /\ trace st = [].
Proof.
  apply (@restart_restores_ledger browser [lit "asdd_data"] (snd first_run)
           (site_with [])).
  - vm_compute. reflexivity.
  - apply Forall_text. vm_compute. reflexivity.
  - apply Forall_text. vm_compute. reflexivity.
  - reflexivity.
Defined.

Lemma blank_progress_file_is_refused_witness :
  load_progress (Some [32; 10]) = Raise JSONDecodeError
  /\ load_progress None = Ok (to_json {| completed := []; failed_keys := [] |})
  /\ forall dir e, exists x, init dir (Some [32; 10]) e = Raise x.
Proof. apply (blank_progress_file_is_refused [32; 10]). reflexivity. Defined.

Lemma load_progress_is_strict_witness :
  let text :=
    firstn 60
      (Json.dumps
         (to_json {| completed := [lit "D1|C1|P1"; lit "D1|C1|P2"];
                     failed_keys := [] |})) in
  load_progress (Some text) = Raise JSONDecodeError
  /\ forall dir e, exists x, init dir (Some text) e = Raise x.
Proof.
  cbv zeta.
  apply (proj1 (proj2 (@load_progress_is_strict browser
                         (firstn 60
                            (Json.dumps
                               (to_json
                                  {| completed :=
                                       [lit "D1|C1|P1"; lit "D1|C1|P2"];
                                     failed_keys := [] |})))))).
  vm_compute. reflexivity.
Defined.

Lemma ledger_round_trip_witness :
  let p := {| completed := [lit "D2|C1|P2"; [2453; 124; 34; 92; 128512];
                            lit "D1|C1|P1"];
              failed_keys := [lit "D1|C2|P1"] |} in
  let s := state_with p (site_with []) in
  exists file,
    progress_file (snd (save_progress s)) = Some file
    /\ load_progress (Some file) = Ok (to_json p)
    /\ of_json (to_json p) = Some p
    /\ (fst (make_dir [lit "asdd_data"] (site_with [])) = Ok tt ->
        exists st,
          init [lit "asdd_data"] (Some file) (site_with []) = Ok st
          /\ completed (progress st) = completed p
          /\ failed_keys (progress st) = failed_keys p).
Proof.
  cbv zeta.
  apply (@ledger_round_trip browser
           (state_with
              {| completed := [lit "D2|C1|P2"; [2453; 124; 34; 92; 128512];
                               lit "D1|C1|P1"];
                 failed_keys := [lit "D1|C2|P1"] |}
              (site_with []))
           [lit "asdd_data"] (site_with []));
    [apply Forall_text; vm_compute; reflexivity
    | apply Forall_text; vm_compute; reflexivity
    | reflexivity].
Defined.

(** The record without a key, the text of its file, and the way back. *)
Example empty_ledger_round_trip :
  Json.dumps (to_json no_progress)
  = lit "{" ++ [10] ++ lit "  " ++ [34] ++ lit "completed" ++ [34]
    ++ lit ": []," ++ [10] ++ lit "  " ++ [34] ++ lit "failed" ++ [34]
    ++ lit ": []" ++ [10] ++ lit "}"
  /\ load_progress (Some (Json.dumps (to_json no_progress)))
     = Ok (to_json no_progress)
  /\ of_json (to_json no_progress) = Some no_progress.
Proof. vm_compute. repeat split. Qed.

End LedgerFileRuns.

Section Counters.

Import ASDDSeleniumDownloader LedgerSpec Invariants.

Context {B : Browser}.

(** The counters of downloads and failures go with the ledger, over a whole
    run of [download_all] and whatever its outcome: the keys the run put in
    the ledger stand at the end of the two lists, the counter of downloads
    grew by the number of keys put in the completed list and the counter of
    failures by the number of keys put in the failed list, and these keys
    are the keys of the leaves the run fetched, each as many times as it was
    fetched. *)
Theorem counters_agree_with_ledger (test_district : option pystr) (s : St) :
  let s' := snd (download_all test_district s) in
  exists dc df,
    completed (progress s') = completed (progress s) ++ dc
    /\ failed_keys (progress s') = failed_keys (progress s) ++ df
    /\ downloaded (stats s') = downloaded (stats s) + List.length dc
    /\ failed (stats s') = failed (stats s) + List.length df
    /\ Permutation (fetches (events_since s s')) (dc ++ df).
Proof.
  cbv zeta.
  destruct (download_all_preserves accounts_trans accounts_quiet
              accounts_leaf test_district s)
    as (evs & dc & df & T & C & F & D & X & P).
  exists dc, df. rewrite (since_app _ _ _ T). auto.
Qed.

End Counters.

Section SeleniumOutcome.

Import ASDDSeleniumDownloader LedgerSpec Invariants.

Context {B : Browser}.

(** What can make the resumable downloader raise.  For a downloader whose
    ledger has its two lists: when the driver starts, takes its waiting
    time and quits, the directories can be made, the page can be opened
    again after a constituency and every write of the progress file
    completes, [download_all] ends normally: nothing an enumerator or the
    fetcher does, and no answer of the site, makes it raise. *)
Theorem selenium_download_all_ends_normally (test_district : option pystr)
    (s : St) :
  writes_complete ->
  (forall e, is_ok (fst (start_driver e)) = true) ->
  (forall e, is_ok (fst (implicitly_wait e)) = true) ->
  (forall e, is_ok (fst (quit_driver e)) = true) ->
  (forall p e, is_ok (fst (make_dir p e)) = true) ->
  (forall u e, is_ok (fst (open_page u e)) = true) ->
  fst (download_all test_district s) = Ok tt.
Proof.
  intros Hw Hs Hi Hq Hm Ho. apply returns_unit.
  now apply returns_selenium_download_all.
Qed.

(** When the driver cannot be started, [download_all] raises the driver's
    exception: the [finally] block finds no driver to quit, no page is
    opened, nothing is fetched, and the ledger, the progress file and the
    counters are as they were. *)
Theorem driver_failure_ends_the_run (test_district : option pystr) (s : St)
    (x : exn) (e' : Env) :
  driver s = false ->
  start_driver (env s) = (Raise x, e') ->
  download_all test_district s = (Raise x, set_env e' s)
  /\ events_since s (snd (download_all test_district s)) = []
  /\ progress (snd (download_all test_district s)) = progress s
  /\ progress_file (snd (download_all test_district s)) = progress_file s
  /\ stats (snd (download_all test_district s)) = stats s.
Proof.
  intros Hd Hs.
  assert (E : download_all test_district s = (Raise x, set_env e' s)).
  { unfold download_all, try_finally, setup_driver.
    unfold bind at 1. unfold bind at 1. unfold call at 1. rewrite Hs.
    unfold close_driver, bind, Eff.get. cbn [driver set_env]. rewrite Hd.
    reflexivity. }
  rewrite E. cbn [snd]. repeat split.
  unfold events_since. cbn [trace set_env]. apply skipn_all.
Qed.

End SeleniumOutcome.

Section DataOutcome.

Import ASDDDownloader Invariants.

Context {W : World}.

(** What can make the downloader raise: a directory that cannot be made,
    and an item of a list of the site that is not what the loops take it
    for.  When every [mkdir] succeeds and the lists of the site are well
    formed, [download_all] ends normally whatever else the site answers and
    whatever happens to the files.  When the directory of the first
    district cannot be made, the run ends at once with the exception of
    [mkdir].  A constituency that is no object, or whose name is no string,
    and a part that is no object raise [AttributeError] before anything is
    done for them; and when the first constituency of the first district is
    such an item, the run ends there, the constituencies of the district
    counted. *)
Theorem what_makes_data_download_all_raise (s : St) :
  ((forall p b f, is_ok (fst (path_mkdir p b f)) = true) ->
   well_formed ->
   fst (download_all s) = Ok tt)
  /\ (forall d ds s1 x f,
        get_districts s = (Ok (d :: ds), s1) ->
        path_mkdir
          (joinpath (output_dir s1) (sanitize_filename (name d))) false
          (fs s1) = (Raise x, f) ->
        fst (download_all s) = Raise x
        /\ downloaded (stats (snd (download_all s))) = downloaded (stats s1)
        /\ failed (stats (snd (download_all s))) = failed (stats s1))
  /\ (forall district_code district_dir ac,
        named ac = false ->
        download_ac district_code district_dir ac s
        = (Raise AttributeError, s))
  /\ (forall district_code ac_code ac_dir part,
        is_object part = false ->
        download_part district_code ac_code ac_dir part s
        = (Raise AttributeError, s))
  /\ (forall d ds s1 f ac acs s3,
        get_districts s = (Ok (d :: ds), s1) ->
        let district_dir :=
          joinpath (output_dir s1) (sanitize_filename (name d)) in
        path_mkdir district_dir false (fs s1) = (Ok tt, f) ->
        get_constituencies (value d)
          (set_fs f
             (emit (EvMkdir district_dir)
                (set_stats (set_districts (List.length (d :: ds))) s1)))
        = (Ok (ac :: acs), s3) ->
        named ac = false ->
        download_all s
        = (Raise AttributeError,
           set_stats (add_constituencies (List.length (ac :: acs))) s3)).
Proof.
  split; [|split; [|split; [|split]]].
  - intros Hm Hl. apply returns_unit. now apply returns_data_download_all.
  - intros d ds s1 x f Hg Hm.
    assert (E : download_all s
                = (Raise x,
                   set_fs f
                     (emit
                        (EvMkdir
                           (joinpath (output_dir s1)
                              (sanitize_filename (name d))))
                        (set_stats (set_districts (List.length (d :: ds)))
                           s1)))).
    { unfold download_all. unfold bind at 1.
      rewrite Hg. unfold bind at 1. unfold modify at 1. cbn [for_each].
      unfold bind at 1. unfold download_district. unfold bind at 1.
      unfold Eff.get at 1. unfold bind at 1. unfold do_mkdir.
      cbn [output_dir fs set_stats]. rewrite Hm. reflexivity. }
    rewrite E. repeat split.
  - intros. now apply download_ac_other.
  - intros. now apply download_part_other.
  - intros d ds s1 f ac acs s3 Hg district_dir Hm Hc Hn.
    unfold download_all. unfold bind at 1.
    rewrite Hg. unfold bind at 1. unfold modify at 1. cbn [for_each].
    unfold bind at 1. unfold download_district. unfold bind at 1.
    unfold Eff.get at 1. unfold bind at 1. unfold do_mkdir at 1.
    cbn [output_dir fs set_stats]. fold district_dir. rewrite Hm.
    unfold bind at 1. cbn [emit set_fs set_stats] in Hc |- *.
    rewrite Hc. unfold bind at 1. unfold modify at 1.
    cbn [for_each]. unfold bind at 1.
    now rewrite download_ac_other.
Qed.

End DataOutcome.

Section Names.

Import Spec.

Local Open Scope N_scope.

(** The keys of the ledger.  When the names of the district and of the
    constituency have no vertical bar, the key tells the leaf: two leaves
    with the same key have the same three names.  Without that the keys
    collide: a bar in a name moves the border between the names. *)
Theorem ledger_key_identifies_leaf (d a p d' a' p' : pystr) :
  (~ In 124 d -> ~ In 124 a -> ~ In 124 d' -> ~ In 124 a' ->
   ASDDSeleniumDownloader.key_of d a p
   = ASDDSeleniumDownloader.key_of d' a' p' ->
   d = d' /\ a = a' /\ p = p')
  /\ ASDDSeleniumDownloader.key_of (d ++ lit "|" ++ a') a p
     = ASDDSeleniumDownloader.key_of d (a' ++ lit "|" ++ a) p.
Proof.
  unfold ASDDSeleniumDownloader.key_of. change (lit "|") with [124].
  split.
  - intros Hd Ha Hd' Ha' E. cbn [app] in E.
    destruct (@cut_at_first 124 _ _ _ _ Hd Hd' E) as [-> E1].
    destruct (@cut_at_first 124 _ _ _ _ Ha Ha' E1) as [-> ->]. auto.
  - now rewrite <- !app_assoc.
Qed.

(** [sanitize_filename] applied twice is [sanitize_filename] applied once;
    its result is not longer than the name; and a name without any of the
    nine characters that [strip] leaves as it is, is left as it is. *)
Theorem sanitize_filename_idempotent (filename : pystr) :
  let clean := ASDDDownloader.sanitize_filename filename in
  ASDDDownloader.sanitize_filename clean = clean
  /\ (List.length clean <= List.length filename)%nat
  /\ ((forall c, In c ASDDDownloader.invalid_chars -> ~ In c filename) ->
      strip filename = filename ->
      clean = filename).
Proof.
  cbv zeta. unfold ASDDDownloader.sanitize_filename.
  rewrite !replace_chain. split; [|split].
  - rewrite map_placeholder_fixed; [apply strip_idempotent|].
    intros c Hc Hin. apply strip_In in Hin. apply in_map_iff in Hin.
    destruct Hin as [x [Hx _]]. subst c. exact (placeholder_valid x Hc).
  - pose proof (length_strip (List.map placeholder filename)) as H.
    now rewrite length_map in H.
  - intros Hc Hs. now rewrite (map_placeholder_fixed _ Hc).
Qed.

End Names.

Section Tally.

Import ASDDDownloader Invariants.

Context {W : World}.

(** Every part is counted once more.  Over the districts the counter of
    parts grows by as much as the counters of downloads and failures
    together, or by more: the parts of a constituency are counted before
    the first of them is fetched.  The two grow by the same number when the
    run returns, and whatever its outcome (also when a directory that
    cannot be made ends it) when the lists of the site are well formed.
    In the loop over the parts of a constituency the parts before the first
    one that is no object are counted as one download or one failure each,
    and that one ends the loop with [AttributeError].  The fallback on the
    links of the page counts its downloads and failures and no part. *)
Theorem every_part_is_counted_once (s : St) :
  (forall districts_list,
     let run := for_each districts_list download_district s in
     tally_cut_rel s (snd run)
     /\ (fst run = Ok tt -> tally_rel s (snd run))
     /\ (well_formed -> tally_rel s (snd run)))
  /\ (forall d ds,
        fst (get_districts s) = Ok (d :: ds) ->
        tally_cut_rel s (snd (download_all s))
        /\ (fst (download_all s) = Ok tt ->
            tally_rel s (snd (download_all s)))
        /\ (well_formed -> tally_rel s (snd (download_all s))))
  /\ (fst (get_districts s) = Ok [] ->
      parts (stats (snd (download_all s))) = parts (stats s))
  /\ (forall district_code ac_code ac_dir parts_list,
        let run :=
          for_each parts_list (download_part district_code ac_code ac_dir) s
        in
        fst run
        = (if forallb is_object parts_list then Ok tt
           else Raise AttributeError)
        /\ parts (stats (snd run)) = parts (stats s)
        /\ downloaded (stats (snd run)) + failed (stats (snd run))
           = downloaded (stats s) + failed (stats s)
             + List.length (leading is_object parts_list)).
Proof.
  assert (L : forall l s0,
            let run := for_each l download_district s0 in
            tally_cut_rel s0 (snd run)
            /\ (fst run = Ok tt -> tally_rel s0 (snd run))
            /\ (well_formed -> tally_rel s0 (snd run))).
  { intros l s0. cbv zeta.
    pose proof (tally_cut_districts l s0) as K.
    split; [|split].
    - destruct (fst (for_each l download_district s0));
        [now apply tally_cut_of | exact K].
    - intros E. now rewrite E in K.
    - intros Hw. pose proof (tally_whole_districts Hw l s0) as K'.
      now destruct (fst (for_each l download_district s0)). }
  split; [|split; [|split]].
  - intros l. apply L.
  - intros d ds H. unfold download_all, bind.
    pose proof (stats_get_districts s) as Hs.
    destruct (get_districts s) as [r s1]. cbn [fst snd] in *. subst r.
    unfold modify.
    assert (T : tally_rel s
                  (set_stats (set_districts (List.length (d :: ds))) s1)).
    { unfold tally_rel. cbn [stats set_stats set_districts parts downloaded
        failed]. rewrite Hs. lia. }
    destruct (L (d :: ds)
                (set_stats (set_districts (List.length (d :: ds))) s1))
      as (L1 & L2 & L3).
    cbv zeta in L1, L2, L3.
    split; [|split].
    + eapply tally_then_cut; eassumption.
    + intros E. eapply tally_trans; [exact T | now apply L2].
    + intros Hw. eapply tally_trans; [exact T | now apply L3].
  - intros H. unfold download_all, bind.
    pose proof (stats_get_districts s) as Hs.
    destruct (get_districts s) as [r s1]. cbn [fst snd] in *. subst r.
    rewrite parts_scrape_direct_links. now rewrite Hs.
  - intros d a dir l. apply download_parts_count.
Qed.

End Tally.

(** Runs of the two downloaders in these surroundings. *)
Section OutcomeRuns.

Import Invariants Scenarios.

Lemma selenium_download_all_ends_normally_witness :
  fst (ASDDSeleniumDownloader.download_all None
         (SeleniumWorld.state_with SeleniumWorld.no_progress
            (SeleniumWorld.site_with [lit "D1|C2|P1"])))
  = Ok tt.
Proof.
  apply (@selenium_download_all_ends_normally SeleniumWorld.browser);
    unfold writes_complete; intros; reflexivity.
Defined.

Lemma steady_well_formed : well_formed (W := steady).
Proof.
  intros url data n r items H J.
  cbn [fst steady ASDDDownloader.session_post] in H. unfold serving in H.
  cbn [DataWorld.post_handler] in H.
  destruct (endswith url (lit "/api/getAC")).
  - injection H as <-. cbn in J. injection J as <-. reflexivity.
  - destruct (endswith url (lit "/api/getParts")); [|discriminate H].
    injection H as <-. cbn in J. injection J as <-. reflexivity.
Qed.

Lemma driver_failure_ends_the_run_witness :
  let s := without_chrome in
  let run := ASDDSeleniumDownloader.download_all (B := no_chrome) None s in
  run = (Raise WebDriverException,
         ASDDSeleniumDownloader.set_env (B := no_chrome)
           (SeleniumWorld.site_with []) s)
  /\ LedgerSpec.events_since (B := no_chrome) s (snd run) = []
  /\ ASDDSeleniumDownloader.progress (snd run)
     = ASDDSeleniumDownloader.progress s
  /\ ASDDSeleniumDownloader.progress_file (snd run)
     = ASDDSeleniumDownloader.progress_file s
  /\ ASDDSeleniumDownloader.stats (snd run) = ASDDSeleniumDownloader.stats s.
Proof.
  cbv zeta.
  apply (@driver_failure_ends_the_run no_chrome None without_chrome);
    reflexivity.
Defined.

Lemma what_makes_data_download_all_raise_witness :
  fst (ASDDDownloader.download_all (W := steady) on_steady) = Ok tt
  /\ fst (ASDDDownloader.download_all (read_only serving)) = Raise OSError
  /\ fst (ASDDDownloader.download_all (DataWorld.start bare_names))
     = Raise AttributeError
  /\ ASDDDownloader.constituencies
       (ASDDDownloader.stats
          (snd (ASDDDownloader.download_all (DataWorld.start bare_names))))
     = 1.
Proof.
  split; [|split].
  - apply (proj1 (@what_makes_data_download_all_raise steady on_steady)).
    + intros p b f. reflexivity.
    + exact steady_well_formed.
  - eapply (proj1 (proj2 (@what_makes_data_download_all_raise
                            DataWorld.world (read_only serving)))).
    + vm_compute. reflexivity.
    + vm_compute. reflexivity.
  - eassert (E : ASDDDownloader.download_all (DataWorld.start bare_names)
                 = _).
    { eapply (proj2 (proj2 (proj2 (proj2
                (@what_makes_data_download_all_raise DataWorld.world
                   (DataWorld.start bare_names)))))).
      + vm_compute. reflexivity.
      + vm_compute. reflexivity.
      + vm_compute. reflexivity.
      + reflexivity. }
    rewrite E. split; vm_compute; reflexivity.
Defined.

Lemma every_part_is_counted_once_witness :
  tally_rel (DataWorld.start serving)
    (snd (ASDDDownloader.download_all (DataWorld.start serving)))
  /\ tally_rel on_steady
       (snd (ASDDDownloader.download_all (W := steady) on_steady)).
Proof.
  split.
  - eassert (H : fst (ASDDDownloader.get_districts
                        (DataWorld.start serving)) = Ok (_ :: _))
      by (vm_compute; reflexivity).
    apply (proj1 (proj2 (proj1 (proj2 (@every_part_is_counted_once
                                         DataWorld.world
                                         (DataWorld.start serving)))
                          _ _ H))).
    vm_compute. reflexivity.
  - eassert (H : fst (ASDDDownloader.get_districts (W := steady) on_steady)
                 = Ok (_ :: _))
      by (vm_compute; reflexivity).
    apply (proj2 (proj2 (proj1 (proj2 (@every_part_is_counted_once
                                         steady on_steady))
                          _ _ H))).
    exact steady_well_formed.
Defined.

(** On the site whose second part is a number the first part is fetched,
    the loop over the parts is left, and the three parts stay counted. *)
Example part_that_is_a_number :
  let run := ASDDDownloader.download_all (DataWorld.start bare_part) in
  fst run = Raise AttributeError
  /\ ASDDDownloader.parts (ASDDDownloader.stats (snd run)) = 3
  /\ ASDDDownloader.downloaded (ASDDDownloader.stats (snd run))
     + ASDDDownloader.failed (ASDDDownloader.stats (snd run)) = 1.
Proof. vm_compute. repeat split. Qed.

Local Open Scope N_scope.

Lemma ledger_key_identifies_leaf_witness :
  lit "D1" = lit "D1" /\ lit "C1" = lit "C1" /\ lit "P|1" = lit "P|1".
Proof.
  apply (proj1 (ledger_key_identifies_leaf (lit "D1") (lit "C1") (lit "P|1")
                  (lit "D1") (lit "C1") (lit "P|1")));
    try reflexivity; vm_compute; intuition discriminate.
Defined.

Lemma sanitize_filename_idempotent_witness :
  ASDDDownloader.sanitize_filename (lit "Part 12") = lit "Part 12".
Proof.
  apply (proj2 (proj2 (sanitize_filename_idempotent (lit "Part 12")))).
  - intros c Hc Hin. vm_compute in Hc, Hin.
    repeat match goal with
           | H : _ \/ _ |- _ => destruct H as [H|H]
           end;
      try contradiction; subst c;
      repeat match goal with
             | H : _ \/ _ |- _ => destruct H as [H|H]
             end;
      try contradiction; discriminate.
  - reflexivity.
Defined.

End OutcomeRuns.

(* ================================================================== *)
(** * Resuming in a new process *)

Section RestartFacts.

Import ASDDSeleniumDownloader LedgerSpec Invariants.

Context {B : Browser}.

Lemma flush_silent s1 s2 s3 :
  flush_rel s1 s2 -> silent s2 s3 -> flush_rel s1 s3.
Proof.
  intros H1 H2. eapply flush_trans; [exact H1|].
  apply flush_quiet, silent_quiet, H2.
Qed.

(** When every write of the progress file completes, a leaf ends with the
    file in step with the ledger. *)
Lemma flush_whole_leaf (write_ok : writes_complete) d a p :
  keeps flush_rel flush_rel (download_part d a p).
Proof.
  intros s. pose proof (flush_leaf d a p s) as H.
  pose proof (returns_selenium_download_part write_ok d a p s) as Hr.
  destruct (fst (download_part d a p s)); [exact H | discriminate Hr].
Qed.

(** A run that returns, or whose writes of the file all complete, keeps
    the file with the ledger. *)
Lemma on_file_download_all t s :
  fst (download_all t s) = Ok tt \/ writes_complete ->
  on_file s -> on_file (snd (download_all t s)).
Proof.
  intros Hr H.
  assert (Fl : flush_rel s (snd (download_all t s))).
  { destruct Hr as [Hr|Hw].
    - pose proof (flush_download_all t s) as K. now rewrite Hr in K.
    - pose proof (keeps_download_all flush_trans flush_trans flush_quiet
                    (fun s s' H => H) flush_silent
                    (flush_whole_leaf Hw) t s) as K.
      now destruct (fst (download_all t s)). }
  destruct Fl as (evs & _ & _ & [[P F]|P]); [|now left].
  unfold on_file, persisted in *. rewrite P, F. exact H.
Qed.

(** [__init__] on a file that goes with a ledger. *)
Lemma init_on_file dir s e :
  on_file s ->
  Forall text (completed (progress s)) ->
  Forall text (failed_keys (progress s)) ->
  fst (make_dir dir e) = Ok tt ->
  exists st,
    init dir (progress_file s) e = Ok st
    /\ progress st = progress s
    /\ stats st = {| districts := 0; constituencies := 0; parts := 0;
                     downloaded := 0; failed := 0 |}
    /\ trace st = [].
Proof.
  intros Hf Hc Hk Hm. unfold init.
  destruct (make_dir dir e) as [[[]|x] e']; [|discriminate Hm].
  destruct Hf as [Hp|[Hn He]].
  - rewrite Hp. unfold load_progress.
    rewrite (loads_dumps_progress _ Hc Hk), of_json_to_json.
    eexists. split; [reflexivity|]. cbn. repeat split.
  - rewrite Hn. unfold load_progress. rewrite of_json_to_json.
    eexists. split; [reflexivity|]. cbn. repeat split. now rewrite He.
Qed.

End RestartFacts.

Section Restart.

Import ASDDSeleniumDownloader LedgerSpec Invariants.

Context {B : Browser}.

(** Resuming in a new process.  After a run that started with its progress
    file in step with its ledger and that returned, or whose writes of the
    file all completed, a new downloader made on the file the run left
    starts from the ledger of the run; and when the run counted no failure
    and the new downloader meets no leaf the run did not meet, the new run
    calls the fetcher not once, leaves the ledger as it is and counts no
    download and no failure. *)
Theorem resume_after_restart (t t' : option pystr) (dir : path) (s : St)
    (e : Env) :
  fst (download_all t s) = Ok tt \/ writes_complete ->
  on_file s ->
  Forall text (completed (progress (snd (download_all t s)))) ->
  Forall text (failed_keys (progress (snd (download_all t s)))) ->
  fst (make_dir dir e) = Ok tt ->
  exists s2,
    init dir (progress_file (snd (download_all t s))) e = Ok s2
    /\ progress s2 = progress (snd (download_all t s))
    /\ (failed (stats (snd (download_all t s))) = failed (stats s) ->
        (forall k,
           In k (leaves (events_since s2 (snd (download_all t' s2)))) ->
           In k (leaves (events_since s (snd (download_all t s))))) ->
        fetches (events_since s2 (snd (download_all t' s2))) = []
        /\ progress (snd (download_all t' s2))
           = progress (snd (download_all t s))
        /\ downloaded (stats (snd (download_all t' s2))) = 0
        /\ failed (stats (snd (download_all t' s2))) = 0).
Proof.
  intros Hr Hf Hc Hk Hm.
  destruct (init_on_file dir e (on_file_download_all t Hr Hf) Hc Hk Hm)
    as (s2 & Hi & Hp & Hs & _).
  exists s2. split; [exact Hi|]. split; [exact Hp|].
  intros Hfail Hsub.
  destruct (download_all_preserves success_trans success_quiet
              success_leaf t s) as (e1 & T1 & _ & _ & H1).
  destruct (download_all_preserves resume_trans resume_quiet
              resume_leaf t' s2) as (e2 & T2 & H2).
  rewrite (since_app _ _ _ T1) in Hsub. rewrite (since_app _ _ _ T2) in Hsub.
  rewrite (since_app _ _ _ T2).
  destruct H2 as (A1 & A2 & A3 & A4).
  { intros k Hin. rewrite Hp. apply (H1 Hfail). now apply Hsub. }
  rewrite A2, A3, A4, Hp, Hs. repeat split; auto.
Qed.

End Restart.

Section RestartRuns.

Import ASDDSeleniumDownloader LedgerSpec Invariants SeleniumWorld.

Lemma resume_after_restart_witness :
  let s := state_with no_progress (site_with []) in
  let run1 := snd (download_all None s) in
  exists s2,
    init [lit "asdd_data"] (progress_file run1) (site_with []) = Ok s2
    /\ progress s2 = progress run1
    /\ (failed (stats run1) = failed (stats s) ->
        (forall k,
           In k (leaves (events_since s2 (snd (download_all None s2)))) ->
           In k (leaves (events_since s run1))) ->
        fetches (events_since s2 (snd (download_all None s2))) = []
        /\ progress (snd (download_all None s2)) = progress run1
        /\ downloaded (stats (snd (download_all None s2))) = 0
        /\ failed (stats (snd (download_all None s2))) = 0).
Proof.
  cbv zeta.
  apply (@resume_after_restart browser None None [lit "asdd_data"]
           (state_with no_progress (site_with [])) (site_with [])).
  - left. vm_compute. reflexivity.
  - right. split; reflexivity.
  - apply Forall_text. vm_compute. reflexivity.
  - apply Forall_text. vm_compute. reflexivity.
  - reflexivity.
Defined.

End RestartRuns.

(* ================================================================== *)
(** * What the enumerators give *)

Section Enumerators.

Import Invariants.

Lemma keep_options_kept {B : ASDDSeleniumDownloader.Browser}
    (prompts : list pystr) (options : list (option pystr * pystr)) :
  Forall (kept_option prompts)
    (ASDDSeleniumDownloader.keep_options prompts options).
Proof.
  apply Forall_forall. intros o Ho.
  unfold ASDDSeleniumDownloader.keep_options in Ho.
  apply in_flat_map in Ho. destruct Ho as ([[v|] text] & _ & Ho);
    cbn [fst snd] in Ho; [|destruct Ho].
  destruct (negb (PyStr.eqb v [])) eqn:Ev; [|destruct Ho].
  destruct (negb (PyStr.mem _ prompts)) eqn:Ep; [|destruct Ho].
  destruct Ho as [<-|[]]. unfold kept_option.
  cbn [ASDDSeleniumDownloader.value ASDDSeleniumDownloader.name].
  apply negb_true_iff in Ev, Ep. split; [|split].
  - intros ->. now rewrite eqb_refl in Ev.
  - apply strip_idempotent.
  - now apply mem_false_In.
Qed.

(** The enumerators of the resumable downloader raise nothing: what goes
    wrong in the browser gives the empty list.  Every option they give has
    a value that is not empty and a stripped name that is none of the
    prompts of its dropdown; [get_districts] puts the number of districts
    in the counter, and the two others leave the counters alone. *)
Theorem selenium_enumerators_keep_real_options
    {B : ASDDSeleniumDownloader.Browser} (v : pystr)
    (s : ASDDSeleniumDownloader.St) :
  (exists l,
     fst (ASDDSeleniumDownloader.get_districts s) = Ok l
     /\ Forall
          (kept_option
             [lit "select"; lit "select district";
              lit "-- select district --"]) l
     /\ (l <> [] ->
         ASDDSeleniumDownloader.districts
           (ASDDSeleniumDownloader.stats
              (snd (ASDDSeleniumDownloader.get_districts s)))
         = List.length l))
  /\ (exists l,
        fst (ASDDSeleniumDownloader.get_constituencies v s) = Ok l
        /\ Forall
             (kept_option
                [lit "select"; lit "select assembly"; lit "-- select ac --"])
             l
        /\ ASDDSeleniumDownloader.stats
             (snd (ASDDSeleniumDownloader.get_constituencies v s))
           = ASDDSeleniumDownloader.stats s)
  /\ (exists l,
        fst (ASDDSeleniumDownloader.get_parts v s) = Ok l
        /\ Forall
             (kept_option
                [lit "select"; lit "select part"; lit "-- select part --"])
             l
        /\ ASDDSeleniumDownloader.stats
             (snd (ASDDSeleniumDownloader.get_parts v s))
           = ASDDSeleniumDownloader.stats s).
Proof.
  split; [|split].
  - unfold ASDDSeleniumDownloader.get_districts, try_except, bind, Eff.get,
      ASDDSeleniumDownloader.call, modify, ret.
    destruct (ASDDSeleniumDownloader.read_districts _ _) as [[options|x] e].
    + eexists. split; [reflexivity|]. split; [apply keep_options_kept|].
      reflexivity.
    + exists []. split; [reflexivity|]. split; [apply Forall_nil|].
      now intros H.
  - unfold ASDDSeleniumDownloader.get_constituencies, try_except, bind,
      ASDDSeleniumDownloader.call, ret.
    destruct (ASDDSeleniumDownloader.read_constituencies v _)
      as [[options|x] e].
    + eexists. split; [reflexivity|]. split; [apply keep_options_kept|].
      reflexivity.
    + exists []. split; [reflexivity|]. split; [apply Forall_nil|].
      reflexivity.
  - unfold ASDDSeleniumDownloader.get_parts, try_except, bind,
      ASDDSeleniumDownloader.call, ret.
    destruct (ASDDSeleniumDownloader.read_parts v _)
      as [[[options|]|x] e].
    + eexists. split; [reflexivity|]. split; [apply keep_options_kept|].
      reflexivity.
    + exists []. split; [reflexivity|]. split; [apply Forall_nil|].
      reflexivity.
    + exists []. split; [reflexivity|]. split; [apply Forall_nil|].
      reflexivity.
Qed.

(** [get_districts] of the downloader over HTTP raises nothing and uses
    the network only: the files and the counters stay.  Every district it
    gives has a stripped value that is neither empty nor [0] and a stripped
    name that is not the prompt; a page that cannot be fetched and a page
    without the dropdown give the empty list. *)
Theorem data_get_districts_keeps_real_options {W : ASDDDownloader.World}
    (s : ASDDDownloader.St) :
  let fetched :=
    ASDDDownloader.get_page (ASDDDownloader.asd_url s)
      ASDDDownloader.default_max_retries s in
  (exists l,
     fst (ASDDDownloader.get_districts s) = Ok l
     /\ Forall kept_district l)
  /\ ASDDDownloader.fs (snd (ASDDDownloader.get_districts s))
     = ASDDDownloader.fs s
  /\ ASDDDownloader.stats (snd (ASDDDownloader.get_districts s))
     = ASDDDownloader.stats s
  /\ (is_ok (fst fetched) = false ->
      fst (ASDDDownloader.get_districts s) = Ok [])
  /\ (forall r,
        fst fetched = Ok (Some r) ->
        ASDDDownloader.find_district_select (ASDDDownloader.content r) = None ->
        fst (ASDDDownloader.get_districts s) = Ok []).
Proof.
  cbv zeta.
  destruct (get_page_spec (ASDDDownloader.asd_url s)
              ASDDDownloader.default_max_retries s)
    as (j & _ & _ & _ & [Hfs Hst] & _).
  unfold ASDDDownloader.get_districts, try_except, bind, Eff.get,
    ASDDDownloader.content_of, ret, raise.
  destruct (ASDDDownloader.get_page _ _ s) as [[[r|]|e] s1];
    cbn [fst snd is_ok] in *.
  - destruct (ASDDDownloader.find_district_select (ASDDDownloader.content r))
      as [options|] eqn:Eo; cbn [fst snd].
    + split; [|repeat split; try assumption; try discriminate].
      * eexists. split; [reflexivity|]. apply Forall_forall. intros o Ho.
        apply in_flat_map in Ho. destruct Ho as ([v text] & _ & Ho).
        cbn [fst snd] in Ho.
        destruct (negb (PyStr.eqb (strip v) [])) eqn:E1; [|destruct Ho].
        destruct (negb (PyStr.eqb (strip v) (lit "0"))) eqn:E2;
          [|destruct Ho].
        destruct (negb (PyStr.eqb _ (lit "select"))) eqn:E3; [|destruct Ho].
        destruct Ho as [<-|[]]. unfold kept_district.
        cbn [ASDDDownloader.value ASDDDownloader.name].
        apply negb_true_iff in E1, E2, E3.
        repeat split; try apply strip_idempotent.
        -- intros H. rewrite H, eqb_refl in E1. discriminate.
        -- intros H. rewrite H, eqb_refl in E2. discriminate.
        -- intros H. rewrite H, eqb_refl in E3. discriminate.
      * intros r' [= <-] H. rewrite Eo in H. discriminate.
    + split; [exists []; split; [reflexivity | apply Forall_nil]|].
      repeat split; try assumption; try discriminate.
  - split; [exists []; split; [reflexivity | apply Forall_nil]|].
    repeat split; try assumption; try discriminate.
  - split; [exists []; split; [reflexivity | apply Forall_nil]|].
    repeat split; try assumption; try discriminate.
Qed.

End Enumerators.

Section Fallback.

Import ASDDDownloader Spec Invariants.

Context {W : World}.

(** The fallback on the links of the page.  [scrape_direct_links] raises
    nothing.  When the page cannot be fetched it counts nothing and leaves
    the files alone.  When the page is fetched and its source is written,
    the anchors whose href has [.pdf] or [download] in it are taken in
    order: each is counted as one download or as one failure, up to the
    first one whose href is not absolute and is refused by [urljoin], which
    ends the loop; so every such anchor is counted once when [urljoin]
    refuses none of them. *)
Theorem direct_links_are_counted_once (s : St) :
  let s' := snd (scrape_direct_links s) in
  fst (scrape_direct_links s) = Ok tt
  /\ (is_ok (fst (get_page (asd_url s) default_max_retries s)) = false ->
      stats s' = stats s /\ fs s' = fs s)
  /\ (forall r s1 s2,
        get_page (asd_url s) default_max_retries s = (Ok (Some r), s1) ->
        do_write (joinpath (output_dir s) (lit "page_source.html"))
          (prettify (content r)) s1 = (Ok tt, s2) ->
        let links :=
          filter
            (fun l =>
               negb (PyStr.eqb (fst l) [])
               && (contains (lower (fst l)) (lit ".pdf")
                   || contains (lower (fst l)) (lit "download")))
            (find_all_a (content r)) in
        downloaded (stats s') + failed (stats s')
        = downloaded (stats s) + failed (stats s)
          + List.length (leading (joinable (asd_url s)) links)
        /\ (forallb (joinable (asd_url s)) links = true ->
            downloaded (stats s') + failed (stats s')
            = downloaded (stats s) + failed (stats s) + List.length links)).
Proof.
  cbv zeta. split; [apply scrape_direct_links_ok|].
  rewrite scrape_direct_links_unfold.
  destruct (get_page_spec (asd_url s) default_max_retries s)
    as (j & _ & _ & (_ & Ha & _) & [Hfs Hst] & _).
  destruct (get_page (asd_url s) default_max_retries s) as [[[r|]|e] s1];
    cbn [fst snd is_ok] in *.
  - split; [discriminate|]. intros r' s1' s2 [= <- <-] Hw. rewrite Hw.
    pose proof (stats_do_write
                  (joinpath (output_dir s) (lit "page_source.html"))
                  (prettify (content r)) s1) as Hs2.
    assert (Ha2 : asd_url s2 = asd_url s1).
    { revert Hw. unfold do_write.
      destruct (write_file _ _ (fs s1)). now intros [= _ <-]. }
    rewrite Hw in Hs2. cbn [snd] in *.
    match goal with
    | |- context [for_each ?l scrape_link s2] =>
        destruct (scrape_links_count l s2) as (_ & _ & Hc)
    end.
    rewrite Ha2, Ha in Hc.
    split; [rewrite Hc, Hs2, Hst; reflexivity|].
    intros Hj. rewrite (leading_all _ _ Hj) in Hc.
    rewrite Hc, Hs2, Hst. reflexivity.
  - split; [discriminate | intros r s1' s2 [=]].
  - split; [|intros r s1' s2 [=]]. intros _. now split.
Qed.

End Fallback.

Section EnumeratorRuns.

Import ASDDDownloader DataWorld.

Lemma data_get_districts_keeps_real_options_witness :
  fst (get_districts (start down)) = Ok [].
Proof.
  apply (proj1 (proj2 (proj2 (proj2
           (@data_get_districts_keeps_real_options world (start down)))))).
  reflexivity.
Defined.

End EnumeratorRuns.

Section FallbackRuns.

Import ASDDDownloader Invariants Scenarios.

Lemma direct_links_are_counted_once_witness :
  let s := on_strict serving in
  let s' := snd (scrape_direct_links (W := strict) s) in
  downloaded (stats s') + failed (stats s')
  = downloaded (stats s) + failed (stats s) + 2.
Proof.
  cbv zeta.
  eassert (G : get_page (W := strict) (asd_url (on_strict serving))
                 default_max_retries (on_strict serving)
               = (Ok (Some _), _)) by (vm_compute; reflexivity).
  eassert (D : do_write (W := strict) _ _ _ = (Ok tt, _)).
  2: exact (proj1 (proj2 (proj2 (@direct_links_are_counted_once strict
                                   (on_strict serving)))
                     _ _ _ G D)).
  vm_compute. reflexivity.
Defined.

(** On that page the third of the four links ends the loop: the fourth is
    not fetched, and nothing is raised. *)
Example link_that_cannot_be_joined :
  let s := on_strict serving in
  let run := scrape_direct_links (W := strict) s in
  fst run = Ok tt
  /\ downloaded (stats (snd run)) + failed (stats (snd run)) = 2
  /\ List.length
       (filter (fun e => match e with EvGet _ => true | _ => false end)
          (trace (snd run))) = 3.
Proof. vm_compute. repeat split. Qed.

End FallbackRuns.

Section Visits.

Import ASDDSeleniumDownloader LedgerSpec Invariants.

Context {B : Browser}.

Lemma leaves_split (evs : list event) :
  List.length (leaves evs) = List.length (fetches evs) + skipped evs.
Proof.
  unfold skipped. induction evs as [|e evs IH]; [reflexivity|].
  destruct e; simpl in *; lia.
Qed.

(** The counter of parts goes with the leaves.  Over a whole run of
    [download_all] the counter of parts grows by the number of leaves the
    run met, or by more: the parts of a constituency are counted before the
    first of them is met, and a write of the progress file that fails ends
    the run among them.  The counter grows by exactly the number of leaves
    met when the run returns, and whatever its outcome when every write of
    the progress file completes; each of these leaves was passed over
    because its key was completed, or counted as one download or as one
    failure. *)
Theorem parts_counter_counts_leaves (test_district : option pystr) (s : St) :
  let s' := snd (download_all test_district s) in
  let evs := events_since s s' in
  (parts (stats s) + List.length (leaves evs) <= parts (stats s')
   /\ parts (stats s) + skipped evs
      + (downloaded (stats s') + failed (stats s'))
      <= parts (stats s') + (downloaded (stats s) + failed (stats s)))
  /\ (fst (download_all test_district s) = Ok tt \/ writes_complete ->
      parts (stats s') = parts (stats s) + List.length (leaves evs)
      /\ parts (stats s') + (downloaded (stats s) + failed (stats s))
         = parts (stats s) + skipped evs
           + (downloaded (stats s') + failed (stats s'))).
Proof.
  cbv zeta.
  destruct (download_all_preserves accounts_trans accounts_quiet
              accounts_leaf test_district s)
    as (evs' & dc & df & T' & _ & _ & D & X & Pm).
  rewrite (since_app _ _ _ T').
  apply Permutation_length in Pm. rewrite length_app in Pm.
  pose proof (leaves_split evs') as Hl.
  split.
  - assert (C : visits_cut_rel s (snd (download_all test_district s))).
    { pose proof (visits_cut_download_all test_district s) as K.
      destruct (fst (download_all test_district s));
        [now apply visits_cut_of | exact K]. }
    destruct C as (evs & T & P).
    rewrite T in T'. apply app_inv_head in T'. subst evs'.
    split; lia.
  - intros H.
    assert (V : visits_rel s (snd (download_all test_district s))).
    { destruct H as [H|H].
      - pose proof (visits_cut_download_all test_district s) as K.
        now rewrite H in K.
      - pose proof (visits_whole_download_all H test_district s) as K.
        now destruct (fst (download_all test_district s)). }
    destruct V as (evs & T & P).
    rewrite T in T'. apply app_inv_head in T'. subst evs'.
    split; lia.
Qed.

End Visits.

Section VisitsRuns.

Import ASDDSeleniumDownloader LedgerSpec Invariants SeleniumWorld.

Lemma parts_counter_counts_leaves_witness :
  let s := state_with no_progress (site_with [lit "D1|C2|P1"]) in
  let s' := snd (download_all None s) in
  parts (stats s') = parts (stats s) + List.length (leaves (events_since s s'))
  /\ parts (stats s') + (downloaded (stats s) + failed (stats s))
     = parts (stats s) + skipped (events_since s s')
       + (downloaded (stats s') + failed (stats s')).
Proof.
  cbv zeta.
  apply (proj2 (@parts_counter_counts_leaves browser None
                  (state_with no_progress (site_with [lit "D1|C2|P1"])))).
  left. vm_compute. reflexivity.
Defined.

(** On the disk that takes five characters the first write ends the run:
    the two parts of the first constituency are counted, and one of them
    was met. *)
Example parts_counted_before_a_failed_write :
  let s := Scenarios.on_full_disk in
  let run := download_all (B := Scenarios.full_disk) None s in
  fst run = Raise OSError
  /\ parts (stats (snd run)) = 2
  /\ List.length (leaves (events_since (B := Scenarios.full_disk) s (snd run)))
     = 1.
Proof. vm_compute. repeat split. Qed.

End VisitsRuns.

(* ================================================================== *)
(** * Failures that stay where they happen *)

Section LoopFacts.

Context {S A : Type}.


End LoopFacts.

Section DataIsolation.

Import ASDDDownloader Invariants.

Context {W : World}.




End DataIsolation.

Section SeleniumIsolation.

Import ASDDSeleniumDownloader LedgerSpec Invariants.

Context {B : Browser}.






End SeleniumIsolation.

Section Isolation.

Context {W : ASDDDownloader.World} {B : ASDDSeleniumDownloader.Browser}.


End Isolation.

(** Runs with a district that has no constituencies. *)
Section IsolationRuns.

Import Invariants Scenarios.


(** The whole run on the site whose second district has no constituency and
    whose last leaf fails: the two other districts are processed, the
    failure is in the counter and in the ledger, and the run returns. *)
Example run_with_an_empty_district :
  let s := SeleniumWorld.state_with SeleniumWorld.no_progress gap_site in
  let run := ASDDSeleniumDownloader.download_all None s in
  fst run = Ok tt
  /\ LedgerSpec.leaves (LedgerSpec.events_since s (snd run))
     = [lit "D1|C1|P1"; lit "D1|C1|P2"; lit "D3|C1|P1"]
  /\ ASDDSeleniumDownloader.completed
       (ASDDSeleniumDownloader.progress (snd run))
     = [lit "D1|C1|P1"; lit "D1|C1|P2"]
  /\ ASDDSeleniumDownloader.failed_keys
       (ASDDSeleniumDownloader.progress (snd run))
     = [lit "D3|C1|P1"]
  /\ ASDDSeleniumDownloader.stats (snd run)
     = {| ASDDSeleniumDownloader.districts := 3;
          ASDDSeleniumDownloader.constituencies := 2;
          ASDDSeleniumDownloader.parts := 3;
          ASDDSeleniumDownloader.downloaded := 2;
          ASDDSeleniumDownloader.failed := 1 |}
  /\ LedgerSpec.persisted (snd run).
Proof. vm_compute. repeat split. Qed.

(** The same over HTTP: the districts A, B and A again, where B has no
    constituency. *)
Example run_with_a_district_without_constituencies :
  let run := ASDDDownloader.download_all (DataWorld.start only_A) in
  fst run = Ok tt
  /\ ASDDDownloader.stats (snd run)
     = {| ASDDDownloader.districts := 3;
          ASDDDownloader.constituencies := 2;
          ASDDDownloader.parts := 4;
          ASDDDownloader.downloaded := 4;
          ASDDDownloader.failed := 0 |}.
Proof. vm_compute. repeat split. Qed.

End IsolationRuns.
